(** * BEASTling: configuration resolution, data readers, document builder, CLI

    A shallow embedding of the Python sources

      - [beastling/configuration.py]      (module [Configuration])
      - [beastling/fileio/datareaders.py] (module [Datareaders])
      - [beastling/beastxml.py]           (module [Beastxml])
      - [beastling/cli.py]                (module [Cli])
      - [beastling/sections.py]           (module [Sections])

    ([get_glottolog_newick] of [configuration.py] is the module
    [Glottolog]), followed by the vocabulary of the statements (modules
    [Spec] and [Terms]), small concrete instances (modules [Examples] and
    [Instances]) and the properties.

    Python exceptions become the [Raise] branch of [result]; the mutable
    attributes of an object become a record that is passed and returned;
    [ET.SubElement (parent, ...)] becomes "return the nodes that are appended
    to [parent]".  Dictionaries whose iteration order is observable are
    association lists in insertion order, sets of taxa are [gset string]. *)

From Stdlib Require Import ZArith String Ascii.
From stdpp Require Import base option list gmap sets strings pretty sorting.

Local Open Scope string_scope.
Local Open Scope list_scope.
Local Open Scope Z_scope.

(** ** Python preliminaries *)

Module Py.

(** The exceptions the modelled code raises.  [SystemExit] is what
    [sys.exit] raises; it is not an [Exception], so [except Exception]
    does not catch it. *)
Inductive exn : Type :=
| ValueError (msg : string)
| KeyError (key : string)
| TypeError (msg : string)
| IOError (msg : string)
| IndexError (msg : string)
| AttributeError (msg : string)
| SystemExit (status : Z).

Inductive result (A : Type) : Type :=
| Ok (a : A)
| Raise (e : exn).
Arguments Ok {A} a.
Arguments Raise {A} e.

Definition is_Exception (e : exn) : bool :=
  match e with SystemExit _ => false | _ => true end.

#[global] Instance result_ret : MRet result := fun _ a => Ok a.
#[global] Instance result_bind : MBind result := fun _ _ f r =>
  match r with Ok a => f a | Raise e => Raise e end.

(** [for x in xs: body], where [body] can raise and updates an accumulator. *)
Fixpoint for_each {A S} (body : S -> A -> result S) (xs : list A) (s : S) : result S :=
  match xs with
  | [] => Ok s
  | x :: rest =>
      match body s x with
      | Ok s' => for_each body rest s'
      | Raise e => Raise e
      end
  end.

(** *** Strings (byte strings, as in Python 2 [str]) *)

Definition lower_ascii (c : ascii) : ascii :=
  let n := N_of_ascii c in
  if ((65 <=? n) && (n <=? 90))%N then ascii_of_N (n + 32) else c.

(** [s.lower()] *)
Fixpoint lower (s : string) : string :=
  match s with
  | EmptyString => EmptyString
  | String c r => String (lower_ascii c) (lower r)
  end.

(** The characters [str.strip()] removes: space, \t, \n, \v, \f, \r. *)
Definition is_whitespace (c : ascii) : bool :=
  let n := N_of_ascii c in
  ((n =? 32) || ((9 <=? n) && (n <=? 13)))%N.

Fixpoint lstrip (s : string) : string :=
  match s with
  | EmptyString => EmptyString
  | String c r => if is_whitespace c then lstrip r else s
  end.

(** [s.strip()] *)
Definition strip (s : string) : string :=
  String.rev (lstrip (String.rev (lstrip s))).

(** [s.split(sep)] for a one-character separator: never returns [[]]. *)
Fixpoint split_go (sep : ascii) (cur : string) (s : string) : list string :=
  match s with
  | EmptyString => [String.rev cur]
  | String c r =>
      if Ascii.eqb c sep then String.rev cur :: split_go sep EmptyString r
      else split_go sep (String c cur) r
  end.
Definition split (sep : ascii) (s : string) : list string :=
  split_go sep EmptyString s.

(** [fp.readlines()]: the lines of a text, each with its line end. *)
Fixpoint readlines_go (cur : string) (s : string) : list string :=
  match s with
  | EmptyString =>
      match cur with EmptyString => [] | _ => [String.rev cur] end
  | String c r =>
      if Ascii.eqb c "010" then String.rev (String c cur) :: readlines_go EmptyString r
      else readlines_go (String c cur) r
  end.
Definition readlines (s : string) : list string := readlines_go EmptyString s.

(** [sep.join(xs)] *)
Fixpoint join (sep : string) (xs : list string) : string :=
  match xs with
  | [] => ""
  | [x] => x
  | x :: rest => x +:+ sep +:+ join sep rest
  end.

(** [s.endswith(suffix)] *)
Definition endswith (s suffix : string) : bool :=
  String.prefix (String.rev suffix) (String.rev s).

(** [s[:-n]] for [n > 0] *)
Definition drop_last (n : nat) (s : string) : string :=
  String.substring 0 (String.length s - n) s.

(** The double quote character, as a string. *)
Definition dquote : string := String "034" EmptyString.

(** The truth value of a string: it is not empty. *)
Definition truthy (s : string) : bool := negb (String.eqb s "").

(** [str(i)] for an [int]. *)
Definition str_int (i : Z) : string := pretty i.
Definition str_len (n : nat) : string := pretty n.

(** *** Dictionaries with observable iteration order *)

Definition dict (V : Type) : Type := list (string * V).

Fixpoint dict_get {V} (d : dict V) (k : string) : option V :=
  match d with
  | [] => None
  | (k', v) :: rest => if String.eqb k' k then Some v else dict_get rest k
  end.

(** [d[k]], raising [KeyError] *)
Definition dict_item {V} (d : dict V) (k : string) : result V :=
  match dict_get d k with Some v => Ok v | None => Raise (KeyError k) end.

(** [k in d] *)
Definition dict_has {V} (d : dict V) (k : string) : bool :=
  match dict_get d k with Some _ => true | None => false end.

(** [d[k] = v]: overwrite in place, or append a new key. *)
Fixpoint dict_set {V} (d : dict V) (k : string) (v : V) : dict V :=
  match d with
  | [] => [(k, v)]
  | (k', v') :: rest =>
      if String.eqb k' k then (k', v) :: rest else (k', v') :: dict_set rest k v
  end.

Definition keys {V} (d : dict V) : list string := map fst d.
Definition values {V} (d : dict V) : list V := map snd d.

(** [sorted(xs)] on strings, and [sorted(d.items())] on a dictionary (keys
    are distinct, so the order of the items is the order of their keys). *)
Definition sorted (xs : list string) : list string := merge_sort String.le xs.

Definition item_le {V} (x y : string * V) : Prop := String.le (fst x) (fst y).
#[global] Instance item_le_dec {V} : RelDecision (@item_le V).
Proof. intros x y. unfold item_le. apply _. Defined.
Definition sorted_items {V} (d : dict V) : list (string * V) :=
  merge_sort item_le d.

(** [any(bs)] *)
Definition any (bs : list bool) : bool := existsb (fun b => b) bs.

End Py.
Import Py.

(** ** [beastling/configuration.py] *)

Module Configuration.

(** A Python [float], carried by the text [str()] gives for it: the
    modelled code only ever renders it. *)
Inductive pyfloat : Type := Float (repr : string).
Definition str_float (f : pyfloat) : string := let 'Float r := f in r.

(** A calibration as the document builder reads it ([cal.langs],
    [cal.dist], [cal.param1], [cal.param2], [cal.originate]). *)
Record Calibration : Type := {
  langs : list string;
  dist : string;
  param1 : pyfloat;
  param2 : pyfloat;
  originate : bool;
}.

(** Objects are referred to by their identity. *)
Definition oid : Type := nat.

(** A clock object: the attributes the builder reads, and the
    back-reference [beastxml] it writes. *)
Record Clock : Type := {
  c_name : string;
  is_strict : bool;
  branchrate_model_id : string;
  mean_rate_id : string;
  c_beastxml : option oid;
}.

(** A model object. [data] maps a language to its feature values;
    [m_clock] is the clock object the model refers to. *)
Record Model : Type := {
  m_name : string;
  data : gmap string (gmap string string);
  m_messages : list string;
  rate_variation : bool;
  m_clock : oid;
  features : list string;
  weights : dict Z;
  data_filename : string;
  m_beastxml : option oid;
}.

(** A value of a model section's option dictionary. *)
Inductive optval : Type :=
| OStr (s : string)
| OBool (b : bool)
| OFloat (f : pyfloat).

(** [self.families] is a string until [process] replaces it by a list. *)
Inductive families_val : Type :=
| FStr (s : string)
| FList (l : list string).

(** The attributes that are assigned once, when the configuration is
    constructed or read, and only read afterwards.  The record has the
    attributes of both modules: those [configuration.py] assigns, and
    [files_to_embed], [monophyly_newick], [log_fine_probs],
    [log_pure_tree], [geo_config], [geo_model], [all_models] and [clocks],
    which [beastxml.py] reads of the configuration it is given and
    [configuration.py] does not assign ([tree_logging_pointless] it
    assigns when it reads a file only).  The document builder is followed
    on a configuration object that has them all; on an object that lacks
    one of them the builder stops with an [AttributeError] where it reads
    it, which is not followed. *)
Record Settings : Type := {
  basename : string;
  configfile : option string;       (* what [configfile.write_string()] gives *)
  chainlength : Z;
  embed_data : bool;
  files_to_embed : list string;
  sample_from_prior : bool;
  overlap : string;
  sample_branch_lengths : bool;
  sample_topology : bool;
  monophyly : bool;
  monophyly_newick : string;
  screenlog : bool;
  log_all : bool;
  log_params : bool;
  log_probabilities : bool;
  log_fine_probs : bool;
  log_trees : bool;
  log_pure_tree : bool;
  tree_logging_pointless : bool;
  stdin_data : bool;
  calibrations : dict Calibration;
  glottolog_release : string;
  geo_config : option bool;         (* [None]: empty; [Some b]: log_locations = b *)
  geo_model : option oid;
  all_models : list oid;
  clocks : list oid;
}.

(** The configuration object: its settings, the attributes [process]
    assigns, and the model and clock objects it owns. *)
Record Configuration : Type := {
  settings : Settings;
  processed : bool;
  messages : list string;
  message_flags : list string;
  log_every : Z;
  families : families_val;
  starting_tree : string;
  model_configs : list (dict optval);
  classifications : gmap string (list (string * string));
  lang_filter : gset string;
  models : list oid;
  languages : list string;
  model_objects : gmap oid Model;
  clock_objects : gmap oid Clock;
}.

(** What [process] gets from outside the program: the file system, the
    Glottolog classification of a release (the result of
    [load_glotto_class], which fails with [ValueError] when the
    classification cannot be retrieved), and the model classes. *)
Record Env : Type := {
  fs : string -> option string;
  glottolog : string -> result (gmap string (list (string * string)));
  BSVSModel : dict optval -> Configuration -> result Model;
  CovarionModel : dict optval -> Configuration -> result Model;
  MKModel : dict optval -> Configuration -> result Model;
  BSVS_package_notice : string;
  MK_package_notice : string;
}.

(** [repr] of a set of strings, in sorted order of its elements. *)
Definition repr_set (s : gset string) : string :=
  "set([" +:+ join ", " (map (fun x => "'" +:+ x +:+ "'") (sorted (elements s))) +:+ "])".

(** [assert_compare_equal] *)
Definition assert_compare_equal (one other : gset string) : result (gset string) :=
  if decide (one ≠ other) then
    Raise (ValueError ("Values " +:+ repr_set one +:+ " and " +:+ repr_set other
                       +:+ " were expected to match."))
  else Ok one.

(** [Configuration.valid_overlaps] *)
Definition valid_overlaps : dict (gset string -> gset string -> result (gset string)) :=
  [ ("union", fun a b => Ok (a ∪ b));
    ("intersection", fun a b => Ok (a ∩ b));
    ("error", assert_compare_equal) ].

(** The string a value of an option dictionary must be for [.lower()]. *)
Definition as_str (v : optval) : result string :=
  match v with
  | OStr s => Ok s
  | _ => Raise (AttributeError "object has no attribute 'lower'")
  end.

(** [str(v)] as used by the [%s] of an error message. *)
Definition str_optval (v : optval) : string :=
  match v with
  | OStr s => s
  | OBool true => "True"
  | OBool false => "False"
  | OFloat f => str_float f
  end.

Section Process.
Variable E : Env.

(** [os.path.exists(self.families)] and the assignment that follows:
    a list is not a path. *)
Definition process_families (f : families_val) : result (list string) :=
  match f with
  | FList _ => Raise (TypeError "coercing to Unicode: need string or buffer, list found")
  | FStr s =>
      match fs E s with
      | Some text => Ok (map strip (readlines text))
      | None => Ok (map strip (split "," s))
      end
  end.

(** The names and codes of a classification, flattened. *)
Definition flat_names (cl : list (string * string)) : list string :=
  flat_map (fun t => [fst t; snd t]) cl.

Definition compute_lang_filter (fams : list string)
    (cls : gmap string (list (string * string))) : gset string :=
  if decide (fams = ["*"]) then ∅
  else dom (filter (fun kv =>
              any (map (fun family => bool_decide (family ∈ flat_names (snd kv))) fams) = true)
            cls).

(** Assignments to single attributes of the configuration. *)
Definition set_messages (self : Configuration) (v : list string) : Configuration :=
  {| settings := settings self; processed := processed self; messages := v;
     message_flags := message_flags self; log_every := log_every self;
     families := families self; starting_tree := starting_tree self;
     model_configs := model_configs self; classifications := classifications self;
     lang_filter := lang_filter self; models := models self;
     languages := languages self; model_objects := model_objects self;
     clock_objects := clock_objects self |}.

Definition set_message_flags (self : Configuration) (v : list string) : Configuration :=
  {| settings := settings self; processed := processed self; messages := messages self;
     message_flags := v; log_every := log_every self;
     families := families self; starting_tree := starting_tree self;
     model_configs := model_configs self; classifications := classifications self;
     lang_filter := lang_filter self; models := models self;
     languages := languages self; model_objects := model_objects self;
     clock_objects := clock_objects self |}.

(** [self.models.append(model)], for a newly constructed object. *)
Definition models_append (self : Configuration) (model : Model) : Configuration :=
  let o := fresh (dom (model_objects self)) in
  {| settings := settings self; processed := processed self; messages := messages self;
     message_flags := message_flags self; log_every := log_every self;
     families := families self; starting_tree := starting_tree self;
     model_configs := model_configs self; classifications := classifications self;
     lang_filter := lang_filter self; models := models self ++ [o];
     languages := languages self; model_objects := <[o := model]> (model_objects self);
     clock_objects := clock_objects self |}.

(** [self.messages.append(msg)] *)
Definition message (self : Configuration) (msg : string) : Configuration :=
  set_messages self (messages self ++ [msg]).

(** [if flag not in self.message_flags: ...append(flag); ...append(notice)] *)
Definition notice_once (self : Configuration) (flag notice : string) : Configuration :=
  if negb (bool_decide (flag ∈ message_flags self)) then
    message (set_message_flags self (message_flags self ++ [flag])) notice
  else self.

(** The body of the loop that instantiates the models.  The loop state
    is the configuration and the list of the model objects made so far
    (the objects [self.models] refers to). *)
Definition instantiate_model (st : Configuration * list Model)
    (config : dict optval) : result (Configuration * list Model) :=
  let '(self, made) := st in
  if negb (dict_has config "model") then
    name ← dict_item config "name";
    Raise (ValueError ("Model not specified for model section " +:+ str_optval name +:+ "."))
  else if negb (dict_has config "data") then
    name ← dict_item config "name";
    Raise (ValueError ("Data source not specified in model section " +:+ str_optval name +:+ "."))
  else
    mv ← dict_item config "model";
    kind ← as_str mv;
    '(model, self) ←
      (if String.eqb (lower kind) "bsvs" then
         model ← BSVSModel E config self;
         Ok (model, notice_once self "bsvs_used" (BSVS_package_notice E))
       else if String.eqb (lower kind) "covarion" then
         model ← CovarionModel E config self;
         Ok (model, self)
       else if String.eqb (lower kind) "mk" then
         model ← MKModel E config self;
         Ok (model, notice_once self "mk_used" (MK_package_notice E))
       else
         name ← dict_item config "name";
         Raise (ValueError ("Unknown model type '" +:+ kind +:+ "' for model section '"
                            +:+ str_optval name +:+ "'.")));
    self ←
      (if negb (String.eqb (lower kind) "covarion") then
         name ← dict_item config "name";
         Ok (message self ("[DEPENDENCY] Model " +:+ str_optval name
               +:+ ": AlignmentFromTrait is implemented in the BEAST package "
               +:+ dquote +:+ "BEAST_CLASSIC" +:+ dquote +:+ "."))
       else Ok self);
    let self := set_messages self (messages self ++ m_messages model) in
    Ok (models_append self model, made ++ [model]).

(** The body of the loop that finalises the language list. *)
Definition add_languages
    (overlap_resolver : gset string -> gset string -> result (gset string))
    (filter : gset string) (languages : gset string) (model : Model)
    : result (gset string) :=
  let addition :=
    if decide (filter ≠ ∅) then dom (data model) ∩ filter else dom (data model) in
  overlap_resolver languages addition.

(** "Finalise language list": from the first model's languages through
    the overlap resolver over all models. *)
Definition combine_languages (overlap : string) (filter : gset string)
    (ms : list Model) : result (gset string) :=
  match ms with
  | [] => Raise (IndexError "list index out of range")
  | m0 :: _ =>
      overlap_resolver ← dict_item valid_overlaps overlap;
      for_each (add_languages overlap_resolver filter) ms (dom (data m0))
  end.

(** ... then "make sure there's something left" and "convert back into
    a sorted list". *)
Definition finalise_languages (overlap : string) (filter : gset string)
    (ms : list Model) : result (list string) :=
  languages ← combine_languages overlap filter ms;
  if decide (languages = ∅) then Raise (ValueError "No languages specified!")
  else Ok (sorted (elements languages)).

(** The logging interval [process] sets. *)
Definition derive_log_every (log_every chainlength : Z) : Z :=
  if log_every =? 0 then
    let log_every := chainlength / 10000 in
    if log_every =? 0 then 1 else log_every
  else log_every.

(** [process], up to "Instantiate models". *)
Definition prepare (self : Configuration) : result Configuration :=
  let self :=
    if monophyly (settings self) && negb (truthy (starting_tree self))
    then message self "[DEPENDENCY] ConstrainedRandomTree is implemented in the BEAST package BEASTLabs."
    else self in
  let log_every' := derive_log_every (log_every self) (chainlength (settings self)) in
  families' ← process_families (families self);
  let starting_tree' :=
    match fs E (starting_tree self) with
    | Some text => strip text
    | None => starting_tree self
    end in
  classifications' ← glottolog E (glottolog_release (settings self));
  let lang_filter' := compute_lang_filter families' classifications' in
  let model_configs' :=
    if stdin_data (settings self)
    then map (fun config => dict_set config "data" (OStr "stdin")) (model_configs self)
    else model_configs self in
  if bool_decide (model_configs' = []) then Raise (ValueError "No models specified!")
  else
    Ok {| settings := settings self; processed := processed self;
          messages := messages self; message_flags := message_flags self;
          log_every := log_every'; families := FList families';
          starting_tree := starting_tree'; model_configs := model_configs';
          classifications := classifications'; lang_filter := lang_filter';
          models := []; languages := languages self;
          model_objects := model_objects self;
          clock_objects := clock_objects self |}.

(** The loop that instantiates the models. *)
Definition instantiate_models (self : Configuration)
    : result (Configuration * list Model) :=
  for_each instantiate_model (model_configs self) (self, []).

(** [Configuration.process] *)
Definition process (self : Configuration) : result Configuration :=
  self ← prepare self;
  '(self, made) ← instantiate_models self;
  languages' ← finalise_languages (overlap (settings self)) (lang_filter self) made;
  let self :=
    message self ("[INFO] " +:+ str_len (length languages')
                  +:+ " languages included in analysis.") in
  Ok {| settings := settings self; processed := true;
        messages := messages self; message_flags := message_flags self;
        log_every := log_every self; families := families self;
        starting_tree := starting_tree self; model_configs := model_configs self;
        classifications := classifications self; lang_filter := lang_filter self;
        models := models self; languages := languages';
        model_objects := model_objects self;
        clock_objects := clock_objects self |}.
End Process.
End Configuration.

(** ** [beastling/fileio/datareaders.py] *)

Module Datareaders.

(** A row of a [UnicodeDictReader]: field name to value.  (Rows shorter or
    longer than the header, for which the reader fills in [None], are not
    part of the model.) *)
Abbreviation Row := (gmap string string).

Record Reader : Type := {
  fieldnames : list string;
  rows : list Row;
}.

(** [data]: language to feature to value. *)
Abbreviation Data := (gmap string (gmap string string)).

(** [row[key]] *)
Definition row_item (row : Row) (key : string) : result string :=
  match row !! key with Some v => Ok v | None => Raise (KeyError key) end.

Definition _language_column_names : list string :=
  ["iso"; "iso_code"; "glotto"; "glottocode"; "language"; "language_id"; "lang"; "lang_id"].

(** An optional string argument is false when it is [None] or empty. *)
Definition given (o : option string) : bool :=
  match o with Some s => truthy s | None => false end.

(** The first part of [load_beastling_data]: the column that holds the
    language identifiers. *)
Definition language_column (reader : Reader) (lang_column : option string)
    (filename : string) : result string :=
  let lang_column :=
    if negb (given lang_column) then
      match find (fun candidate => bool_decide (lower candidate ∈ _language_column_names))
                 (fieldnames reader) with
      | Some candidate => Some candidate
      | None => lang_column
      end
    else lang_column in
  match lang_column with
  | Some c =>
      if negb (truthy c) || negb (bool_decide (c ∈ fieldnames reader))
      then Raise (ValueError ("Cold not find language column in data file " +:+ filename))
      else Ok c
  | None => Raise (ValueError ("Cold not find language column in data file " +:+ filename))
  end.

(** The body of the loop of [load_beastling_data]. *)
Definition beastling_row (lang_column filename : string) (data : Data) (row : Row)
    : result Data :=
  lang ← row_item row lang_column;
  if bool_decide (is_Some (data !! lang)) then
    Raise (ValueError ("Duplicated language identifier '" +:+ lang
                       +:+ "' found in data file " +:+ filename))
  else Ok (<[lang := row]> data).

Definition load_beastling_data (reader : Reader) (lang_column : option string)
    (filename : string) : result Data :=
  lang_column ← language_column reader lang_column filename;
  for_each (beastling_row lang_column filename) (rows reader) ∅.

(** The body of the loop of [load_cldf_data]. *)
Definition cldf_row (feature_column : string) (data : Data) (row : Row) : result Data :=
  lang ← row_item row "Language_ID";
  let data := if bool_decide (is_Some (data !! lang)) then data else <[lang := ∅]> data in
  value ← row_item row "Value";
  feature ← row_item row feature_column;
  Ok (<[lang := <[feature := value]> (default ∅ (data !! lang))]> data).

Definition load_cldf_data (reader : Reader) : result Data :=
  let feature_column :=
    if bool_decide ("Feature_ID" ∈ fieldnames reader) then "Feature_ID" else "Parameter_ID" in
  for_each (cldf_row feature_column) (rows reader) ∅.

Inductive dialect : Type := excel | excel_tab | sniffed (d : string).

(** What [load_data] gets from outside: the dialect the CSV sniffer finds
    for a file, and the reader over a file (or standard input). *)
Record Env : Type := {
  sniff : string -> result dialect;
  UnicodeDictReader : string -> dialect -> result Reader;
}.

Section Load.
Variable E : Env.

Definition load_data (filename : string) (file_format lang_column : option string)
    : result Data :=
  dialect ←
    (if String.eqb filename "stdin" then Ok excel
     else if given file_format && String.eqb (lower (default "" file_format)) "cldf" then
       if endswith (lower filename) "csv" || String.eqb filename "stdin" then Ok excel
       else if endswith (lower filename) "tsv" then Ok excel_tab
       else Raise (ValueError "CLDF standard dictates that filenames must end in .csv or .tsv")
     else sniff E filename);
  reader ← UnicodeDictReader E filename dialect;
  let file_format :=
    match file_format with
    | None =>
        if forallb (fun f => bool_decide (f ∈ fieldnames reader)) ["Language_ID"; "Value"]
           && existsb (fun f => bool_decide (f ∈ fieldnames reader))
                      ["Feature_ID"; "Parameter_ID"]
        then "cldf" else "beastling"
    | Some f => f
    end in
  if String.eqb file_format "cldf" then load_cldf_data reader
  else if String.eqb file_format "beastling" then
    load_beastling_data reader lang_column filename
  else Raise (ValueError ("File format specification '" +:+ file_format
                          +:+ "' not understood")).
End Load.
End Datareaders.

(** ** [xml.etree.ElementTree] *)

Module ET.

(** An element: tag, attributes, text, children; or a comment. *)
#[warnings="-register-all"]
Inductive Element : Type :=
| Elem (tag : string) (attrib : dict string) (text : option string)
       (children : list Element)
| Comment (text : string).

(** A new element without text and children. *)
Definition Element_ (tag : string) (attrib : dict string) : Element :=
  Elem tag attrib None [].

Definition tag_of (e : Element) : option string :=
  match e with Elem t _ _ _ => Some t | Comment _ => None end.

Definition attrib_of (e : Element) : dict string :=
  match e with Elem _ a _ _ => a | Comment _ => [] end.

Definition children_of (e : Element) : list Element :=
  match e with Elem _ _ _ c => c | Comment _ => [] end.

(** [e.get(key)] *)
Definition get (e : Element) (key : string) : option string :=
  dict_get (attrib_of e) key.

(** [list(e.iter())]: the element and all its descendants, in document order. *)
Fixpoint iter (e : Element) : list Element :=
  match e with
  | Elem _ _ _ c => e :: flat_map iter c
  | Comment _ => [e]
  end.

End ET.
Import ET.

(** ** [beastling/beastxml.py] *)

Module Beastxml.
Import Configuration.

(** The attributes of a [BeastXml] object other than the element tree. *)
Record BeastXml : Type := {
  config : Configuration;
  _covarion_userdatatype_created : bool;
  _taxon_sets : dict (gset string);
}.

(** What the builder gets from outside: the version and the date of the
    provenance comment, the files it embeds, the symbol aliases of
    [beast_maps], and the fragments the model and clock classes add. *)
Record Env : Type := {
  cenv : Configuration.Env;
  __version__ : string;
  now : string;
  read : string -> result string;
  maps : list (string * string);
  add_master_data : Model -> result (list Element);
  add_misc : Model -> result (list Element);
  m_add_state : Model -> result (list Element);
  m_add_prior : Model -> result (list Element);
  m_add_likelihood : Model -> result (list Element);
  m_add_operators : Model -> result (list Element);
  m_add_param_logs : Model -> result (list Element);
  add_branchrate_model : Clock -> result (list Element);
  c_add_state : Clock -> result (list Element);
  c_add_prior : Clock -> result (list Element);
  c_add_operators : Clock -> result (list Element);
  c_add_param_logs : Clock -> result (list Element);
}.

(** Methods of the builder: they read and update the object, can raise,
    and return the nodes they add to their parent. *)
Definition M (A : Type) : Type := BeastXml -> result (A * BeastXml).

#[global] Instance M_ret : MRet M := fun _ a s => Ok (a, s).
#[global] Instance M_bind : MBind M := fun _ _ f m s =>
  match m s with
  | Ok (a, s') => f a s'
  | Raise e => Raise e
  end.

(** [self.config.<attribute>] *)
Definition cfg {A} (f : Configuration -> A) : M A := fun s => Ok (f (config s), s).
Definition opt {A} (f : Settings -> A) : M A := cfg (fun c => f (settings c)).

(** A computation that can raise and does not touch the object. *)
Definition lift {A} (r : result A) : M A :=
  fun s => match r with Ok a => Ok (a, s) | Raise e => Raise e end.

(** A method that returns without adding a node. *)
Definition nothing : M (list Element) := mret [].

(** [for x in xs: body], collecting the nodes each round adds. *)
Fixpoint for_nodes {A} (body : A -> M (list Element)) (xs : list A) : M (list Element) :=
  match xs with
  | [] => mret []
  | x :: rest =>
      nodes ← body x;
      more ← for_nodes body rest;
      mret (nodes ++ more)
  end.

(** The objects a list of references denotes (a reference always denotes
    an object of the store; one that does not is passed over). *)
Definition the_models (c : Configuration) (refs : list oid) : list Model :=
  omap (fun o => model_objects c !! o) refs.
Definition the_clocks (c : Configuration) (refs : list oid) : list Clock :=
  omap (fun o => clock_objects c !! o) refs.

(** [self.config.models], [self.config.all_models], [self.config.clocks] *)
Definition config_models : M (list Model) := cfg (fun c => the_models c (models c)).
Definition config_all_models : M (list Model) :=
  cfg (fun c => the_models c (all_models (settings c))).
Definition config_clocks : M (list (oid * Clock)) :=
  cfg (fun c => omap (fun o => pair o <$> clock_objects c !! o) (clocks (settings c))).

Section Builder.
Variable E : Env.

(** [add_beastling_comment] *)
Definition add_beastling_comment : M (list Element) :=
  configfile ← opt configfile;
  let comment_lines :=
    ["Generated by BEASTling " +:+ __version__ E +:+ " on " +:+ now E +:+ "."] in
  let comment_lines :=
    match configfile with
    | Some text => comment_lines ++ ["Original config file:"; text]
    | None => comment_lines ++ ["Configuration built programmatically.";
                                "No config file to include."]
    end in
  mret [Comment (join (String "010" "") comment_lines)].

(** [format_data_file] *)
Definition format_data_file (filename : string) : M (list Element) :=
  let header := "BEASTling embedded data file: " +:+ filename in
  text ← lift (read E filename);
  mret [Comment (join (String "010" "") [header; text])].

(** [embed_data] *)
Definition embed_data_ : M (list Element) :=
  embed ← opt embed_data;
  if negb (embed : bool) then nothing
  else
    files ← opt files_to_embed;
    a ← for_nodes format_data_file files;
    ms ← config_models;
    b ← for_nodes (fun model => format_data_file (data_filename model)) ms;
    mret (a ++ b).

(** [add_maps] *)
Definition add_maps : M (list Element) :=
  mret (map (fun ab => Elem "map" [("name", fst ab)] (Some (snd ab)) []) (maps E)).

(** [add_taxon_set]: the reference to a registered set with the same
    languages, or a new definition that is then registered. *)
Fixpoint find_taxon_set (langs : gset string) (taxon_sets : dict (gset string))
    : option string :=
  match taxon_sets with
  | [] => None
  | (idref, taxa) :: rest =>
      if decide (langs = taxa) then Some idref else find_taxon_set langs rest
  end.

Definition add_taxon_set (label : string) (langs : list string) (define_taxa : bool)
    : M (list Element) := fun self =>
  match find_taxon_set (list_to_set langs) (_taxon_sets self) with
  | Some idref =>
      Ok ([Element_ "taxonset" [("idref", idref); ("spec", "TaxonSet")]], self)
  | None =>
      let taxon :=
        Element_ "taxon" [(if define_taxa then "id" else "idref", "$(language)")] in
      let plate :=
        Elem "plate" [("var", "language"); ("range", join "," langs)] None [taxon] in
      let taxonset :=
        Elem "taxonset" [("id", label); ("spec", "TaxonSet")] None [plate] in
      Ok ([taxonset],
          {| config := config self;
             _covarion_userdatatype_created := _covarion_userdatatype_created self;
             _taxon_sets := dict_set (_taxon_sets self) label (list_to_set langs) |})
  end.

(** [add_tree_state] *)
Definition add_tree_state : M (list Element) :=
  languages ← cfg languages;
  taxa ← add_taxon_set "taxa" languages true;
  let tree := Elem "tree" [("id", "Tree.t:beastlingTree"); ("name", "stateNode")] None taxa in
  let param := Elem "parameter" [("id", "birthRate.t:beastlingTree"); ("name", "stateNode")]
                    (Some "1.0") [] in
  mret [tree; param].

(** [add_state] *)
Definition add_state : M (list Element) :=
  tree ← add_tree_state;
  cs ← config_clocks;
  a ← for_nodes (fun clock => lift (c_add_state E (snd clock))) cs;
  ms ← config_all_models;
  b ← for_nodes (fun model => lift (m_add_state E model)) ms;
  mret [Elem "state" [("id", "state"); ("storeEvery", "5000")] None (tree ++ a ++ b)].

Definition popmod : Element :=
  Elem "populationModel" [("spec", "ConstantPopulation")] None
    [Element_ "popSize" [("spec", "parameter.RealParameter"); ("value", "1")]].

(** [add_randomtree_init] *)
Definition add_randomtree_init : M (list Element) :=
  mret [Elem "init" [("estimate", "false"); ("id", "startingTree");
                     ("initial", "@Tree.t:beastlingTree"); ("taxonset", "@taxa");
                     ("spec", "beast.evolution.tree.RandomTree")] None [popmod]].

(** [add_simplerandomtree_init] *)
Definition add_simplerandomtree_init : M (list Element) :=
  mret [Element_ "init" [("estimate", "false"); ("id", "startingTree");
                         ("initial", "@Tree.t:beastlingTree"); ("taxonset", "@taxa");
                         ("spec", "beast.evolution.tree.SimpleRandomTree")]].

(** [add_constrainedrandomtree_init] *)
Definition add_constrainedrandomtree_init : M (list Element) :=
  mret [Elem "init" [("estimate", "false"); ("id", "startingTree");
                     ("initial", "@Tree.t:beastlingTree"); ("taxonset", "@taxa");
                     ("spec", "beast.evolution.tree.ConstrainedRandomTree");
                     ("constraints", "@constraints")] None [popmod]].

(** [add_init] *)
Definition add_init : M (list Element) :=
  starting_tree ← cfg starting_tree;
  if truthy starting_tree then
    mret [Element_ "init" [("estimate", "false"); ("id", "startingTree");
                           ("initial", "@Tree.t:beastlingTree");
                           ("spec", "beast.util.TreeParser");
                           ("IsLabelledNewick", "true"); ("newick", starting_tree)]]
  else
    monophyly ← opt monophyly;
    languages ← cfg languages;
    calibrations ← opt calibrations;
    if monophyly && (2 <? length languages)%nat then
      add_constrainedrandomtree_init
    else if any (map (fun c => String.eqb (dist c) "uniform") (values calibrations)) then
      add_simplerandomtree_init
    else
      add_randomtree_init.

(** [add_monophyly_constraints] *)
Definition add_monophyly_constraints : M (list Element) :=
  monophyly ← opt monophyly;
  if (monophyly : bool) then
    newick ← opt monophyly_newick;
    mret [Element_ "distribution"
            [("id", "constraints");
             ("spec", "beast.math.distributions.MultiMonophyleticConstraint");
             ("tree", "@Tree.t:beastlingTree");
             ("newick", newick)]]
  else nothing.

Definition p1_names : dict string :=
  [("Normal", "mean"); ("LogNormal", "M"); ("Uniform", "lower")].
Definition p2_names : dict string :=
  [("Normal", "sigma"); ("LogNormal", "S"); ("Uniform", "upper")].
Definition dist_types : dict string :=
  [("normal", "Normal"); ("lognormal", "LogNormal"); ("uniform", "Uniform")].

(** The "distr" node of a calibration. *)
Definition calibration_distr (clade : string) (cal : Calibration) : result Element :=
  dist_type ← dict_item dist_types (dist cal);
  let attribs := [("id", "CalibrationDistribution." +:+ clade); ("name", "distr");
                  ("offset", "0.0")] in
  let attribs :=
    if String.eqb dist_type "Uniform" then
      attribs ++ [("lower", str_float (param1 cal)); ("upper", str_float (param2 cal))]
    else attribs in
  if negb (String.eqb dist_type "Uniform") then
    n1 ← dict_item p1_names dist_type;
    n2 ← dict_item p2_names dist_type;
    Ok (Elem dist_type attribs None
          [Elem "parameter" [("id", "CalibrationDistribution." +:+ clade +:+ ".param1");
                             ("name", n1); ("estimate", "false")]
                (Some (str_float (param1 cal))) [];
           Elem "parameter" [("id", "CalibrationDistribution." +:+ clade +:+ ".param2");
                             ("name", n2); ("estimate", "false")]
                (Some (str_float (param2 cal))) []])
  else Ok (Elem dist_type attribs None []).

(** The body of the loop of [add_calibrations]: one MRCAPrior node. *)
Definition add_calibration (item : string * Calibration) : M (list Element) :=
  let '(clade, cal) := item in
  let attribs := [("id", clade +:+ "MRCA"); ("monophyletic", "true");
                  ("spec", "beast.math.distributions.MRCAPrior");
                  ("tree", "@Tree.t:beastlingTree")] in
  let attribs := if originate cal then attribs ++ [("useOriginate", "true")] else attribs in
  let taxonsetname :=
    if endswith clade "_originate" then drop_last (String.length "_originate") clade
    else clade in
  taxonset ← add_taxon_set taxonsetname (langs cal) false;
  distr ← lift (calibration_distr clade cal);
  mret [Elem "distribution" attribs None (taxonset ++ [distr])].

(** [add_calibrations] *)
Definition add_calibrations : M (list Element) :=
  calibrations ← opt calibrations;
  for_nodes add_calibration (sorted_items calibrations).

(** [add_tree_prior] *)
Definition add_tree_prior : M (list Element) :=
  mret [Element_ "distribution"
          [("birthDiffRate", "@birthRate.t:beastlingTree");
           ("id", "YuleModel.t:beastlingTree");
           ("spec", "beast.evolution.speciation.YuleModel");
           ("tree", "@Tree.t:beastlingTree")];
        Elem "prior"
          [("id", "YuleBirthRatePrior.t:beastlingTree");
           ("name", "distribution");
           ("x", "@birthRate.t:beastlingTree")] None
          [Element_ "Uniform" [("id", "Uniform.0"); ("name", "distr");
                               ("upper", "Infinity")]]].

(** [add_prior] *)
Definition add_prior : M (list Element) :=
  mono ← add_monophyly_constraints;
  cals ← add_calibrations;
  tree ← add_tree_prior;
  cs ← config_clocks;
  a ← for_nodes (fun clock => lift (c_add_prior E (snd clock))) cs;
  ms ← config_all_models;
  b ← for_nodes (fun model => lift (m_add_prior E model)) ms;
  mret [Elem "distribution" [("id", "prior"); ("spec", "util.CompoundDistribution")] None
          (mono ++ cals ++ tree ++ a ++ b)].

(** [add_likelihood] *)
Definition add_likelihood : M (list Element) :=
  ms ← config_all_models;
  a ← for_nodes (fun model => lift (m_add_likelihood E model)) ms;
  mret [Elem "distribution" [("id", "likelihood"); ("spec", "util.CompoundDistribution")]
          None a].

(** [add_distributions] *)
Definition add_distributions : M (list Element) :=
  prior ← add_prior;
  likelihood ← add_likelihood;
  mret [Elem "distribution" [("id", "posterior"); ("spec", "util.CompoundDistribution")]
          None (prior ++ likelihood)].

(** [add_tree_operators] *)
Definition add_tree_operators : M (list Element) :=
  sample_topology ← opt sample_topology;
  sample_branch_lengths ← opt sample_branch_lengths;
  calibrations ← opt calibrations;
  cs ← config_clocks;
  let topology :=
    if (sample_topology : bool) then
      [Element_ "operator" [("id", "SubtreeSlide.t:beastlingTree"); ("spec", "SubtreeSlide");
                            ("tree", "@Tree.t:beastlingTree"); ("markclades", "true");
                            ("weight", "15.0")];
       Element_ "operator" [("id", "narrow.t:beastlingTree"); ("spec", "Exchange");
                            ("tree", "@Tree.t:beastlingTree"); ("markclades", "true");
                            ("weight", "15.0")];
       Element_ "operator" [("id", "wide.t:beastlingTree"); ("isNarrow", "false");
                            ("spec", "Exchange"); ("tree", "@Tree.t:beastlingTree");
                            ("markclades", "true"); ("weight", "3.0")];
       Element_ "operator" [("id", "WilsonBalding.t:beastlingTree"); ("spec", "WilsonBalding");
                            ("tree", "@Tree.t:beastlingTree"); ("markclades", "true");
                            ("weight", "3.0")]]
    else [] in
  let branch_lengths :=
    if (sample_branch_lengths : bool) then
      [Element_ "operator" [("id", "UniformOperator.t:beastlingTree"); ("spec", "Uniform");
                            ("tree", "@Tree.t:beastlingTree"); ("weight", "30.0")];
       Element_ "operator" [("id", "treeScaler.t:beastlingTree"); ("scaleFactor", "0.5");
                            ("spec", "ScaleOperator"); ("tree", "@Tree.t:beastlingTree");
                            ("weight", "3.0")];
       Element_ "operator" [("id", "treeRootScaler.t:beastlingTree"); ("scaleFactor", "0.5");
                            ("spec", "ScaleOperator"); ("tree", "@Tree.t:beastlingTree");
                            ("rootOnly", "true"); ("weight", "3.0")];
       Elem "operator" [("id", "UpDown"); ("spec", "UpDownOperator"); ("scaleFactor", "0.5");
                        ("weight", "3.0")] None
         ([Element_ "tree" [("idref", "Tree.t:beastlingTree"); ("name", "up")];
           Element_ "parameter" [("idref", "birthRate.t:beastlingTree"); ("name", "down")]]
          ++ (if bool_decide ((calibrations : dict Calibration) ≠ []) then
                map (fun clock : oid * Clock =>
                       Element_ "parameter" [("idref", mean_rate_id (snd clock));
                                             ("name", "down")]) cs
              else []))]
    else [] in
  mret (topology ++ branch_lengths
        ++ [Element_ "operator" [("id", "YuleBirthRateScaler.t:beastlingTree");
                                 ("spec", "ScaleOperator");
                                 ("parameter", "@birthRate.t:beastlingTree");
                                 ("scaleFactor", "0.5"); ("weight", "3.0")]]).

(** The rate-exchange operator [add_operators] adds for one clock. *)
Definition delta_exchange (ms : list Model) (clock : oid * Clock) : M (list Element) :=
  let clock_models :=
    filter (fun m => rate_variation m && Nat.eqb (m_clock m) (fst clock) = true) ms in
  if bool_decide (clock_models = []) then nothing
  else
    let plates :=
      map (fun model =>
             Elem "plate" [("var", "feature"); ("range", join "," (features model))] None
               [Element_ "parameter"
                  [("idref", "featureClockRate:" +:+ m_name model +:+ ":$(feature)")]])
          clock_models in
    weightvector ←
      (if any (map (fun w => negb (w =? 1)) (flat_map (fun m => values (weights m)) clock_models))
       then
         texts ← lift (for_each
                   (fun acc m =>
                      ws ← for_each (fun acc f => w ← dict_item (weights m) f;
                                                  Ok (acc ++ [str_int w]))
                                    (features m) [];
                      Ok (acc ++ ws))
                   clock_models []);
         mret [Elem "weightvector"
                 [("id", "featureClockRateWeightParameter:" +:+ c_name (snd clock));
                  ("spec", "parameter.IntegerParameter");
                  ("dimension",
                   str_len (foldr Nat.add 0%nat (map (fun m => length (weights m)) clock_models)));
                  ("estimate", "false")]
                 (Some (join " " texts)) []]
       else nothing);
    mret [Elem "operator"
            [("id", "featureClockRateDeltaExchanger:" +:+ c_name (snd clock));
             ("spec", "DeltaExchangeOperator"); ("weight", "3.0")] None
            (plates ++ weightvector)].

(** [add_operators] *)
Definition add_operators : M (list Element) :=
  tree ← add_tree_operators;
  cs ← config_clocks;
  a ← for_nodes (fun clock => lift (c_add_operators E (snd clock))) cs;
  all ← config_all_models;
  b ← for_nodes (fun model => lift (m_add_operators E model)) all;
  ms ← config_models;
  deltas ← for_nodes (delta_exchange ms) cs;
  mret (tree ++ a ++ b ++ deltas).

(** [add_screen_logger] *)
Definition add_screen_logger : M (list Element) :=
  screenlog ← opt screenlog;
  log_every ← cfg log_every;
  if negb (screenlog : bool) then nothing
  else
    mret [Elem "logger" [("id", "screenlog"); ("logEvery", str_int log_every)] None
            [Element_ "log" [("arg", "@posterior"); ("id", "ESS.0"); ("spec", "util.ESS")];
             Element_ "log" [("idref", "prior")];
             Element_ "log" [("idref", "likelihood")];
             Element_ "log" [("idref", "posterior")]]].

(** [add_tracer_logger] *)
Definition add_tracer_logger : M (list Element) :=
  o ← cfg settings;
  log_every ← cfg log_every;
  if negb (log_probabilities o || log_params o || log_all o) then nothing
  else
    let probs :=
      if log_probabilities o || log_all o then
        [Element_ "log" [("idref", "prior")];
         Element_ "log" [("idref", "likelihood")];
         Element_ "log" [("idref", "posterior")]]
      else [] in
    params ←
      (if log_params o || log_all o then
         cs ← config_clocks;
         a ← for_nodes (fun clock => lift (c_add_param_logs E (snd clock))) cs;
         ms ← config_all_models;
         b ← for_nodes (fun model => lift (m_add_param_logs E model)) ms;
         mret (Element_ "log" [("idref", "birthRate.t:beastlingTree")] :: a ++ b)
       else nothing);
    let height :=
      if negb (tree_logging_pointless o) then
        [Element_ "log" [("id", "treeHeight");
                         ("spec", "beast.evolution.tree.TreeHeightLogger");
                         ("tree", "@Tree.t:beastlingTree")]]
      else [] in
    let clades :=
      map (fun clade => Element_ "log" [("idref", clade +:+ "MRCA")])
          (sorted (keys (calibrations o))) in
    let fine :=
      if log_fine_probs o then
        [Element_ "log" [("idref", "YuleModel.t:beastlingTree")];
         Element_ "log" [("idref", "YuleBirthRatePrior.t:beastlingTree")]]
      else [] in
    mret [Elem "logger" [("id", "tracelog"); ("fileName", basename o +:+ ".log");
                         ("logEvery", str_int log_every); ("sort", "smart")] None
            (probs ++ params ++ height ++ clades ++ fine)].

(** [add_tree_logger] *)
Definition add_tree_logger (suffix : string) (branchrate_model_id : option string)
    (locations : bool) : M (list Element) :=
  basename ← opt basename;
  log_every ← cfg log_every;
  let rates :=
    match branchrate_model_id with
    | Some i => if truthy i then [Element_ "branchratemodel" [("idref", i)]] else []
    | None => []
    end in
  let location :=
    if locations then
      [Elem "metadata" [("id", "location"); ("spec", "sphericalGeo.TraitFunction");
                        ("likelihood", "@sphericalGeographyLikelihood")] (Some "0.0") []]
    else [] in
  mret [Elem "logger" [("mode", "tree"); ("fileName", basename +:+ suffix +:+ ".nex");
                       ("logEvery", str_int log_every); ("id", "treeLogger" +:+ suffix)] None
          [Elem "log" [("id", "TreeLoggerWithMetaData" +:+ suffix);
                       ("spec", "beast.evolution.tree.TreeWithMetaDataLogger");
                       ("tree", "@Tree.t:beastlingTree")] None
             (rates ++ location)]].

(** The clock object of a model. *)
Definition clock_of (c : Configuration) (m : Model) : option Clock :=
  clock_objects c !! m_clock m.

(** [set([m.clock for m in self.config.models if not m.clock.is_strict])],
    each clock at its first occurrence. *)
Definition non_strict_clocks (c : Configuration) : list Clock :=
  the_clocks c
    (remove_dups
       (omap (fun m => match clock_of c m with
                       | Some clock => if negb (is_strict clock) then Some (m_clock m) else None
                       | None => None
                       end)
             (the_models c (models c)))).

(** [self.config.geo_model.clock] *)
Definition geo_clock (c : Configuration) : option Clock :=
  match geo_model (settings c) with
  | Some g =>
      match model_objects c !! g with
      | Some m => clock_of c m
      | None => None
      end
  | None => None
  end.

(** [add_tree_loggers] *)
Definition add_tree_loggers : M (list Element) :=
  c ← cfg id;
  let o := settings c in
  if negb ((log_trees o || log_all o) && negb (tree_logging_pointless o)) then nothing
  else
    let clocks := non_strict_clocks c in
    '(rates, pure_tree_done) ←
      (if bool_decide (clocks = []) then
         a ← add_tree_logger "" None false;
         mret (a, true)
       else
         a ← for_nodes
               (fun clock =>
                  if bool_decide (length clocks = 1%nat) then
                    add_tree_logger "" (Some (branchrate_model_id clock)) false
                  else
                    add_tree_logger ("_" +:+ c_name clock +:+ "_rates")
                                    (Some (branchrate_model_id clock)) false)
               clocks;
         mret (a, false));
    pure ←
      (if log_pure_tree o && negb pure_tree_done then add_tree_logger "_pure" None false
       else nothing);
    geo ←
      match geo_config o, geo_clock c with
      | Some log_locations, Some clock =>
          if log_locations || negb (is_strict clock) then
            add_tree_logger "_geography" (Some (branchrate_model_id clock)) true
          else nothing
      | _, _ => nothing
      end;
    mret (rates ++ pure ++ geo).

(** [add_loggers] *)
Definition add_loggers : M (list Element) :=
  screen ← add_screen_logger;
  tracer ← add_tracer_logger;
  trees ← add_tree_loggers;
  mret (screen ++ tracer ++ trees).

(** [add_run] *)
Definition add_run : M (list Element) :=
  chainlength ← opt chainlength;
  sample_from_prior ← opt sample_from_prior;
  let attribs := [("id", "mcmc"); ("spec", "MCMC"); ("chainLength", str_int chainlength)] in
  let attribs :=
    if (sample_from_prior : bool) then attribs ++ [("sampleFromPrior", "true")]
    else attribs in
  state ← add_state;
  init ← add_init;
  distributions ← add_distributions;
  operators ← add_operators;
  loggers ← add_loggers;
  mret [Elem "run" attribs None (state ++ init ++ distributions ++ operators ++ loggers)].

(** [build_xml]: the [beast] element. *)
Definition build_xml : M Element :=
  let attribs :=
    [("beautitemplate", "Standard"); ("beautistatus", "");
     ("namespace", "beast.core:beast.evolution.alignment:beast.evolution.tree.coalescent:beast.core.util:beast.evolution.nuc:beast.evolution.operators:beast.evolution.sitemodel:beast.evolution.substitutionmodel:beast.evolution.likelihood");
     ("version", "2.0")] in
  comment ← add_beastling_comment;
  embedded ← embed_data_;
  aliases ← add_maps;
  ms ← config_models;
  a ← for_nodes (fun model => x ← lift (add_master_data E model);
                              y ← lift (add_misc E model);
                              mret (x ++ y)) ms;
  cs ← config_clocks;
  b ← for_nodes (fun clock => lift (add_branchrate_model E (snd clock))) cs;
  run ← add_run;
  mret (Elem "beast" attribs None (comment ++ embedded ++ aliases ++ a ++ b ++ run)).

(** [model.beastxml = self] and [clock.beastxml = self] *)
Definition set_m_beastxml (self_ : oid) (m : Model) : Model :=
  {| m_name := m_name m; data := data m; m_messages := m_messages m;
     rate_variation := rate_variation m; m_clock := m_clock m; features := features m;
     weights := weights m; data_filename := data_filename m;
     m_beastxml := Some self_ |}.
Definition set_c_beastxml (self_ : oid) (c : Clock) : Clock :=
  {| c_name := c_name c; is_strict := is_strict c;
     branchrate_model_id := branchrate_model_id c; mean_rate_id := mean_rate_id c;
     c_beastxml := Some self_ |}.

(** "Tell everybody about ourselves" *)
Definition tell_everybody (self_ : oid) (c : Configuration) : Configuration :=
  {| settings := settings c; processed := processed c; messages := messages c;
     message_flags := message_flags c; log_every := log_every c;
     families := families c; starting_tree := starting_tree c;
     model_configs := model_configs c; classifications := classifications c;
     lang_filter := lang_filter c; models := models c; languages := languages c;
     model_objects :=
       foldl (fun objs o => alter (set_m_beastxml self_) o objs) (model_objects c)
             (all_models (settings c));
     clock_objects :=
       foldl (fun objs o => alter (set_c_beastxml self_) o objs) (clock_objects c)
             (clocks (settings c)) |}.

(** [BeastXml.__init__], for the builder object [self_]: the object and
    its [beast] element. *)
Definition __init__ (self_ : oid) (config : Configuration) : result (BeastXml * Element) :=
  config ← (if negb (processed config) then process (cenv E) config else Ok config);
  let config := tell_everybody self_ config in
  let self := {| config := config; _covarion_userdatatype_created := false;
                 _taxon_sets := [] |} in
  '(beast, self) ← build_xml self;
  Ok (self, beast).
End Builder.
End Beastxml.

(** ** [beastling/cli.py] *)

Module Cli.

(** The parsed command line ([args] of [main] after [parse_args]). *)
Record Args : Type := {
  config : list string;
  extract : bool;
  report : bool;
  language_list : bool;
  output : option string;
  overwrite : bool;
  stdin : bool;
  prior : bool;
  verbose : bool;
}.

(** What the entry point calls: the file system, the configuration class,
    the document builder, the extractor and the report writers.  [C] is
    the type of configuration objects, [X] that of built documents. *)
Record Env (C X : Type) : Type := {
  exists_ : string -> bool;
  Configuration : list string -> bool -> bool -> bool -> result C;
  admin_path : C -> string -> string;
  process : C -> result C;
  BeastXml : C -> result X;
  write_file : X -> string -> result ();
  write_reports : C -> string -> result ();
  write_language_list : C -> result ();
  extractor_extract : string -> bool -> result (list string);
}.
Arguments exists_ {C X} _ _.
Arguments Configuration {C X} _ _ _ _ _.
Arguments admin_path {C X} _ _ _.
Arguments process {C X} _ _.
Arguments BeastXml {C X} _ _.
Arguments write_file {C X} _ _ _.
Arguments write_reports {C X} _ _ _.
Arguments write_language_list {C X} _ _.
Arguments extractor_extract {C X} _ _ _.

(** [exit]: the message goes to standard error, then [sys.exit(status)]. *)
Definition exit {A} (msg : option string) (status : Z) : result A :=
  Raise (SystemExit status).

(** [wrap_errors = Exception] *)
Definition wrap_errors : exn -> bool := is_Exception.

(** [try: body / except wrap_errors: handler] *)
Definition try_except {A} (body : result A) (handler : result A) : result A :=
  match body with
  | Ok a => Ok a
  | Raise e => if wrap_errors e then handler else Raise e
  end.

Section Main.
Context {C X : Type}.
Variable E : Env C X.

(** [do_extract] *)
Definition do_extract (args : Args) : result () :=
  if negb (length (config args) =? 1)%nat then
    exit (Some "Can only extract from exactly one BEAST XML file") 1
  else
    match config args with
    | [] => Raise (IndexError "list index out of range")
    | xml :: _ =>
        if negb (exists_ E xml) then
          exit (Some ("No such BEAST XML file: [PosixPath('" +:+ xml +:+ "')]")) 2
        else
          try_except
            (_ ← extractor_extract E xml (overwrite args); Ok ())
            (exit (Some "Error encountered while extracting BEASTling config and/or data files:") 3)
    end.

(** The name of the file the document is written to. *)
Definition output_filename (args : Args) (config : C) : string :=
  match output args with
  | Some o => if truthy o then o else admin_path E config ".xml"
  | None => admin_path E config ".xml"
  end.

(** [do_generate] *)
Definition do_generate (args : Args) : result () :=
  _ ← for_each (fun _ conf =>
                  if negb (exists_ E conf) then
                    exit (Some ("No such configuration file: " +:+ conf)) 1
                  else Ok ())
               (config args) ();
  config ← try_except
             (Configuration E (config args) (stdin args) (prior args) (report args))
             (exit (Some "Error encountered while parsing configuration file:") 2);
  let output_filename := output_filename args config in
  if exists_ E output_filename && negb (overwrite args) then
    exit (Some ("File " +:+ output_filename +:+ " already exists! Run beastling with the "
                +:+ "--overwrite option if you wish to overwrite it.")) 4
  else
    config ← try_except (process E config)
               (exit (Some "Error encountered while parsing configuration file:") 2);
    xml ← try_except (BeastXml E config)
            (exit (Some "Error encountered while building BeastXML object:") 3);
    _ ← write_file E xml output_filename;
    _ ← (if report args then write_reports E config output_filename else Ok ());
    if language_list args then write_language_list E config else Ok ().

(** [main], from the parsed arguments on. *)
Definition main (args : Args) : result () :=
  _ ← (if extract args then do_extract args else do_generate args);
  exit None 0.

(** The status the process ends with: that of [sys.exit], or 1 when an
    exception reaches the interpreter. *)
Definition exit_status (r : result ()) : Z :=
  match r with
  | Raise (SystemExit status) => status
  | Raise _ => 1
  | Ok _ => 0
  end.
End Main.
End Cli.

(** ** [get_glottolog_newick] of [beastling/configuration.py] *)

Module Glottolog.

(** The file system and the network as [get_glottolog_newick] sees them:
    the content of the files, the directories, and the URLs that were
    retrieved so far.  A path is the string it is written as: the files
    and directories have one path each (no links, and no doubled slashes
    or dots in the paths the function asks about). *)
Record World : Type := {
  files : gmap string string;
  dirs : gset string;
  requests : list string;
}.

(** What the function gets from outside: the directory of the module
    ([os.path.dirname(__file__)]), the data directory of the user
    ([user_data_dir('beastling')]), what a URL serves (or the error the
    opener raises), and [newick.read] on the content of a file. *)
Record Env (T : Type) : Type := {
  module_dir : string;
  user_data_dir : string;
  download : string -> result string;
  newick_read : string -> result T;
}.
Arguments module_dir {T} _.
Arguments user_data_dir {T} _.
Arguments download {T} _ _.
Arguments newick_read {T} _ _.

(** [os.path.join(a, b)] (POSIX) *)
Definition path_join (a b : string) : string :=
  if String.prefix "/" b then b
  else if String.eqb a "" || endswith a "/" then a +:+ b
  else a +:+ "/" +:+ b.

(** [os.path.exists(path)] *)
Definition exists_ (w : World) (path : string) : bool :=
  bool_decide (is_Some (files w !! path)) || bool_decide (path ∈ dirs w).

(** [posixpath.split(p)] before the slashes at the end of the head are
    removed: the part up to and with the last slash, and the part after it. *)
Fixpoint cut_at_last_slash (p : string) : string * string :=
  match p with
  | EmptyString => ("", "")
  | String c r =>
      let '(head, tail) := cut_at_last_slash r in
      if truthy head then (String c head, tail)
      else if Ascii.eqb c "/" then ("/", r)
      else ("", String c r)
  end.

(** [s.rstrip('/')] *)
Fixpoint rstrip_slashes (s : string) : string :=
  match s with
  | EmptyString => ""
  | String c r =>
      let r' := rstrip_slashes r in
      if negb (truthy r') && Ascii.eqb c "/" then "" else String c r'
  end.

(** [posixpath.split(p)]: the slashes at the end of the head are removed
    unless the head consists of slashes only. *)
Definition split_path (p : string) : string * string :=
  let '(head, tail) := cut_at_last_slash p in
  (if truthy (rstrip_slashes head) then rstrip_slashes head else head, tail).

(** [os.mkdir(path)], for a directory that can be created. *)
Definition mkdir (path : string) (w : World) : World :=
  {| files := files w; dirs := {[ path ]} ∪ dirs w; requests := requests w |}.

(** [os.makedirs(name)], for directories that can be created: the
    directories above [name] that do not exist are made first.  The
    recursion is on a path that gets shorter; [fuel] bounds its depth.
    (Where [os.makedirs] returns without [mkdir], because the last part
    of [name] is the current directory, [name] exists as well.) *)
Fixpoint makedirs_go (fuel : nat) (name : string) (w : World) : World :=
  match fuel with
  | O => w
  | S fuel =>
      let '(head, tail) := split_path name in
      let '(head, tail) := if truthy tail then (head, tail) else split_path head in
      let w :=
        if truthy head && truthy tail && negb (exists_ w head)
        then makedirs_go fuel head w else w in
      mkdir name w
  end.

Definition makedirs (name : string) (w : World) : World :=
  makedirs_go (S (String.length name)) name w.

Section Newick.
Context {T : Type}.
Variable E : Env T.

(** [URLopener().retrieve(url, path)]: the request is made; what the URL
    serves is written to [path]. *)
Definition retrieve (url path : string) (w : World) : result () * World :=
  let w := {| files := files w; dirs := dirs w; requests := requests w ++ [url] |} in
  match download E url with
  | Ok content =>
      (Ok (), {| files := <[path := content]> (files w); dirs := dirs w;
                 requests := requests w |})
  | Raise e => (Raise e, w)
  end.

(** [newick.read(path)] *)
Definition read (w : World) (path : string) : result T :=
  match files w !! path with
  | Some content => newick_read E content
  | None => Raise (IOError path)
  end.

Definition fname (release : string) : string := "glottolog-" +:+ release +:+ ".newick".

(** The file that comes with the package, and the file in the data
    directory of the user. *)
Definition packaged (release : string) : string :=
  path_join (path_join (module_dir E) "data") (fname release).
Definition cached (release : string) : string :=
  path_join (user_data_dir E) (fname release).

Definition url (release : string) : string :=
  "http://glottolog.org/static/download/" +:+ release +:+ "/tree-glottolog-newick.txt".

(** [get_glottolog_newick] *)
Definition get_glottolog_newick (release : string) (w : World) : result T * World :=
  let path := packaged release in
  if negb (exists_ w path) then
    let data_dir := user_data_dir E in
    let w := if negb (exists_ w data_dir) then makedirs data_dir w else w in
    let path := path_join data_dir (fname release) in
    if negb (exists_ w path) then
      match retrieve (url release) path w with
      | (Ok _, w) => (read w path, w)
      | (Raise (IOError _), w) | (Raise (ValueError _), w) =>
          (Raise (ValueError ("Could not retrieve classification for Glottolog " +:+ release)),
           w)
      | (Raise e, w) => (Raise e, w)
      end
    else (read w path, w)
  else (read w path, w).
End Newick.
End Glottolog.

(** ** [beastling/sections.py]

    The strings of this module are Python 3 [str]s; a character here is a
    code point below 256.  [handle_file_or_list] is followed with the
    white space such a [str] strips ([str_strip]), with the path that
    [pathlib.Path] makes of a string ([Path]) and with the error that
    [Path.exists()] can raise.  [get_list_of_files] and [get_tree] are
    followed on values whose white space is ASCII ([strip] of [Py]) and
    whose path can be examined; there the functions of [Env] are asked
    about the string a path is made from. *)

Module Sections.

Definition _BEAST_MAX_LENGTH : Z := 2147483647.

(** What the getters of the options see of the file system: whether a
    path exists, the [OSError] that looking for it raises if it cannot be
    examined (a name that is too long, say; [OSError] is [IOError] in
    Python 3), whether it is a regular file, and the text of a file as a
    file opened for reading text gives it, or the error of opening and
    reading it. *)
Record Env : Type := {
  exists_ : string -> bool;
  exists_error : string -> option exn;
  is_file : string -> bool;
  read_text : string -> result string;
}.

(** The value of an option: a string, or a list already. *)
Inductive value : Type :=
| VStr (s : string)
| VList (l : list string).

(** What [handle_file_or_list] returns: [ConfigValue(value, fname)] for a
    list read from the file [fname], or a plain list. *)
Inductive file_or_list : Type :=
| ConfigValue (items : list string) (fname : string)
| Items (items : list string).

Definition items_of (r : file_or_list) : list string :=
  match r with ConfigValue l _ => l | Items l => l end.

(** [_to_cfg] *)
Definition _to_cfg (v : value) : string :=
  match v with
  | VList l => join (String "010" "") l
  | VStr s => s
  end.



(** The white space of a Python 3 [str] among the code points below 256:
    the ASCII white space, the separators 28 to 31, NEL and the
    no-break space. *)
Definition str_is_whitespace (c : ascii) : bool :=
  let n := N_of_ascii c in
  ((n =? 32) || ((9 <=? n) && (n <=? 13)) || ((28 <=? n) && (n <=? 31))
   || (n =? 133) || (n =? 160))%N.

Fixpoint str_lstrip (s : string) : string :=
  match s with
  | EmptyString => EmptyString
  | String c r => if str_is_whitespace c then str_lstrip r else s
  end.

(** [s.strip()] on a Python 3 [str] *)
Definition str_strip (s : string) : string :=
  String.rev (str_lstrip (String.rev (str_lstrip s))).

(** [str(pathlib.Path(s))] (POSIX): the parts between the slashes without
    the empty ones and the ones that are a single dot, after the root --
    one slash, or two if [s] begins with exactly two; the path of the
    empty string is the current directory. *)
Definition Path (s : string) : string :=
  let parts :=
    filter (fun x => truthy x && negb (String.eqb x ".") = true) (split "/" s) in
  let root :=
    if String.prefix "///" s then "/"
    else if String.prefix "//" s then "//"
    else if String.prefix "/" s then "/"
    else "" in
  let path := root +:+ join "/" parts in
  if truthy path then path else ".".

Section Getters.
Variable E : Env.

(** [fname.exists()] *)
Definition Path_exists (fname : string) : result bool :=
  match exists_error E fname with
  | Some e => Raise e
  | None => Ok (exists_ E fname)
  end.

(** [handle_file_or_list] *)
Definition handle_file_or_list (v : value) : result file_or_list :=
  match v with
  | VStr s =>
      let fname := Path s in
      found ← Path_exists fname;
      if (found : bool) then
        text ← read_text E fname;
        Ok (ConfigValue (map str_strip (readlines text)) fname)
      else Ok (Items (map str_strip (split "," s)))
  | VList l => Ok (Items l)
  end.

(** [get_file_or_list], on the string [cfg.get(section, option)]. *)
Definition get_file_or_list (option_value : string) : result file_or_list :=
  handle_file_or_list (VStr option_value).



(** [valid_path] *)
Definition valid_path (path : string) : result () :=
  if negb (exists_ E path) then Raise (ValueError ("Path " +:+ path +:+ " does not exist"))
  else Ok ().
End Getters.

(** The [admin] section, with [cli_params.get('prior')] as [prior]. *)
Record Admin : Type := {
  basename_ : string;
  embed_data : bool;
  screenlog : bool;
  log_all : bool;
  log_dp : Z;
  log_every : Z;
  log_probabilities : bool;
  log_fine_probs : bool;
  log_params : bool;
  log_trees : bool;
  log_pure_tree : bool;
  glottolog_release : string;
  a_prior : bool;
}.

(** [Admin.__attrs_post_init__] *)
Definition Admin_post_init (self : Admin) : Admin :=
  let self :=
    if log_all self then
      {| basename_ := basename_ self; embed_data := embed_data self;
         screenlog := screenlog self; log_all := log_all self; log_dp := log_dp self;
         log_every := log_every self; log_probabilities := true; log_fine_probs := true;
         log_params := true; log_trees := true; log_pure_tree := log_pure_tree self;
         glottolog_release := glottolog_release self; a_prior := a_prior self |}
    else self in
  if log_fine_probs self then
    {| basename_ := basename_ self; embed_data := embed_data self;
       screenlog := screenlog self; log_all := log_all self; log_dp := log_dp self;
       log_every := log_every self; log_probabilities := true;
       log_fine_probs := log_fine_probs self;
       log_params := log_params self; log_trees := log_trees self;
       log_pure_tree := log_pure_tree self;
       glottolog_release := glottolog_release self; a_prior := a_prior self |}
  else self.

(** [Admin.basename] and [Admin.path] *)
Definition basename (self : Admin) : string :=
  if a_prior self then basename_ self +:+ "_prior" else basename_ self.
Definition path (self : Admin) (suffix : string) : string := basename self +:+ suffix.

(** The [MCMC] section, with [cli_params.get('prior')] as [prior]. *)
Record MCMC : Type := {
  alpha : string;
  chainlength : Z;
  do_not_run : bool;
  log_burnin : Z;
  path_sampling : bool;
  preburnin : Z;
  sample_from_prior : bool;
  steps : Z;
  m_prior : bool;
}.

(** [MCMC.__attrs_post_init__] *)
Definition MCMC_post_init (self : MCMC) : result MCMC :=
  let chainlength' :=
    if _BEAST_MAX_LENGTH <? chainlength self then _BEAST_MAX_LENGTH else chainlength self in
  if m_prior self && path_sampling self then
    Raise (ValueError "Cannot sample from the prior during a path sampling analysis.")
  else
    Ok {| alpha := alpha self; chainlength := chainlength'; do_not_run := do_not_run self;
          log_burnin := log_burnin self; path_sampling := path_sampling self;
          preburnin := preburnin self;
          sample_from_prior := m_prior self || sample_from_prior self;
          steps := steps self; m_prior := m_prior self |}.

(** A clock class: its [__type__] and its [__distribution__], which is
    [None] for a class that has no distribution of its own. *)
Record ClockClass : Type := {
  class_name : string;
  __type__ : string;
  __distribution__ : option string;
}.

(** [Clock.get_clock]: the class that is instantiated, among
    [all_subclasses(BaseClock)]. *)
Definition get_clock (subclasses : list ClockClass) (type distribution : string)
    : result ClockClass :=
  let clocks := filter (fun c => __type__ c = type) subclasses in
  match clocks with
  | [c] => Ok c
  | _ =>
      match find (fun c => bool_decide (__distribution__ c = Some distribution)) clocks with
      | Some c => Ok c
      | None => Raise (ValueError "no matching clock")
      end
  end.

(** [LanguageGroups.__attrs_post_init__], on [self.options]. *)
Definition LanguageGroups_post_init (options : dict string) : dict (list string) :=
  map (fun kv => (fst kv, map strip (split "," (snd kv)))) options.

(** [list(GeoPriors.iterpriors())], on [self.options]. *)
Definition iterpriors (options : dict string) : list (string * string) :=
  flat_map (fun kv => map (fun clade => (strip clade, snd kv)) (split "," (fst kv))) options.

End Sections.

(** ** Vocabulary of the statements

    The predicates the properties below are phrased with, and the
    specification's own tables where a property is a refinement. *)

Module Spec.
Import Configuration Beastxml.

(** The tree initializers of the decision table. *)
Inductive initializer : Type :=
| ParseFixedTree
| ConstrainedRandomTree
| SimpleRandomTree
| PlainRandomTree.

(** "Tree-initializer decision table (first match wins)". *)
Definition decision_table (starting_tree_given monophyly_constraints : bool)
    (taxa : nat) (hard_bound : bool) : initializer :=
  if starting_tree_given then ParseFixedTree
  else if monophyly_constraints && (3 <=? taxa)%nat then ConstrainedRandomTree
  else if hard_bound then SimpleRandomTree
  else PlainRandomTree.

(** The class an initializer is emitted as. *)
Definition class_of (i : initializer) : string :=
  match i with
  | ParseFixedTree => "beast.util.TreeParser"
  | ConstrainedRandomTree => "beast.evolution.tree.ConstrainedRandomTree"
  | SimpleRandomTree => "beast.evolution.tree.SimpleRandomTree"
  | PlainRandomTree => "beast.evolution.tree.RandomTree"
  end.

(** "any calibration uses a hard (uniform) bound" *)
Definition hard_bound (cals : dict Calibration) : bool :=
  bool_decide (Exists (fun c => dist c = "uniform") (values cals)).

(** The taxon set of a dataset: the languages of the model that owns it. *)
Definition taxon_set (m : Model) : gset string := dom (data m).

(** A request to emit a named taxon group. *)
Record request : Type := {
  r_label : string;
  r_langs : list string;
  r_define_taxa : bool;
}.

Definition emit (r : request) : M (list Element) :=
  add_taxon_set (r_label r) (r_langs r) (r_define_taxa r).

(** The taxa of a request, as a set. *)
Definition taxa_of (r : request) : gset string := list_to_set (r_langs r).

(** The reference [add_taxon_set] emits to the set [idref]. *)
Definition reference_to (idref : string) : Element :=
  Element_ "taxonset" [("idref", idref); ("spec", "TaxonSet")].

(** The identifier a node defines a taxon set under, if it is a full
    taxon-set definition. *)
Definition defined_id (e : Element) : option string :=
  if bool_decide (tag_of e = Some "taxonset") then get e "id" else None.

(** The taxon set a node refers to, if it is a reference. *)
Definition referred_id (e : Element) : option string :=
  if bool_decide (tag_of e = Some "taxonset") then get e "idref" else None.

(** The identifiers of the taxon sets a document defines, and of those it
    refers to, in document order. *)
Definition definitions (doc : Element) : list string := omap defined_id (iter doc).
Definition references (doc : Element) : list string := omap referred_id (iter doc).

(** A builder that has not emitted a taxon set yet. *)
Definition fresh_builder (c : Configuration) : BeastXml :=
  {| config := c; _covarion_userdatatype_created := false; _taxon_sets := [] |}.

(** Requests with the same taxa as an earlier one are answered by a
    reference to the taxon set an earlier request defined. *)
Definition deduplicated (reqs : list request) (outs : list Element) : Prop :=
  forall i j ri rj,
    (i < j)%nat -> reqs !! i = Some ri -> reqs !! j = Some rj ->
    taxa_of ri = taxa_of rj ->
    exists k rk,
      (k < j)%nat /\ reqs !! k = Some rk /\ taxa_of rk = taxa_of rj
      /\ outs !! k ≫= defined_id = Some (r_label rk)
      /\ outs !! j = Some (reference_to (r_label rk)).

(** The registry after the requests [reqs] were answered by [outs]: it
    holds the taxa of every request, under identifiers that were defined
    for them. *)
Definition registry_of (reqs : list request) (outs : list Element)
    (taxon_sets : dict (gset string)) : Prop :=
  (forall i ri, reqs !! i = Some ri -> exists l, (l, taxa_of ri) ∈ taxon_sets)
  /\ (forall l t, (l, t) ∈ taxon_sets -> l ∈ omap defined_id outs)
  /\ (forall l t, (l, t) ∈ taxon_sets ->
        exists k rk, reqs !! k = Some rk /\ r_label rk = l /\ taxa_of rk = t
                     /\ outs !! k ≫= defined_id = Some l).

(** Two records of a dataset carry the same taxon identifier in the
    column [col]. *)
Definition has_duplicate (col : string) (rows : list Datareaders.Row) : Prop :=
  exists i j ri rj l,
    (i < j)%nat /\ rows !! i = Some ri /\ rows !! j = Some rj
    /\ ri !! col = Some l /\ rj !! col = Some l.

(** Every record has a value in every column of the header. *)
Definition complete (reader : Datareaders.Reader) : Prop :=
  forall col, col ∈ Datareaders.fieldnames reader ->
    Forall (fun r : Datareaders.Row => is_Some (r !! col)) (Datareaders.rows reader).

(** The header of a CLDF dataset. *)
Definition cldf_header (reader : Datareaders.Reader) : Prop :=
  "Language_ID" ∈ Datareaders.fieldnames reader
  /\ "Value" ∈ Datareaders.fieldnames reader
  /\ ("Feature_ID" ∈ Datareaders.fieldnames reader
      \/ "Parameter_ID" ∈ Datareaders.fieldnames reader).

(** A logger node carries the logging interval of the configuration. *)
Definition logs_every (c : Configuration) (logger : Element) : Prop :=
  tag_of logger = Some "logger"
  /\ get logger "logEvery" = Some (str_int (log_every c)).

(** The nodes a method adds all satisfy [P], and the method leaves the
    configuration as it is. *)
Definition emits (P : Configuration -> Element -> Prop) (m : M (list Element)) : Prop :=
  forall s nodes s',
    m s = Ok (nodes, s') -> Forall (P (config s)) nodes /\ config s' = config s.

(** What instantiating the models leaves as it is. *)
Definition same_options (a b : Configuration) : Prop :=
  settings b = settings a /\ log_every b = log_every a /\ families b = families a
  /\ starting_tree b = starting_tree a /\ lang_filter b = lang_filter a
  /\ processed b = processed a.

(** A method keeps a relation between the builder before and after it. *)
Definition keeps {A} (R : BeastXml -> BeastXml -> Prop) (m : M A) : Prop :=
  forall s a s', m s = Ok (a, s') -> R s s'.

(** The builder after a method has the configuration it had before. *)
Definition same_config (s s' : BeastXml) : Prop := config s' = config s.

(** What claim C2 says of the "distr" node of a calibration. *)
Definition distr_as_specified (cal : Calibration) (distr : Element) : Prop :=
  (dist cal = "uniform" ->
     tag_of distr = Some "Uniform"
     /\ get distr "lower" = Some (str_float (param1 cal))
     /\ get distr "upper" = Some (str_float (param2 cal))
     /\ children_of distr = [])
  /\ (dist cal = "normal" ->
        tag_of distr = Some "Normal"
        /\ map (fun c => (tag_of c, get c "name")) (children_of distr)
           = [(Some "parameter", Some "mean"); (Some "parameter", Some "sigma")])
  /\ (dist cal = "lognormal" ->
        tag_of distr = Some "LogNormal"
        /\ map (fun c => (tag_of c, get c "name")) (children_of distr)
           = [(Some "parameter", Some "M"); (Some "parameter", Some "S")]).

Definition known_kind (cal : Calibration) : Prop :=
  dist cal ∈ ["normal"; "lognormal"; "uniform"].

(** The node [add_calibrations] adds for a calibration. *)
Definition calibration_node (item : string * Calibration) (node : Element) : Prop :=
  exists taxonset distr,
    tag_of node = Some "distribution"
    /\ get node "id" = Some (fst item +:+ "MRCA")
    /\ children_of node = [taxonset; distr]
    /\ tag_of taxonset = Some "taxonset"
    /\ get distr "name" = Some "distr"
    /\ distr_as_specified (snd item) distr.

End Spec.


(** ** Concrete environments and configurations

    Small instances on which the statements below are evaluated. *)

Module Examples.
Import Configuration.

Definition set_of (ls : list string) : gmap string (gmap string string) :=
  list_to_map (map (fun l => (l, ∅)) ls).

(** The data files of the examples, by name. *)
Definition datasets : dict (list string) :=
  [("ab.csv", ["a"; "b"]); ("bc.csv", ["b"; "c"]); ("ac.csv", ["a"; "c"]);
   ("none.csv", [])].

(** A model over a dataset with the given languages. *)
Definition dataset (name file : string) (ls : list string) : Model :=
  {| m_name := name; data := set_of ls; m_messages := [];
     rate_variation := false; m_clock := 0%nat; features := []; weights := [];
     data_filename := file; m_beastxml := None |}.

(** A model class: the model over the data file its section names. *)
Definition new_model (config : dict optval) (_ : Configuration) : result Model :=
  name ← dict_item config "name";
  file ← dict_item config "data";
  ls ← dict_item datasets (str_optval file);
  Ok (dataset (str_optval name) (str_optval file) ls).

Definition cenv : Configuration.Env :=
  {| fs := fun _ => None;
     glottolog := fun _ => Ok ∅;
     BSVSModel := new_model; CovarionModel := new_model; MKModel := new_model;
     BSVS_package_notice := "[DEPENDENCY] BSVS";
     MK_package_notice := "[DEPENDENCY] MK" |}.

Definition no_fragment {A} (_ : A) : result (list Element) := Ok [].

Definition env : Beastxml.Env :=
  {| Beastxml.cenv := cenv;
     Beastxml.__version__ := "1.0";
     Beastxml.now := "Monday, 01 Jan 2018 12:00 AM";
     Beastxml.read := fun f => Raise (IOError f);
     Beastxml.maps := [("Beta", "beast.math.distributions.Beta")];
     Beastxml.add_master_data := no_fragment;
     Beastxml.add_misc := no_fragment;
     Beastxml.m_add_state := no_fragment;
     Beastxml.m_add_prior := no_fragment;
     Beastxml.m_add_likelihood := no_fragment;
     Beastxml.m_add_operators := no_fragment;
     Beastxml.m_add_param_logs := no_fragment;
     Beastxml.add_branchrate_model := no_fragment;
     Beastxml.c_add_state := no_fragment;
     Beastxml.c_add_prior := no_fragment;
     Beastxml.c_add_operators := no_fragment;
     Beastxml.c_add_param_logs := no_fragment |}.

(** The settings of a configuration that no file was read for.  The
    attributes [Configuration.__init__] assigns have the values it gives
    them.  The others ([files_to_embed], [monophyly_newick],
    [log_fine_probs], [log_pure_tree], [tree_logging_pointless],
    [geo_config], [geo_model], [all_models], [clocks]) are not set by
    [Configuration.__init__]; they have the values of a configuration
    without embedded files, tree constraints, geography, models and
    clocks. *)
Definition default_settings : Settings :=
  {| basename := "beastling"; configfile := None; chainlength := 10000000;
     embed_data := false; files_to_embed := []; sample_from_prior := false;
     overlap := "error"; sample_branch_lengths := true; sample_topology := true;
     monophyly := false; monophyly_newick := ""; screenlog := true; log_all := false;
     log_params := false; log_probabilities := true; log_fine_probs := false;
     log_trees := true; log_pure_tree := false; tree_logging_pointless := false;
     stdin_data := false; calibrations := []; glottolog_release := "2.7";
     geo_config := None; geo_model := None; all_models := []; clocks := [] |}.

Definition with_settings (o : Settings) (log_every : Z) (model_configs : list (dict optval))
    : Configuration :=
  {| settings := o; processed := false; messages := []; message_flags := [];
     log_every := log_every; families := FStr "*"; starting_tree := "";
     model_configs := model_configs; classifications := ∅; lang_filter := ∅;
     models := []; languages := []; model_objects := ∅; clock_objects := ∅ |}.

(** The default settings with another chain length and overlap policy. *)
Definition settings_with (chainlength : Z) (overlap : string) : Settings :=
  {| basename := "beastling"; configfile := None; chainlength := chainlength;
     embed_data := false; files_to_embed := []; sample_from_prior := false;
     overlap := overlap; sample_branch_lengths := true; sample_topology := true;
     monophyly := false; monophyly_newick := ""; screenlog := true; log_all := false;
     log_params := false; log_probabilities := true; log_fine_probs := false;
     log_trees := true; log_pure_tree := false; tree_logging_pointless := false;
     stdin_data := false; calibrations := []; glottolog_release := "2.7";
     geo_config := None; geo_model := None; all_models := []; clocks := [] |}.

Definition model_section (name file : string) : dict optval :=
  [("model", OStr "covarion"); ("data", OStr file); ("name", OStr name)].

Definition strict_clock : Clock :=
  {| c_name := "default"; is_strict := true; branchrate_model_id := "StrictClockModel.c:default";
     mean_rate_id := "clockRate.c:default"; c_beastxml := None |}.

(** A processed configuration with one model and one clock object. *)
Definition processed_basic : Configuration :=
  {| settings :=
       {| basename := "beastling"; configfile := None; chainlength := 10000000;
          embed_data := false; files_to_embed := []; sample_from_prior := false;
          overlap := "error"; sample_branch_lengths := true; sample_topology := true;
          monophyly := false; monophyly_newick := ""; screenlog := true; log_all := false;
          log_params := false; log_probabilities := true; log_fine_probs := false;
          log_trees := true; log_pure_tree := false; tree_logging_pointless := false;
          stdin_data := false; calibrations := []; glottolog_release := "2.7";
          geo_config := None; geo_model := None; all_models := [0%nat]; clocks := [0%nat] |};
     processed := true; messages := []; message_flags := [];
     log_every := 1000; families := FList ["*"]; starting_tree := "";
     model_configs := []; classifications := ∅; lang_filter := ∅;
     models := [0%nat]; languages := ["a"; "b"];
     model_objects := {[ 0%nat := dataset "m" "ab.csv" ["a"; "b"] ]};
     clock_objects := {[ 0%nat := strict_clock ]} |}.

(** A CLDF dataset with two records for the language [aaa]. *)
Definition cldf_reader : Datareaders.Reader :=
  {| Datareaders.fieldnames := ["Language_ID"; "Feature_ID"; "Value"];
     Datareaders.rows :=
       [ list_to_map [("Language_ID", "aaa"); ("Feature_ID", "f1"); ("Value", "1")];
         list_to_map [("Language_ID", "aaa"); ("Feature_ID", "f2"); ("Value", "0")] ] |}.

(** A dataset in BEASTling's own format with two records for [aaa]. *)
Definition beastling_reader : Datareaders.Reader :=
  {| Datareaders.fieldnames := ["iso"; "f1"];
     Datareaders.rows :=
       [ list_to_map [("iso", "aaa"); ("f1", "1")];
         list_to_map [("iso", "bbb"); ("f1", "1")];
         list_to_map [("iso", "aaa"); ("f1", "0")] ] |}.

Definition reader_env : Datareaders.Env :=
  {| Datareaders.sniff := fun _ => Ok Datareaders.excel;
     Datareaders.UnicodeDictReader := fun filename _ =>
       if String.eqb filename "cldf.csv" then Ok cldf_reader
       else if String.eqb filename "basic.csv" then Ok beastling_reader
       else Raise (IOError filename) |}.

(** A command line environment: the files that exist, a configuration
    class that accepts every file but [bad.conf], a pass that accepts
    every configuration but [empty.conf], a builder and an extractor that
    work. *)
Definition cli_env : Cli.Env (list string) string :=
  {| Cli.exists_ := fun f => bool_decide (f ∈ ["basic.conf"; "bad.conf"; "empty.conf";
                                                "old.xml"; "taken.xml"]);
     Cli.Configuration := fun files _ _ _ =>
       if bool_decide ("bad.conf" ∈ files) then Raise (ValueError "Config file")
       else Ok files;
     Cli.admin_path := fun _ suffix => "beastling" +:+ suffix;
     Cli.process := fun c =>
       if bool_decide ("empty.conf" ∈ c) then Raise (ValueError "No languages specified!")
       else Ok c;
     Cli.BeastXml := fun c => Ok (join "," c);
     Cli.write_file := fun _ _ => Ok ();
     Cli.write_reports := fun _ _ => Ok ();
     Cli.write_language_list := fun _ => Ok ();
     Cli.extractor_extract := fun _ _ => Ok ["Wrote config"] |}.

Definition generate (files : list string) (output : option string) : Cli.Args :=
  {| Cli.config := files; Cli.extract := false; Cli.report := false;
     Cli.language_list := false; Cli.output := output; Cli.overwrite := false;
     Cli.stdin := false; Cli.prior := false; Cli.verbose := false |}.

Definition extract (files : list string) : Cli.Args :=
  {| Cli.config := files; Cli.extract := true; Cli.report := false;
     Cli.language_list := false; Cli.output := None; Cli.overwrite := false;
     Cli.stdin := false; Cli.prior := false; Cli.verbose := false |}.

(** A configuration with one model over the data file [ab.csv]. *)
Definition basic : Configuration :=
  with_settings default_settings 0 [model_section "m" "ab.csv"].

Definition cal (ls : list string) (kind : string) : Calibration :=
  {| langs := ls; dist := kind; param1 := Float "10.0"; param2 := Float "20.0";
     originate := false |}.

(** A processed configuration with the given languages and calibrations. *)
Definition calibrated (ls : list string) (cals : dict Calibration) : Configuration :=
  {| settings :=
       {| basename := "beastling"; configfile := None; chainlength := 10000000;
          embed_data := false; files_to_embed := []; sample_from_prior := false;
          overlap := "error"; sample_branch_lengths := true; sample_topology := true;
          monophyly := false; monophyly_newick := ""; screenlog := true; log_all := false;
          log_params := false; log_probabilities := true; log_fine_probs := false;
          log_trees := true; log_pure_tree := false; tree_logging_pointless := false;
          stdin_data := false; calibrations := cals; glottolog_release := "2.7";
          geo_config := None; geo_model := None; all_models := []; clocks := [] |};
     processed := true; messages := []; message_flags := [];
     log_every := 1000; families := FList ["*"]; starting_tree := "";
     model_configs := []; classifications := ∅; lang_filter := ∅;
     models := []; languages := ls; model_objects := ∅; clock_objects := ∅ |}.

End Examples.


(** ** Vocabulary of the further properties *)

Module Terms.
Import Configuration Beastxml Spec.

(** No identifier is registered twice, and no two identifiers are
    registered for the same taxa. *)
Definition distinct_registry (s : BeastXml) : Prop :=
  NoDup (keys (_taxon_sets s)) /\ NoDup (values (_taxon_sets s)).

Definition keeps_distinct (s s' : BeastXml) : Prop :=
  distinct_registry s -> distinct_registry s'.

(** Every reference to a taxon set comes after a node that defines it. *)
Definition resolved (outs : list Element) : Prop :=
  forall j e idref,
    outs !! j = Some e -> referred_id e = Some idref ->
    exists k e', (k < j)%nat /\ outs !! k = Some e' /\ defined_id e' = Some idref.

(** The models whose feature rates one clock's exchange operator covers. *)
Definition clock_models (ms : list Model) (clock : oid) : list Model :=
  filter (fun m => rate_variation m && Nat.eqb (m_clock m) clock = true) ms.

(** A model object that one of the three model classes builds from the
    options of a model section. *)
Definition built_from (E : Configuration.Env) (config : dict optval) (m : Model) : Prop :=
  exists c0, BSVSModel E config c0 = Ok m
             \/ CovarionModel E config c0 = Ok m
             \/ MKModel E config c0 = Ok m.

(** The references in [models] denote the objects [made], one each, and
    each is an object of the store. *)
Definition denotes (self : Configuration) (made : list Model) : Prop :=
  the_models self (models self) = made
  /\ NoDup (models self)
  /\ forall o, o ∈ models self -> is_Some (model_objects self !! o).

(** The column of a CLDF dataset that names the feature. *)
Definition feature_column (reader : Datareaders.Reader) : string :=
  if bool_decide ("Feature_ID" ∈ Datareaders.fieldnames reader) then "Feature_ID"
  else "Parameter_ID".

(** A record of a CLDF dataset is about the language [l] and the feature [f]. *)
Definition about (fc l f : string) (r : Datareaders.Row) : Prop :=
  r !! "Language_ID" = Some l /\ r !! fc = Some f.

(** The value of the last record about [l] and [f], from [init] on. *)
Definition recorded (fc l f : string) (rs : list Datareaders.Row) (init : option string)
    : option string :=
  foldl (fun acc r => if decide (about fc l f r) then r !! "Value" else acc) init rs.

(** The value loaded data hold for a language and a feature. *)
Definition value_of (data : Datareaders.Data) (l f : string) : option string :=
  data !! l ≫= (fun features => features !! f).

(** A string begins with a character that [str.strip()] removes. *)
Definition starts_with_space (s : string) : bool :=
  match s with
  | EmptyString => false
  | String c _ => is_whitespace c
  end.

(** A string has no white space at either end. *)
Definition stripped (s : string) : Prop :=
  starts_with_space s = false /\ starts_with_space (String.rev s) = false.

(** The same for a Python 3 [str]. *)
Definition str_starts_with_space (s : string) : bool :=
  match s with
  | EmptyString => false
  | String c _ => Sections.str_is_whitespace c
  end.

Definition str_stripped (s : string) : Prop :=
  str_starts_with_space s = false /\ str_starts_with_space (String.rev s) = false.

(** How often a character occurs in a string. *)
Fixpoint count_char (c : ascii) (s : string) : nat :=
  match s with
  | EmptyString => 0
  | String c' r => (if Ascii.eqb c' c then 1 else 0) + count_char c r
  end.

End Terms.


(** ** Further concrete instances *)

Module Instances.
Import Configuration.

(** A dataset in BEASTling's own format with one record per language. *)
Definition plain_reader : Datareaders.Reader :=
  {| Datareaders.fieldnames := ["f1"; "ISO"; "Language"];
     Datareaders.rows :=
       [ list_to_map [("f1", "1"); ("ISO", "aaa"); ("Language", "A")];
         list_to_map [("f1", "0"); ("ISO", "bbb"); ("Language", "B")] ] |}.

(** A CLDF dataset with two records about the same language and feature. *)
Definition revised_reader : Datareaders.Reader :=
  {| Datareaders.fieldnames := ["Language_ID"; "Feature_ID"; "Value"];
     Datareaders.rows :=
       [ list_to_map [("Language_ID", "aaa"); ("Feature_ID", "f1"); ("Value", "1")];
         list_to_map [("Language_ID", "aaa"); ("Feature_ID", "f1"); ("Value", "0")] ] |}.

(** A model with rate variation on the clock [0]. *)
Definition rated (name : string) (fs : list string) (ws : dict Z) : Model :=
  {| m_name := name; data := ∅; m_messages := []; rate_variation := true;
     m_clock := 0%nat; features := fs; weights := ws; data_filename := name +:+ ".csv";
     m_beastxml := None |}.

(** A file system with a list of languages and a tree, in a current
    directory with a directory [data]; a name of more than 255 characters
    cannot be looked for. *)
Definition files : Sections.Env :=
  {| Sections.exists_ := fun f => bool_decide (f ∈ ["langs.txt"; "tree.nwk"; "data"; "."]);
     Sections.exists_error := fun f =>
       if (255 <? String.length f)%nat then Some (IOError "File name too long") else None;
     Sections.is_file := fun f => bool_decide (f ∈ ["langs.txt"; "tree.nwk"]);
     Sections.read_text := fun f =>
       if String.eqb f "langs.txt" then Ok ("aaa" +:+ String "010" (" bbb " +:+ String "010" ""))
       else if String.eqb f "tree.nwk" then Ok (" (a,b);" +:+ String "010" "")
       else Raise (IOError f) |}.

(** The clock classes: one strict clock, two relaxed ones. *)
Definition clock_classes : list Sections.ClockClass :=
  [ {| Sections.class_name := "StrictClock"; Sections.__type__ := "strict";
       Sections.__distribution__ := None |};
    {| Sections.class_name := "RelaxedClock"; Sections.__type__ := "relaxed";
       Sections.__distribution__ := Some "lognormal" |};
    {| Sections.class_name := "GammaRelaxedClock"; Sections.__type__ := "relaxed";
       Sections.__distribution__ := Some "gamma" |} ].

(** An installation without a packaged classification, a network that
    serves the release 2.7 only, and a parser that keeps the text. *)
Definition glottolog_env : Glottolog.Env (list string) :=
  {| Glottolog.module_dir := "/usr/lib/python/beastling";
     Glottolog.user_data_dir := "/home/user/.local/share/beastling";
     Glottolog.download := fun url =>
       if String.eqb url "http://glottolog.org/static/download/2.7/tree-glottolog-newick.txt"
       then Ok "(a,b);" else Raise (IOError "HTTP 404");
     Glottolog.newick_read := fun content => Ok [content] |}.

Definition empty_world : Glottolog.World :=
  {| Glottolog.files := ∅; Glottolog.dirs := ∅; Glottolog.requests := [] |}.

(** A command line environment in which no file can be written. *)
Definition read_only_env : Cli.Env (list string) string :=
  {| Cli.exists_ := fun f => bool_decide (f ∈ ["basic.conf"]);
     Cli.Configuration := fun files _ _ _ => Ok files;
     Cli.admin_path := fun _ suffix => "beastling" +:+ suffix;
     Cli.process := fun c => Ok c;
     Cli.BeastXml := fun c => Ok (join "," c);
     Cli.write_file := fun _ f => Raise (IOError f);
     Cli.write_reports := fun _ _ => Ok ();
     Cli.write_language_list := fun _ => Ok ();
     Cli.extractor_extract := fun _ _ => Ok [] |}.

(** A classification in which the family [Zfam] has one language, [z]. *)
Definition family_env : Configuration.Env :=
  {| fs := fun _ => None;
     glottolog := fun _ => Ok {[ "z" := [("Zfam", "zfam1234")] ]};
     BSVSModel := Examples.new_model; CovarionModel := Examples.new_model;
     MKModel := Examples.new_model;
     BSVS_package_notice := "[DEPENDENCY] BSVS";
     MK_package_notice := "[DEPENDENCY] MK" |}.

(** A configuration that asks for the languages of the family [Zfam] in
    the union of two datasets, with the languages [a], [b] and [b], [c]. *)
Definition other_family : Configuration :=
  {| settings := Examples.settings_with 10000000 "union";
     processed := false; messages := []; message_flags := [];
     log_every := 0; families := FStr "Zfam"; starting_tree := "";
     model_configs := [Examples.model_section "one" "ab.csv";
                       Examples.model_section "two" "bc.csv"];
     classifications := ∅; lang_filter := ∅;
     models := []; languages := []; model_objects := ∅; clock_objects := ∅ |}.

(** The processed configuration of [Examples], with embedding of the
    data files switched on. *)
Definition embedding : Configuration :=
  {| settings :=
       {| basename := "beastling"; configfile := None; chainlength := 10000000;
          embed_data := true; files_to_embed := []; sample_from_prior := false;
          overlap := "error"; sample_branch_lengths := true; sample_topology := true;
          monophyly := false; monophyly_newick := ""; screenlog := true; log_all := false;
          log_params := false; log_probabilities := true; log_fine_probs := false;
          log_trees := true; log_pure_tree := false; tree_logging_pointless := false;
          stdin_data := false; calibrations := []; glottolog_release := "2.7";
          geo_config := None; geo_model := None; all_models := [0%nat]; clocks := [0%nat] |};
     processed := true; messages := []; message_flags := [];
     log_every := 1000; families := FList ["*"]; starting_tree := "";
     model_configs := []; classifications := ∅; lang_filter := ∅;
     models := [0%nat]; languages := ["a"; "b"];
     model_objects := {[ 0%nat := Examples.dataset "m" "ab.csv" ["a"; "b"] ]};
     clock_objects := {[ 0%nat := Examples.strict_clock ]} |}.

End Instances.


(** * Properties *)

Import Configuration Beastxml Spec.

(** ** Reasoning about builder methods *)

Lemma M_bind_Ok {A B} (m : M A) (f : A -> M B) s b s' :
  (m ≫= f) s = Ok (b, s') ->
  exists a s1, m s = Ok (a, s1) /\ f a s1 = Ok (b, s').
Proof.
  unfold mbind, M_bind. destruct (m s) as [[a s1]|e]; [|discriminate].
  intros H. exists a, s1. split; [reflexivity|exact H].
Qed.

(** Unfold the plumbing of the builder monad. *)
Ltac run_M :=
  cbv beta iota delta [mbind M_bind mret M_ret opt cfg lift nothing].

Section Keeps.
Variable R : BeastXml -> BeastXml -> Prop.
Hypothesis R_refl : forall s, R s s.
Hypothesis R_trans : forall s1 s2 s3, R s1 s2 -> R s2 s3 -> R s1 s3.

Lemma keeps_ret {A} (a : A) : keeps R (mret a).
Proof. intros s a' s' [= _ <-]. apply R_refl. Qed.

Lemma keeps_nothing : keeps R nothing.
Proof. apply keeps_ret. Qed.

Lemma keeps_cfg {A} (f : Configuration -> A) : keeps R (cfg f).
Proof. intros s a' s' [= _ <-]. apply R_refl. Qed.

Lemma keeps_opt {A} (f : Settings -> A) : keeps R (opt f).
Proof. apply keeps_cfg. Qed.

Lemma keeps_lift {A} (r : result A) : keeps R (lift r).
Proof. intros s a' s'. unfold lift. destruct r; [|discriminate]. intros [= _ <-]. apply R_refl. Qed.

Lemma keeps_bind {A B} (m : M A) (f : A -> M B) :
  keeps R m -> (forall a, keeps R (f a)) -> keeps R (m ≫= f).
Proof.
  intros Hm Hf s b s' H. apply M_bind_Ok in H as (a & s1 & H1 & H2).
  eapply R_trans; [exact (Hm _ _ _ H1)|exact (Hf _ _ _ _ H2)].
Qed.

Lemma keeps_for_nodes {A} (body : A -> M (list Element)) (xs : list A) :
  (forall x, keeps R (body x)) -> keeps R (for_nodes body xs).
Proof.
  intros Hbody. induction xs as [|x xs IH]; simpl.
  - apply keeps_ret.
  - apply keeps_bind; [apply Hbody|]. intros nodes.
    apply keeps_bind; [exact IH|]. intros more. apply keeps_ret.
Qed.
End Keeps.

(** Prove that a method built from the monad's operations keeps [R], given
    the lemmas [base] for the methods it calls. *)
Ltac keeps_with Hrefl Htrans base :=
  repeat first
    [ apply (keeps_ret _ Hrefl)
    | apply (keeps_nothing _ Hrefl)
    | apply (keeps_cfg _ Hrefl)
    | apply (keeps_opt _ Hrefl)
    | apply (keeps_lift _ Hrefl)
    | base
    | apply (keeps_for_nodes _ Hrefl Htrans); intros ?
    | apply (keeps_bind _ Htrans); [|intros ?]
    | match goal with
      | |- keeps _ (if ?b then _ else _) => destruct b
      | |- keeps _ (match ?x with _ => _ end) => destruct x
      | |- keeps _ (let '(_, _) := ?x in _) => destruct x
      end ].

Lemma any_map_Exists {A} (p : A -> bool) (l : list A) :
  any (map p l) = true <-> Exists (fun x => p x = true) l.
Proof.
  unfold any. induction l as [|x l IH]; simpl.
  - split; [discriminate|]. intros H. inversion H.
  - rewrite orb_true_iff, IH. split.
    + intros [H|H]; [left|right]; assumption.
    + intros H. inversion H; subst; [left|right]; assumption.
Qed.

Lemma any_uniform_hard_bound (cals : dict Calibration) :
  any (map (fun c => String.eqb (dist c) "uniform") (values cals)) = hard_bound cals.
Proof.
  unfold hard_bound.
  destruct (any _) eqn:Hany; symmetry.
  - apply bool_decide_eq_true. apply any_map_Exists in Hany.
    eapply Exists_impl; [exact Hany|]. intros c Hc. simpl in Hc. apply String.eqb_eq, Hc.
  - apply bool_decide_eq_false. intros Hex.
    assert (any (map (fun c => String.eqb (dist c) "uniform") (values cals)) = true) as Ht.
    { apply any_map_Exists. eapply Exists_impl; [exact Hex|].
      intros c Hc. simpl. apply String.eqb_eq, Hc. }
    congruence.
Qed.

(** ** The tree initializer *)

Section TreeInitializer.
Variable E : Beastxml.Env.

(** C3. [add_init] always adds exactly one [init] node and leaves the
    builder unchanged; the class of the node is the one the decision table
    gives, first match first: a starting tree given, else monophyly
    constraints with at least 3 taxa, else a calibration with a uniform
    (hard) bound, else the plain random tree. *)
Theorem add_init_decision_table (self : BeastXml) :
  exists init,
    add_init self = Ok ([init], self)
    /\ tag_of init = Some "init"
    /\ get init "spec" =
         Some (class_of
                 (decision_table
                    (truthy (starting_tree (config self)))
                    (monophyly (settings (config self)))
                    (length (languages (config self)))
                    (hard_bound (calibrations (settings (config self)))))).
Proof.
  rewrite <- any_uniform_hard_bound. unfold decision_table.
  assert ((3 <=? length (languages (config self)))%nat
          = (2 <? length (languages (config self)))%nat) as -> by reflexivity.
  unfold add_init. run_M.
  destruct (truthy (starting_tree (config self))); run_M.
  { eexists. split; [reflexivity|]. split; reflexivity. }
  destruct (monophyly (settings (config self)) &&
            (2 <? length (languages (config self)))%nat).
  { eexists. split; [reflexivity|]. split; reflexivity. }
  destruct (any _); eexists; (split; [reflexivity|]); split; reflexivity.
Qed.
End TreeInitializer.

(** ** Calibrations *)

Section Calibrations.

Lemma for_nodes_Forall2 {A} (body : A -> M (list Element)) (P : A -> Element -> Prop)
    (I : BeastXml -> Prop) (xs : list A) :
  Forall (fun x => forall s, I s -> exists node s',
              body x s = Ok ([node], s') /\ P x node /\ I s') xs ->
  forall s, I s -> exists nodes s',
    for_nodes body xs s = Ok (nodes, s') /\ Forall2 P xs nodes /\ I s'.
Proof.
  intros Hall. induction Hall as [|x xs Hx _ IH]; intros s Hs.
  - exists [], s. repeat split; [constructor|exact Hs].
  - destruct (Hx s Hs) as (node & s1 & Hrun & HP & HI).
    destruct (IH s1 HI) as (nodes & s2 & Hrest & HF & HI').
    exists (node :: nodes), s2. split; [|split].
    + simpl. unfold mbind, M_bind. rewrite Hrun, Hrest. reflexivity.
    + constructor; assumption.
    + exact HI'.
Qed.

Lemma add_taxon_set_total label ls define_taxa (s : BeastXml) :
  exists node s',
    add_taxon_set label ls define_taxa s = Ok ([node], s')
    /\ tag_of node = Some "taxonset"
    /\ config s' = config s.
Proof.
  unfold add_taxon_set. destruct (find_taxon_set _ _).
  - eexists _, _. repeat split.
  - eexists _, _. repeat split.
Qed.

Lemma calibration_distr_as_specified clade cal :
  known_kind cal ->
  exists distr,
    calibration_distr clade cal = Ok distr
    /\ get distr "name" = Some "distr"
    /\ distr_as_specified cal distr.
Proof.
  unfold known_kind, distr_as_specified, calibration_distr. intros Hk.
  apply elem_of_cons in Hk as [Hk|Hk]; [|apply elem_of_cons in Hk as [Hk|Hk]];
    [| |apply list_elem_of_singleton in Hk]; rewrite Hk; simpl;
    (eexists; split; [reflexivity|]); (split; [reflexivity|]);
    repeat split; try discriminate; reflexivity.
Qed.

Lemma add_calibration_node item (s : BeastXml) :
  known_kind (snd item) ->
  exists node s',
    add_calibration item s = Ok ([node], s')
    /\ calibration_node item node
    /\ config s' = config s.
Proof.
  destruct item as [clade cal]. simpl. intros Hk.
  unfold add_calibration.
  match goal with
  | |- context [add_taxon_set ?l ?ls ?d] =>
      destruct (add_taxon_set_total l ls d s) as (ts & s1 & Hts & Htag & Hcfg)
  end.
  destruct (calibration_distr_as_specified clade cal Hk) as (distr & Hd & Hname & Hspec).
  unfold mbind, M_bind, lift. rewrite Hts, Hd. cbv beta iota.
  eexists _, _. split; [reflexivity|]. split; [|exact Hcfg].
  exists ts, distr. simpl.
  destruct (originate cal);
    (split; [reflexivity|]); (split; [reflexivity|]); (split; [reflexivity|]);
    (split; [exact Htag|]); (split; [exact Hname|exact Hspec]).
Qed.

(** C2. When every calibration has one of the three kinds,
    [add_calibrations] succeeds and adds one node per calibration, in the
    order of the clade labels, each with a taxon set and a "distr" node:
    for uniform the node carries [lower] and [upper] and has no child; for
    normal its children are exactly the parameters [mean] and [sigma]; for
    lognormal exactly [M] and [S]. *)
Theorem add_calibrations_parameters (self : BeastXml) :
  Forall known_kind (values (calibrations (settings (config self)))) ->
  exists nodes self',
    add_calibrations self = Ok (nodes, self')
    /\ Forall2 calibration_node
         (sorted_items (calibrations (settings (config self)))) nodes.
Proof.
  intros Hall. unfold add_calibrations. run_M.
  destruct (for_nodes_Forall2 add_calibration calibration_node
              (fun s => config s = config self)
              (sorted_items (calibrations (settings (config self)))))
    with (s := self) as (nodes & s' & Hrun & HF & _).
  - unfold sorted_items.
    assert (Forall (fun item : string * Calibration => known_kind (snd item))
              (calibrations (settings (config self)))) as Hitems.
    { unfold values in Hall. apply (proj1 (Forall_fmap _ _ _)) in Hall. exact Hall. }
    rewrite merge_sort_Permutation.
    eapply Forall_impl; [exact Hitems|].
    intros item Hk s Hs.
    destruct (add_calibration_node item s Hk) as (node & s1 & Hrun & Hnode & Hcfg).
    exists node, s1. split; [exact Hrun|]. split; [exact Hnode|congruence].
  - reflexivity.
  - exists nodes, s'. split; [exact Hrun|exact HF].
Qed.

(** The theorem at two calibrations of different kinds. *)
Lemma add_calibrations_parameters_witness :
  exists nodes self',
    add_calibrations
      {| config := Examples.calibrated ["x"; "y"; "z"]
                     [("b", Examples.cal ["x"; "y"] "uniform");
                      ("a", Examples.cal ["y"; "z"] "lognormal")];
         _covarion_userdatatype_created := false; _taxon_sets := [] |}
    = Ok (nodes, self')
    /\ Forall2 calibration_node
         (sorted_items [("b", Examples.cal ["x"; "y"] "uniform");
                        ("a", Examples.cal ["y"; "z"] "lognormal")]) nodes.
Proof.
  apply (add_calibrations_parameters
           {| config := Examples.calibrated ["x"; "y"; "z"]
                          [("b", Examples.cal ["x"; "y"] "uniform");
                           ("a", Examples.cal ["y"; "z"] "lognormal")];
              _covarion_userdatatype_created := false; _taxon_sets := [] |}).
  simpl. repeat constructor.
Defined.
End Calibrations.

(** ** The taxon-set registry *)

Section TaxonSets.

Lemma find_taxon_set_Some t reg l :
  find_taxon_set t reg = Some l -> (l, t) ∈ reg.
Proof.
  induction reg as [|[l' t'] reg IH]; simpl; [discriminate|].
  destruct (decide (t = t')) as [->|Hne].
  - intros [= ->]. apply list_elem_of_here.
  - intros H. apply list_elem_of_further, IH, H.
Qed.

Lemma find_taxon_set_None t reg l :
  find_taxon_set t reg = None -> (l, t) ∉ reg.
Proof.
  induction reg as [|[l' t'] reg IH]; simpl; intros Hf Hin.
  - inversion Hin.
  - destruct (decide (t = t')) as [->|Hne]; [discriminate|].
    apply elem_of_cons in Hin as [[= -> ->]|Hin]; [congruence|].
    exact (IH Hf Hin).
Qed.

Lemma dict_set_fresh {V} (d : dict V) k v :
  (forall v', (k, v') ∉ d) -> dict_set d k v = d ++ [(k, v)].
Proof.
  induction d as [|[k' v'] d IH]; simpl; intros Hk; [reflexivity|].
  destruct (String.eqb k' k) eqn:Heq.
  - apply String.eqb_eq in Heq as ->. exfalso. apply (Hk v'), list_elem_of_here.
  - f_equal. apply IH. intros v'' Hin. apply (Hk v''), list_elem_of_further, Hin.
Qed.

Lemma for_nodes_snoc {A} (body : A -> M (list Element)) xs x s outs s1 o s2 :
  for_nodes body xs s = Ok (outs, s1) ->
  body x s1 = Ok (o, s2) ->
  for_nodes body (xs ++ [x]) s = Ok (outs ++ o, s2).
Proof.
  revert s outs. induction xs as [|y xs IH]; simpl; intros s outs.
  - intros [= <- <-] Hx. unfold mbind, M_bind. rewrite Hx. simpl.
    rewrite app_nil_r. reflexivity.
  - unfold mbind, M_bind. destruct (body y s) as [[ny sy]|e] eqn:Hy; [|discriminate].
    destruct (for_nodes body xs sy) as [[more sm]|e] eqn:Hm; [|discriminate].
    intros [= <- <-] Hx. rewrite (IH sy more Hm Hx). simpl.
    rewrite app_assoc. reflexivity.
Qed.

Lemma defined_id_reference idref : defined_id (reference_to idref) = None.
Proof. reflexivity. Qed.

(** The two answers of [add_taxon_set]. *)
Lemma emit_cases r (s : BeastXml) :
  (exists idref,
      find_taxon_set (taxa_of r) (_taxon_sets s) = Some idref
      /\ emit r s = Ok ([reference_to idref], s))
  \/ (exists node s',
         find_taxon_set (taxa_of r) (_taxon_sets s) = None
         /\ emit r s = Ok ([node], s')
         /\ defined_id node = Some (r_label r)
         /\ config s' = config s
         /\ _taxon_sets s' = dict_set (_taxon_sets s) (r_label r) (taxa_of r)).
Proof.
  unfold emit, add_taxon_set, taxa_of.
  destruct (find_taxon_set _ _) as [idref|].
  - left. exists idref. split; reflexivity.
  - right. eexists _, _. repeat split.
Qed.

Lemma emit_all_registry c reqs :
  exists outs s',
    for_nodes emit reqs (fresh_builder c) = Ok (outs, s')
    /\ length outs = length reqs
    /\ config s' = c
    /\ (NoDup (omap defined_id outs) ->
        deduplicated reqs outs /\ registry_of reqs outs (_taxon_sets s')).
Proof.
  induction reqs as [|r reqs IH] using rev_ind.
  - exists [], (fresh_builder c). repeat split.
    + intros i j ri rj _ Hi. rewrite lookup_nil in Hi. discriminate.
    + intros i ri Hi. rewrite lookup_nil in Hi. discriminate.
    + intros l t Hin. inversion Hin.
    + intros l t Hin. inversion Hin.
  - destruct IH as (outs & s1 & Hrun & Hlen & Hcfg & IH).
    destruct (emit_cases r s1) as [(idref & Hfind & Hemit)
                                  |(node & s2 & Hfind & Hemit & Hid & Hcfg2 & Hreg)].
    + (* a reference: the registry is as before *)
      exists (outs ++ [reference_to idref]), s1.
      split; [exact (for_nodes_snoc _ _ _ _ _ _ _ _ Hrun Hemit)|].
      split; [rewrite !length_app, Hlen; reflexivity|].
      split; [exact Hcfg|].
      rewrite omap_app. simpl. rewrite app_nil_r. intros Hnd.
      destruct (IH Hnd) as (Hgood & Ha & Hc & Hd).
      assert (forall l t, (l, t) ∈ _taxon_sets s1 ->
                exists k rk, (reqs ++ [r]) !! k = Some rk /\ r_label rk = l
                             /\ taxa_of rk = t
                             /\ (outs ++ [reference_to idref]) !! k ≫= defined_id = Some l)
        as Hd'.
      { intros l t Hin. destruct (Hd l t Hin) as (k & rk & Hk & Hl & Ht & Ho).
        exists k, rk. pose proof (lookup_lt_Some _ _ _ Hk) as Hlt.
        rewrite lookup_app_l by exact Hlt.
        rewrite lookup_app_l by (rewrite Hlen; exact Hlt). auto. }
      split; [|split; [|split]].
      * intros i j ri rj Hij Hi Hj Heq.
        destruct (decide (j < length reqs)%nat) as [Hjl|Hjl].
        -- rewrite lookup_app_l in Hi by lia. rewrite lookup_app_l in Hj by lia.
           destruct (Hgood i j ri rj Hij Hi Hj Heq) as (k & rk & Hkj & Hk & Ht & Ho & Hr).
           exists k, rk. rewrite lookup_app_l by lia.
           rewrite !lookup_app_l by (rewrite Hlen; lia). auto.
        -- pose proof (lookup_lt_Some _ _ _ Hj) as Hjlt.
           rewrite length_app in Hjlt. simpl in Hjlt.
           assert (j = length reqs) as -> by lia.
           rewrite list_lookup_middle in Hj by reflexivity. injection Hj as <-.
           apply find_taxon_set_Some in Hfind.
           destruct (Hd' _ _ Hfind) as (k & rk & Hk & Hl & Ht & Ho).
           exists k, rk.
           assert (k < length reqs)%nat as Hklt.
           { pose proof (lookup_lt_Some _ _ _ Hk) as Hx. rewrite length_app in Hx.
             simpl in Hx. destruct (decide (k = length reqs)) as [->|]; [|lia].
             exfalso. rewrite <- Hlen in Ho.
             rewrite list_lookup_middle in Ho by reflexivity. simpl in Ho.
             rewrite defined_id_reference in Ho. discriminate. }
           repeat split; try assumption.
           ++ rewrite Hl. exact Ho.
           ++ rewrite <- Hlen. rewrite list_lookup_middle by reflexivity.
              rewrite Hl. reflexivity.
      * intros i ri Hi.
        destruct (decide (i < length reqs)%nat) as [Hil|Hil].
        -- rewrite lookup_app_l in Hi by lia. exact (Ha i ri Hi).
        -- pose proof (lookup_lt_Some _ _ _ Hi) as Hilt.
           rewrite length_app in Hilt. simpl in Hilt.
           assert (i = length reqs) as -> by lia.
           rewrite list_lookup_middle in Hi by reflexivity. injection Hi as <-.
           exists idref. apply find_taxon_set_Some, Hfind.
      * intros l t Hin. rewrite omap_app. apply elem_of_app. left. exact (Hc l t Hin).
      * exact Hd'.
    + (* a definition: the registry gets a new entry *)
      exists (outs ++ [node]), s2.
      split; [exact (for_nodes_snoc _ _ _ _ _ _ _ _ Hrun Hemit)|].
      split; [rewrite !length_app, Hlen; reflexivity|].
      split; [congruence|].
      rewrite omap_app. simpl. rewrite Hid. simpl. intros Hnd.
      apply NoDup_app in Hnd as (Hnd & Hfresh & _).
      destruct (IH Hnd) as (Hgood & Ha & Hc & Hd).
      assert (_taxon_sets s2 = _taxon_sets s1 ++ [(r_label r, taxa_of r)]) as Hreg'.
      { rewrite Hreg. apply dict_set_fresh. intros t Hin.
        apply (Hfresh (r_label r)); [exact (Hc _ _ Hin)|apply list_elem_of_here]. }
      rewrite Hreg'.
      split; [|split; [|split]].
      * intros i j ri rj Hij Hi Hj Heq.
        destruct (decide (j < length reqs)%nat) as [Hjl|Hjl].
        -- rewrite lookup_app_l in Hi by lia. rewrite lookup_app_l in Hj by lia.
           destruct (Hgood i j ri rj Hij Hi Hj Heq) as (k & rk & Hkj & Hk & Ht & Ho & Hr).
           exists k, rk. rewrite lookup_app_l by lia.
           rewrite !lookup_app_l by (rewrite Hlen; lia). auto.
        -- pose proof (lookup_lt_Some _ _ _ Hj) as Hjlt.
           rewrite length_app in Hjlt. simpl in Hjlt.
           assert (j = length reqs) as -> by lia.
           rewrite list_lookup_middle in Hj by reflexivity. injection Hj as <-.
           rewrite lookup_app_l in Hi by lia.
           destruct (Ha i ri Hi) as (l & Hin). rewrite Heq in Hin.
           exfalso. exact (find_taxon_set_None _ _ l Hfind Hin).
      * intros i ri Hi.
        destruct (decide (i < length reqs)%nat) as [Hil|Hil].
        -- rewrite lookup_app_l in Hi by lia.
           destruct (Ha i ri Hi) as (l & Hin). exists l. apply elem_of_app. left. exact Hin.
        -- pose proof (lookup_lt_Some _ _ _ Hi) as Hilt.
           rewrite length_app in Hilt. simpl in Hilt.
           assert (i = length reqs) as -> by lia.
           rewrite list_lookup_middle in Hi by reflexivity. injection Hi as <-.
           exists (r_label r). apply elem_of_app. right. apply list_elem_of_here.
      * intros l t Hin. rewrite omap_app. apply elem_of_app.
        apply elem_of_app in Hin as [Hin|Hin].
        -- left. exact (Hc l t Hin).
        -- right. apply list_elem_of_singleton in Hin. injection Hin as -> ->.
           simpl. rewrite Hid. apply list_elem_of_here.
      * intros l t Hin. apply elem_of_app in Hin as [Hin|Hin].
        -- destruct (Hd l t Hin) as (k & rk & Hk & Hl & Ht & Ho).
           exists k, rk. pose proof (lookup_lt_Some _ _ _ Hk) as Hlt.
           rewrite lookup_app_l by exact Hlt.
           rewrite lookup_app_l by (rewrite Hlen; exact Hlt). auto.
        -- apply list_elem_of_singleton in Hin. injection Hin as -> ->.
           exists (length reqs), r.
           rewrite list_lookup_middle by reflexivity.
           rewrite <- Hlen. rewrite list_lookup_middle by reflexivity.
           simpl. auto.
Qed.

(** C1, as amended.  From a builder that has emitted no taxon set, every
    sequence of requests is answered, one node per request; and when no
    identifier is defined twice, a request with the same taxa as an
    earlier request is answered by a reference, and nothing else, to the
    identifier an earlier request defined for these taxa. *)
Theorem taxon_sets_deduplicated (c : Configuration) (reqs : list request) :
  exists outs self',
    for_nodes emit reqs (fresh_builder c) = Ok (outs, self')
    /\ length outs = length reqs
    /\ (NoDup (omap defined_id outs) -> deduplicated reqs outs).
Proof.
  destruct (emit_all_registry c reqs) as (outs & s' & Hrun & Hlen & _ & H).
  exists outs, s'. split; [exact Hrun|]. split; [exact Hlen|].
  intros Hnd. apply H, Hnd.
Qed.

(** The theorem at the tree's roster followed by two calibrated clades
    with the same two taxa, listed in different orders. *)
Lemma taxon_sets_deduplicated_witness :
  exists (outs : list Element) k rk,
    (k < 2)%nat
    /\ [ {| r_label := "taxa"; r_langs := ["x"; "y"; "z"]; r_define_taxa := true |};
         {| r_label := "a"; r_langs := ["x"; "y"]; r_define_taxa := false |};
         {| r_label := "b"; r_langs := ["y"; "x"]; r_define_taxa := false |} ] !! k
       = Some rk
    /\ taxa_of rk = list_to_set ["y"; "x"]
    /\ outs !! k ≫= defined_id = Some (r_label rk)
    /\ outs !! 2%nat = Some (reference_to (r_label rk)).
Proof.
  pose (reqs := [ {| r_label := "taxa"; r_langs := ["x"; "y"; "z"]; r_define_taxa := true |};
                  {| r_label := "a"; r_langs := ["x"; "y"]; r_define_taxa := false |};
                  {| r_label := "b"; r_langs := ["y"; "x"]; r_define_taxa := false |} ]).
  destruct (taxon_sets_deduplicated (Examples.calibrated [] []) reqs)
    as (outs & s' & Hrun & Hlen & Hdedup).
  exists outs.
  vm_compute in Hrun. injection Hrun as Houts _.
  assert (NoDup (omap defined_id outs)) as Hnd.
  { rewrite <- Houts. apply (bool_decide_unpack _). vm_compute. exact I. }
  apply (Hdedup Hnd 1%nat 2%nat
           {| r_label := "a"; r_langs := ["x"; "y"]; r_define_taxa := false |}
           {| r_label := "b"; r_langs := ["y"; "x"]; r_define_taxa := false |}).
  - lia.
  - reflexivity.
  - reflexivity.
  - apply (bool_decide_unpack _). vm_compute. exact I.
Defined.

(** Two calibrated clades with the same taxa, which are not all the taxa
    of the tree: the document defines the roster and one more taxon set,
    and refers to the latter once. *)
Example two_calibrations_one_definition :
  match __init__ Examples.env 0%nat
          (Examples.calibrated ["x"; "y"; "z"]
             [("a", Examples.cal ["x"; "y"] "normal");
              ("b", Examples.cal ["y"; "x"] "lognormal")]) with
  | Ok (_, beast) => definitions beast = ["taxa"; "a"] /\ references beast = ["a"]
  | Raise _ => False
  end.
Proof. vm_compute. split; reflexivity. Qed.

(** C1 as stated fails.  (1) Two calibrated clades whose taxa are all the
    taxa of the tree yield two references and no definition: the document
    holds the roster's definition and two references to it.  (2) When an
    identifier is requested again with other taxa, its registry entry is
    replaced, and a later request for the taxa emitted first gets a new
    definition. *)
Lemma taxon_sets_counterexample :
  match __init__ Examples.env 0%nat
          (Examples.calibrated ["x"; "y"]
             [("a", Examples.cal ["x"; "y"] "normal");
              ("b", Examples.cal ["y"; "x"] "normal")]) with
  | Ok (_, beast) =>
      definitions beast = ["taxa"] /\ references beast = ["taxa"; "taxa"]
  | Raise _ => False
  end
  /\ match for_nodes emit
             [ {| r_label := "A"; r_langs := ["x"]; r_define_taxa := false |};
               {| r_label := "A"; r_langs := ["y"]; r_define_taxa := false |};
               {| r_label := "B"; r_langs := ["x"]; r_define_taxa := false |} ]
             (fresh_builder (Examples.calibrated [] [])) with
     | Ok (outs, _) => map defined_id outs = [Some "A"; Some "A"; Some "B"]
     | Raise _ => False
     end.
Proof. split; vm_compute; [split|]; reflexivity. Qed.
End TaxonSets.

(** ** The language set *)

Section Languages.

Lemma add_languages_no_filter resolver (acc : gset string) (m : Model) :
  add_languages resolver ∅ acc m = resolver acc (taxon_set m).
Proof.
  unfold add_languages. destruct (decide (∅ ≠ ∅)) as [Hne|_]; [congruence|reflexivity].
Qed.

Lemma for_each_union (ms : list Model) (acc : gset string) :
  for_each (add_languages (fun a b => Ok (a ∪ b)) ∅) ms acc
  = Ok (acc ∪ ⋃ (taxon_set <$> ms)).
Proof.
  revert acc. induction ms as [|m ms IH]; intros acc; cbn [for_each].
  - f_equal. symmetry. apply (right_id_L ∅ (∪) acc).
  - rewrite add_languages_no_filter, IH. f_equal.
    symmetry. apply (assoc_L (∪)).
Qed.

Lemma for_each_intersection (ms : list Model) (acc : gset string) :
  exists X, for_each (add_languages (fun a b => Ok (a ∩ b)) ∅) ms acc = Ok X
            /\ forall x, x ∈ X <-> x ∈ acc /\ Forall (fun m => x ∈ taxon_set m) ms.
Proof.
  revert acc. induction ms as [|m ms IH]; intros acc; cbn [for_each].
  - exists acc. split; [reflexivity|]. intros x. split; [intros H; split; [exact H|constructor]|].
    intros [H _]. exact H.
  - rewrite add_languages_no_filter.
    destruct (IH (acc ∩ taxon_set m)) as (X & -> & HS). exists X. split; [reflexivity|].
    intros x. rewrite HS, elem_of_intersection, Forall_cons. tauto.
Qed.

Lemma for_each_error (ms : list Model) (acc : gset string) :
  match for_each (add_languages assert_compare_equal ∅) ms acc with
  | Ok X => X = acc /\ Forall (fun m => taxon_set m = acc) ms
  | Raise e => (exists msg, e = ValueError msg)
               /\ ~ Forall (fun m => taxon_set m = acc) ms
  end.
Proof.
  induction ms as [|m ms IH]; cbn [for_each].
  - split; [reflexivity|constructor].
  - rewrite add_languages_no_filter. unfold assert_compare_equal at 1.
    destruct (decide (acc ≠ taxon_set m)) as [Hne|Heq].
    + split; [eexists; reflexivity|]. intros HF. apply Forall_cons in HF as [Hm _].
      congruence.
    + assert (taxon_set m = acc) as Hm.
      { destruct (decide (acc = taxon_set m)) as [->|Hx]; [reflexivity|].
        exfalso. exact (Heq Hx). }
      destruct (for_each _ ms acc) as [X|e].
      * destruct IH as [-> HF]. split; [reflexivity|]. constructor; assumption.
      * destruct IH as [Hmsg HF]. split; [exact Hmsg|]. intros HF'.
        apply Forall_cons in HF' as [_ HF']. exact (HF HF').
Qed.

(** C4, for a configuration without a family filter.  When the filter
    is empty, combining the datasets' taxon sets left to right from the
    first gives: under [union] the union of all of them, under
    [intersection] the taxa that are in all of them, and under the
    equality policy (overlap [error]) the first set when all datasets have
    exactly the same set and a [ValueError] otherwise; for two datasets
    these are [Sa ∪ Sb], [Sa ∩ Sb] and [Sa]. *)
Theorem overlap_policies (filter : gset string) (ma : Model) (ms : list Model) :
  filter = ∅ ->
  combine_languages "union" filter (ma :: ms) = Ok (⋃ (taxon_set <$> ma :: ms))
  /\ (exists X, combine_languages "intersection" filter (ma :: ms) = Ok X
                /\ forall x, x ∈ X <-> Forall (fun m => x ∈ taxon_set m) (ma :: ms))
  /\ match combine_languages "error" filter (ma :: ms) with
     | Ok X => X = taxon_set ma /\ Forall (fun m => taxon_set m = taxon_set ma) ms
     | Raise e => (exists msg, e = ValueError msg)
                  /\ ~ Forall (fun m => taxon_set m = taxon_set ma) ms
     end
  /\ (forall mb,
        combine_languages "union" filter [ma; mb] = Ok (taxon_set ma ∪ taxon_set mb)
        /\ combine_languages "intersection" filter [ma; mb] = Ok (taxon_set ma ∩ taxon_set mb)
        /\ combine_languages "error" filter [ma; mb]
           = (if decide (taxon_set ma = taxon_set mb) then Ok (taxon_set ma)
              else assert_compare_equal (taxon_set ma) (taxon_set mb))).
Proof.
  intros ->.
  assert (forall ms' : list Model,
            combine_languages "union" ∅ (ma :: ms')
            = for_each (add_languages (fun a b => Ok (a ∪ b)) ∅) (ma :: ms') (taxon_set ma))
    as Hu by reflexivity.
  assert (forall ms' : list Model,
            combine_languages "intersection" ∅ (ma :: ms')
            = for_each (add_languages (fun a b => Ok (a ∩ b)) ∅) (ma :: ms') (taxon_set ma))
    as Hi by reflexivity.
  assert (forall ms' : list Model,
            combine_languages "error" ∅ (ma :: ms')
            = for_each (add_languages assert_compare_equal ∅) (ma :: ms') (taxon_set ma))
    as He by reflexivity.
  split; [|split; [|split]].
  - rewrite Hu, for_each_union. f_equal.
    change (⋃ (taxon_set <$> ma :: ms)) with (taxon_set ma ∪ ⋃ (taxon_set <$> ms)).
    rewrite (assoc_L (∪)), (idemp_L (∪)). reflexivity.
  - rewrite Hi.
    destruct (for_each_intersection (ma :: ms) (taxon_set ma)) as (X & HS & Hx).
    exists X. split; [exact HS|]. intros x. rewrite Hx, Forall_cons. tauto.
  - rewrite He.
    pose proof (for_each_error (ma :: ms) (taxon_set ma)) as H.
    destruct (for_each _ (ma :: ms) (taxon_set ma)) as [X|e].
    + destruct H as [-> HF]. apply Forall_cons in HF as [_ HF]. split; [reflexivity|exact HF].
    + destruct H as [Hmsg HF]. split; [exact Hmsg|]. intros HF'. apply HF.
      constructor; [reflexivity|exact HF'].
  - intros mb. rewrite Hu, Hi, He. cbn [for_each].
    rewrite !add_languages_no_filter. cbv beta iota.
    split; [f_equal; rewrite (idemp_L (∪)); reflexivity|].
    split; [f_equal; rewrite (idemp_L (∩)); reflexivity|].
    unfold assert_compare_equal at 1.
    destruct (decide (taxon_set ma ≠ taxon_set ma)) as [Hne|_]; [congruence|].
    rewrite add_languages_no_filter.
    destruct (decide (taxon_set ma = taxon_set mb)) as [Heq|Hne].
    + unfold assert_compare_equal.
      destruct (decide (taxon_set ma ≠ taxon_set mb)) as [Hne|_]; [congruence|reflexivity].
    + destruct (assert_compare_equal _ _); reflexivity.
Qed.

(** The theorem at the datasets {a, b} and {b, c}. *)
Lemma overlap_policies_witness :
  combine_languages "union" ∅
    [Examples.dataset "one" "ab.csv" ["a"; "b"]; Examples.dataset "two" "bc.csv" ["b"; "c"]]
  = Ok (taxon_set (Examples.dataset "one" "ab.csv" ["a"; "b"])
        ∪ taxon_set (Examples.dataset "two" "bc.csv" ["b"; "c"]))
  /\ combine_languages "intersection" ∅
       [Examples.dataset "one" "ab.csv" ["a"; "b"]; Examples.dataset "two" "bc.csv" ["b"; "c"]]
     = Ok (taxon_set (Examples.dataset "one" "ab.csv" ["a"; "b"])
           ∩ taxon_set (Examples.dataset "two" "bc.csv" ["b"; "c"]))
  /\ exists msg,
       combine_languages "error" ∅
         [Examples.dataset "one" "ab.csv" ["a"; "b"];
          Examples.dataset "two" "bc.csv" ["b"; "c"]]
       = Raise (ValueError msg).
Proof.
  destruct (overlap_policies ∅ (Examples.dataset "one" "ab.csv" ["a"; "b"])
              [Examples.dataset "two" "bc.csv" ["b"; "c"]] eq_refl) as (_ & _ & He & H).
  destruct (H (Examples.dataset "two" "bc.csv" ["b"; "c"])) as (Hu & Hi & _).
  split; [exact Hu|]. split; [exact Hi|].
  destruct (combine_languages "error" ∅ _) as [X|e] eqn:Hrun.
  - exfalso. destruct He as [_ HF]. apply Forall_cons in HF as [HF _].
    apply (f_equal (fun X => bool_decide ("c" ∈ X))) in HF. vm_compute in HF. discriminate.
  - destruct He as [[msg ->] _]. exists msg. reflexivity.
Defined.

(** C4 as stated fails when a family filter is in force.  With the
    filter {b}, the union of the datasets {a, b} and {b, c} is not their
    union a, b, c but a, b; the intersection of two datasets {a, b} is
    not a, b but b; and the equality policy fails on two datasets that
    have the same set {a, b}. *)
Lemma overlap_policies_counterexample :
  combine_languages "union" {[ "b" ]}
    [Examples.dataset "one" "ab.csv" ["a"; "b"]; Examples.dataset "two" "bc.csv" ["b"; "c"]]
  <> Ok (taxon_set (Examples.dataset "one" "ab.csv" ["a"; "b"])
         ∪ taxon_set (Examples.dataset "two" "bc.csv" ["b"; "c"]))
  /\ finalise_languages "union" {[ "b" ]}
       [Examples.dataset "one" "ab.csv" ["a"; "b"]; Examples.dataset "two" "bc.csv" ["b"; "c"]]
     = Ok ["a"; "b"]
  /\ combine_languages "intersection" {[ "b" ]}
       [Examples.dataset "one" "ab.csv" ["a"; "b"]; Examples.dataset "two" "ab.csv" ["a"; "b"]]
     <> Ok (taxon_set (Examples.dataset "one" "ab.csv" ["a"; "b"])
            ∩ taxon_set (Examples.dataset "two" "ab.csv" ["a"; "b"]))
  /\ finalise_languages "intersection" {[ "b" ]}
       [Examples.dataset "one" "ab.csv" ["a"; "b"]; Examples.dataset "two" "ab.csv" ["a"; "b"]]
     = Ok ["b"]
  /\ taxon_set (Examples.dataset "one" "ab.csv" ["a"; "b"])
     = taxon_set (Examples.dataset "two" "ab.csv" ["a"; "b"])
  /\ combine_languages "error" {[ "b" ]}
       [Examples.dataset "one" "ab.csv" ["a"; "b"]; Examples.dataset "two" "ab.csv" ["a"; "b"]]
     = Raise (ValueError "Values set(['a', 'b']) and set(['b']) were expected to match.").
Proof.
  split; [|split; [|split; [|split; [|split]]]].
  - intros H.
    apply (f_equal (fun r => match r with
                             | Ok X => bool_decide ("c" ∈ X)
                             | Raise _ => false
                             end)) in H.
    vm_compute in H. discriminate.
  - vm_compute. reflexivity.
  - intros H.
    apply (f_equal (fun r => match r with
                             | Ok X => bool_decide ("a" ∈ X)
                             | Raise _ => false
                             end)) in H.
    vm_compute in H. discriminate.
  - vm_compute. reflexivity.
  - reflexivity.
  - vm_compute. reflexivity.
Qed.

(** The scenario of the specification: three datasets with the taxon sets
    {a,b}, {b,c}, {a,c} under [union] give {a,b,c}. *)
Example union_of_three :
  finalise_languages "union" ∅
    [Examples.dataset "one" "ab.csv" ["a"; "b"];
     Examples.dataset "two" "bc.csv" ["b"; "c"];
     Examples.dataset "three" "ac.csv" ["a"; "c"]]
  = Ok ["a"; "b"; "c"].
Proof. vm_compute. reflexivity. Qed.
End Languages.

(** ** The builder and the configuration *)

Section Frame.
Variable E : Beastxml.Env.

Lemma same_config_refl s : same_config s s.
Proof. reflexivity. Qed.

Lemma same_config_trans s1 s2 s3 :
  same_config s1 s2 -> same_config s2 s3 -> same_config s1 s3.
Proof. unfold same_config. congruence. Qed.

Lemma add_taxon_set_same_config label ls define_taxa :
  keeps same_config (add_taxon_set label ls define_taxa).
Proof.
  intros s a s'. unfold add_taxon_set.
  destruct (find_taxon_set _ _); intros [= _ <-]; reflexivity.
Qed.

Ltac frame base :=
  keeps_with same_config_refl same_config_trans
             ltac:(first [apply add_taxon_set_same_config | base]).

Lemma add_beastling_comment_same_config : keeps same_config (add_beastling_comment E).
Proof. unfold add_beastling_comment. frame fail. Qed.

Lemma embed_data_same_config : keeps same_config (embed_data_ E).
Proof. unfold embed_data_, format_data_file, config_models. frame fail. Qed.

Lemma add_maps_same_config : keeps same_config (add_maps E).
Proof. unfold add_maps. frame fail. Qed.

Lemma add_state_same_config : keeps same_config (add_state E).
Proof.
  unfold add_state, add_tree_state, config_clocks, config_all_models. frame fail.
Qed.

Lemma add_init_same_config : keeps same_config add_init.
Proof.
  unfold add_init, add_constrainedrandomtree_init, add_simplerandomtree_init,
    add_randomtree_init. frame fail.
Qed.

Lemma add_distributions_same_config : keeps same_config (add_distributions E).
Proof.
  unfold add_distributions, add_prior, add_likelihood, add_monophyly_constraints,
    add_calibrations, add_calibration, add_tree_prior, config_clocks, config_all_models.
  frame fail.
Qed.

Lemma add_operators_same_config : keeps same_config (add_operators E).
Proof.
  unfold add_operators, add_tree_operators, delta_exchange, config_clocks,
    config_all_models, config_models.
  frame fail.
Qed.

Lemma add_tracer_logger_same_config : keeps same_config (add_tracer_logger E).
Proof. unfold add_tracer_logger, config_clocks, config_all_models. frame fail. Qed.

Lemma add_tree_loggers_same_config : keeps same_config add_tree_loggers.
Proof. unfold add_tree_loggers, add_tree_logger. frame fail. Qed.

Lemma add_loggers_same_config : keeps same_config (add_loggers E).
Proof.
  unfold add_loggers, add_screen_logger.
  frame ltac:(first [ apply add_tracer_logger_same_config
                    | apply add_tree_loggers_same_config ]).
Qed.

Lemma build_xml_same_config : keeps same_config (build_xml E).
Proof.
  unfold build_xml, add_run, config_models, config_clocks.
  frame ltac:(first [ apply add_beastling_comment_same_config
                    | apply embed_data_same_config
                    | apply add_maps_same_config
                    | apply add_state_same_config
                    | apply add_init_same_config
                    | apply add_distributions_same_config
                    | apply add_operators_same_config
                    | apply add_loggers_same_config ]).
Qed.

Lemma lookup_foldl_alter {V} (f : V -> V) (refs : list oid) (objs : gmap oid V) (i : oid) :
  (forall v, f (f v) = f v) ->
  foldl (fun objs o => alter f o objs) objs refs !! i
  = if decide (i ∈ refs) then f <$> objs !! i else objs !! i.
Proof.
  intros Hidem. revert objs. induction refs as [|o refs IH]; intros objs; simpl.
  - destruct (decide (i ∈ [])) as [Hin|_]; [inversion Hin|reflexivity].
  - rewrite IH. destruct (decide (o = i)) as [->|Hne].
    + rewrite lookup_alter_eq.
      destruct (decide (i ∈ refs)), (decide (i ∈ i :: refs)) as [|Hn];
        try reflexivity; try (exfalso; apply Hn; apply list_elem_of_here).
      destruct (objs !! i); simpl; [rewrite Hidem|]; reflexivity.
    + rewrite lookup_alter_ne by exact Hne.
      destruct (decide (i ∈ refs)) as [Hin|Hin], (decide (i ∈ o :: refs)) as [Hin'|Hin'];
        try reflexivity.
      * exfalso. apply Hin'. apply list_elem_of_further, Hin.
      * exfalso. apply elem_of_cons in Hin' as [->|Hin']; [congruence|exact (Hin Hin')].
Qed.

(** C5, as amended.  Building the document from a processed configuration
    leaves every attribute of the configuration as it was and the model
    and clock objects as they were, except that the builder writes a
    reference to itself into the [beastxml] attribute of every model of
    [all_models] and of every clock of [clocks]. *)
Theorem builder_writes_back_references (self_ : oid) (c : Configuration)
    (b : BeastXml) (beast : Element) :
  processed c = true ->
  __init__ E self_ c = Ok (b, beast) ->
  settings (config b) = settings c
  /\ processed (config b) = processed c
  /\ messages (config b) = messages c
  /\ message_flags (config b) = message_flags c
  /\ log_every (config b) = log_every c
  /\ families (config b) = families c
  /\ starting_tree (config b) = starting_tree c
  /\ model_configs (config b) = model_configs c
  /\ classifications (config b) = classifications c
  /\ lang_filter (config b) = lang_filter c
  /\ models (config b) = models c
  /\ languages (config b) = languages c
  /\ (forall i,
        model_objects (config b) !! i
        = if decide (i ∈ all_models (settings c))
          then set_m_beastxml self_ <$> model_objects c !! i
          else model_objects c !! i)
  /\ (forall i,
        clock_objects (config b) !! i
        = if decide (i ∈ clocks (settings c))
          then set_c_beastxml self_ <$> clock_objects c !! i
          else clock_objects c !! i).
Proof.
  intros Hp. unfold __init__. rewrite Hp. simpl negb. cbv iota.
  unfold mbind at 1, result_bind. unfold mbind, result_bind.
  destruct (build_xml E _) as [[beast' s']|e] eqn:Hbuild; [|discriminate].
  intros Hret. injection Hret as <- <-.
  apply build_xml_same_config in Hbuild. unfold same_config in Hbuild. simpl in Hbuild.
  rewrite Hbuild. simpl.
  repeat (split; [first [reflexivity|exact Hp]|]).
  split; intros i; apply lookup_foldl_alter; intros []; reflexivity.
Qed.

End Frame.

(** The theorem at a configuration with one model and one clock. *)
Lemma builder_writes_back_references_witness :
  match __init__ Examples.env 7%nat Examples.processed_basic with
  | Ok (b, _) =>
      settings (config b) = settings Examples.processed_basic
      /\ languages (config b) = languages Examples.processed_basic
      /\ model_objects (config b) !! 0%nat
         = set_m_beastxml 7%nat <$> model_objects Examples.processed_basic !! 0%nat
  | Raise _ => False
  end.
Proof.
  destruct (__init__ Examples.env 7%nat Examples.processed_basic) as [[b beast]|e] eqn:Hrun.
  - destruct (builder_writes_back_references Examples.env 7%nat Examples.processed_basic
                b beast eq_refl Hrun)
      as (Hs & _ & _ & _ & _ & _ & _ & _ & _ & _ & _ & Hl & Hm & _).
    split; [exact Hs|]. split; [exact Hl|].
    pose proof (Hm 0%nat) as H0.
    destruct (decide (0%nat ∈ all_models (settings Examples.processed_basic))) as [_|Hn];
      [exact H0|].
    exfalso. apply Hn. apply list_elem_of_here.
  - vm_compute in Hrun. discriminate.
Defined.

(** C5 as stated fails: the builder assigns to the [beastxml] attribute of
    the configuration's model (and clock) objects, so the configuration is
    not what it was when assembly began. *)
Lemma builder_changes_configuration :
  match __init__ Examples.env 7%nat Examples.processed_basic with
  | Ok (b, _) =>
      model_objects Examples.processed_basic !! 0%nat ≫= m_beastxml = None
      /\ model_objects (config b) !! 0%nat ≫= m_beastxml = Some 7%nat
      /\ clock_objects (config b) !! 0%nat ≫= c_beastxml = Some 7%nat
      /\ config b <> Examples.processed_basic
  | Raise _ => False
  end.
Proof.
  destruct (__init__ Examples.env 7%nat Examples.processed_basic) as [[b beast]|e] eqn:Hrun;
    vm_compute in Hrun; [|discriminate].
  injection Hrun as <- _.
  split; [reflexivity|]. split; [reflexivity|]. split; [reflexivity|].
  intros H. apply (f_equal (fun c => model_objects c !! 0%nat ≫= m_beastxml)) in H.
  vm_compute in H. discriminate.
Qed.

(** ** The resolution pass *)

Section Process.
Variable E : Configuration.Env.

Lemma for_each_invariant {A S} (body : S -> A -> result S) (I : S -> Prop) xs s s' :
  (forall s x s', I s -> body s x = Ok s' -> I s') ->
  I s -> for_each body xs s = Ok s' -> I s'.
Proof.
  intros Hbody. revert s. induction xs as [|x xs IH]; simpl; intros s Hs.
  - intros [= <-]. exact Hs.
  - destruct (body s x) as [s1|e] eqn:Hx; [|discriminate].
    apply IH. exact (Hbody _ _ _ Hs Hx).
Qed.

Lemma same_options_refl a : same_options a a.
Proof. repeat split. Qed.

Lemma same_options_trans a b c :
  same_options a b -> same_options b c -> same_options a c.
Proof.
  unfold same_options. intros (?&?&?&?&?&?) (?&?&?&?&?&?). repeat split; congruence.
Qed.

Lemma same_options_message a msg : same_options a (message a msg).
Proof. repeat split. Qed.

Lemma same_options_set_messages a v : same_options a (set_messages a v).
Proof. repeat split. Qed.

Lemma same_options_notice_once a flag notice : same_options a (notice_once a flag notice).
Proof. unfold notice_once. destruct (negb _); repeat split. Qed.

Lemma same_options_models_append a m : same_options a (models_append a m).
Proof. repeat split. Qed.

Lemma instantiate_model_same_options self made config self' made' :
  instantiate_model E (self, made) config = Ok (self', made') ->
  same_options self self'.
Proof.
  unfold instantiate_model. unfold mbind, result_bind.
  destruct (negb (dict_has config "model"));
    [destruct (dict_item config "name"); discriminate|].
  destruct (negb (dict_has config "data"));
    [destruct (dict_item config "name"); discriminate|].
  destruct (dict_item config "model") as [mv|]; [|discriminate].
  destruct (as_str mv) as [kind|]; [|discriminate].
  match goal with
  | |- context [match ?x with Ok _ => _ | Raise _ => _ end] =>
      destruct x as [[model c]|] eqn:Hmake; [|discriminate]
  end.
  assert (same_options self c) as Hc.
  { destruct (String.eqb (lower kind) "bsvs").
    { destruct (BSVSModel E config self); [|discriminate].
      injection Hmake as _ <-. apply same_options_notice_once. }
    destruct (String.eqb (lower kind) "covarion").
    { destruct (CovarionModel E config self); [|discriminate].
      injection Hmake as _ <-. apply same_options_refl. }
    destruct (String.eqb (lower kind) "mk").
    { destruct (MKModel E config self); [|discriminate].
      injection Hmake as _ <-. apply same_options_notice_once. }
    destruct (dict_item config "name"); discriminate. }
  match goal with
  | |- context [match ?x with Ok _ => _ | Raise _ => _ end] =>
      destruct x as [c'|] eqn:Hdep; [|discriminate]
  end.
  assert (same_options c c') as Hc'.
  { destruct (negb (String.eqb (lower kind) "covarion")).
    - destruct (dict_item config "name"); [|discriminate].
      injection Hdep as <-. apply same_options_message.
    - injection Hdep as <-. apply same_options_refl. }
  intros [= <- _].
  eapply same_options_trans; [exact Hc|].
  eapply same_options_trans; [exact Hc'|].
  eapply same_options_trans; [apply same_options_set_messages|].
  apply same_options_models_append.
Qed.

Lemma instantiate_models_same_options self self' made :
  instantiate_models E self = Ok (self', made) -> same_options self self'.
Proof.
  unfold instantiate_models. intros H.
  apply (for_each_invariant (instantiate_model E)
           (fun st => same_options self (fst st)) _ _ _) in H; [exact H| |apply same_options_refl].
  intros [s m] x [s1 m1] Hs Hx. simpl in *.
  eapply same_options_trans; [exact Hs|].
  exact (instantiate_model_same_options _ _ _ _ _ Hx).
Qed.

(** What [prepare] sets. *)
Lemma prepare_sets self self1 :
  prepare E self = Ok self1 ->
  settings self1 = settings self
  /\ log_every self1 = derive_log_every (log_every self) (chainlength (settings self))
  /\ (exists l, families self1 = FList l)
  /\ processed self1 = processed self.
Proof.
  unfold prepare. unfold mbind, result_bind.
  destruct (process_families _) as [fam|e]; [|discriminate].
  destruct (glottolog E _) as [cls|e]; [|discriminate].
  destruct (bool_decide _); [discriminate|].
  intros [= <-]. simpl.
  destruct (monophyly (settings self) && negb (truthy (starting_tree self)));
    repeat split; eexists; reflexivity.
Qed.

(** The stages of a pass that succeeds. *)
Lemma process_stages self self' :
  process E self = Ok self' ->
  exists self1 self2 made ls,
    prepare E self = Ok self1
    /\ instantiate_models E self1 = Ok (self2, made)
    /\ finalise_languages (overlap (settings self2)) (lang_filter self2) made = Ok ls
    /\ settings self' = settings self2
    /\ log_every self' = log_every self2
    /\ families self' = families self2
    /\ languages self' = ls
    /\ processed self' = true.
Proof.
  unfold process. unfold mbind, result_bind.
  destruct (prepare E self) as [self1|e] eqn:H1; [|discriminate].
  destruct (instantiate_models E self1) as [[self2 made]|e] eqn:H2; [|discriminate].
  destruct (finalise_languages _ _ made) as [ls|e] eqn:H3; [|discriminate].
  intros [= <-]. exists self1, self2, made, ls.
  split; [reflexivity|]. split; [exact H2|]. split; [exact H3|]. repeat split.
Qed.
End Process.

(** ** The loggers *)

Section Loggers.
Variable E : Beastxml.Env.

Lemma emits_nothing P : emits P nothing.
Proof. intros s nodes s' [= <- <-]. split; [constructor|reflexivity]. Qed.

Lemma emits_app P (m1 m2 : M (list Element)) :
  emits P m1 -> emits P m2 ->
  emits P (a ← m1; b ← m2; mret (a ++ b)).
Proof.
  intros H1 H2 s nodes s' H.
  apply M_bind_Ok in H as (a & s1 & Ha & H).
  apply M_bind_Ok in H as (b & s2 & Hb & H).
  injection H as <- <-.
  destruct (H1 _ _ _ Ha) as [Fa Ca]. destruct (H2 _ _ _ Hb) as [Fb Cb].
  split; [|congruence]. apply Forall_app. split; [exact Fa|].
  rewrite <- Ca. exact Fb.
Qed.

Lemma emits_for_nodes {A} P (body : A -> M (list Element)) xs :
  (forall x, emits P (body x)) -> emits P (for_nodes body xs).
Proof.
  intros Hbody. induction xs as [|x xs IH]; simpl.
  - apply emits_nothing.
  - apply emits_app; [apply Hbody|exact IH].
Qed.

Lemma add_screen_logger_logs_every : emits logs_every add_screen_logger.
Proof.
  intros s nodes s'. unfold add_screen_logger. run_M.
  destruct (negb (screenlog (settings (config s)))); run_M; intros [= <- <-].
  - split; [constructor|reflexivity].
  - split; [|reflexivity]. repeat constructor.
Qed.

Lemma add_tracer_logger_logs_every : emits logs_every (add_tracer_logger E).
Proof.
  intros s nodes s' H.
  split; [|exact (add_tracer_logger_same_config E _ _ _ H)]. revert H.
  unfold add_tracer_logger. run_M.
  destruct (negb _); run_M; [intros [= <- _]; constructor|].
  match goal with
  | |- context [match ?x with Ok _ => _ | Raise _ => _ end] =>
      destruct x as [[params s1]|]; [|discriminate]
  end.
  intros [= <- _]. repeat constructor.
Qed.

Lemma add_tree_logger_logs_every suffix branchrate_model_id locations :
  emits logs_every (add_tree_logger suffix branchrate_model_id locations).
Proof.
  intros s nodes s'. unfold add_tree_logger. run_M. intros [= <- <-].
  split; [|reflexivity]. repeat constructor.
Qed.

Lemma add_tree_loggers_logs_every : emits logs_every add_tree_loggers.
Proof.
  intros s nodes s' H.
  split; [|exact (add_tree_loggers_same_config _ _ _ H)]. revert H.
  unfold add_tree_loggers. intros H.
  apply M_bind_Ok in H as (c & s0 & Hc & H). injection Hc as <- <-. unfold id in H.
  destruct (negb _); [injection H as <- _; constructor|].
  apply M_bind_Ok in H as ([rates done] & s1 & Hrates & H).
  apply M_bind_Ok in H as (pure & s2 & Hpure & H).
  apply M_bind_Ok in H as (geo & s3 & Hgeo & H).
  injection H as <- <-.
  assert (Forall (logs_every (config s)) rates /\ config s1 = config s) as [Fr Cr].
  { destruct (bool_decide (non_strict_clocks (config s) = [])).
    - apply M_bind_Ok in Hrates as (a & sa & Ha & Hr). injection Hr as <- _ <-.
      exact (add_tree_logger_logs_every _ _ _ _ _ _ Ha).
    - apply M_bind_Ok in Hrates as (a & sa & Ha & Hr). injection Hr as <- _ <-.
      revert Ha. apply emits_for_nodes. intros clock.
      destruct (bool_decide _); apply add_tree_logger_logs_every. }
  assert (Forall (logs_every (config s1)) pure /\ config s2 = config s1) as [Fp Cp].
  { destruct (log_pure_tree (settings (config s)) && negb done).
    - exact (add_tree_logger_logs_every _ _ _ _ _ _ Hpure).
    - exact (emits_nothing _ _ _ _ Hpure). }
  assert (Forall (logs_every (config s2)) geo /\ config s3 = config s2) as [Fg Cg].
  { destruct (geo_config (settings (config s))) as [log_locations|];
      [|exact (emits_nothing _ _ _ _ Hgeo)].
    destruct (geo_clock (config s)) as [clock|]; [|exact (emits_nothing _ _ _ _ Hgeo)].
    destruct (log_locations || negb (is_strict clock)).
    - exact (add_tree_logger_logs_every _ _ _ _ _ _ Hgeo).
    - exact (emits_nothing _ _ _ _ Hgeo). }
  rewrite Cp, Cr in Fg. rewrite Cr in Fp.
  repeat (apply Forall_app; split); assumption.
Qed.

(** Every logger the builder adds carries the configuration's interval. *)
Lemma add_loggers_logs_every : emits logs_every (add_loggers E).
Proof.
  unfold add_loggers. intros s nodes s' H.
  apply M_bind_Ok in H as (screen & s1 & Hs & H).
  apply M_bind_Ok in H as (tracer & s2 & Ht & H).
  apply M_bind_Ok in H as (trees & s3 & Hr & H).
  injection H as <- <-.
  destruct (add_screen_logger_logs_every _ _ _ Hs) as [Fs Cs].
  destruct (add_tracer_logger_logs_every _ _ _ Ht) as [Ft Ct].
  destruct (add_tree_loggers_logs_every _ _ _ Hr) as [Fr Cr].
  rewrite Ct, Cs in Fr. rewrite Cs in Ft.
  split; [|congruence]. repeat (apply Forall_app; split); assumption.
Qed.
End Loggers.

(** ** What the resolution pass leaves behind *)

Lemma combine_union_filtered (filter : gset string) (ma : Model) (ms : list Model) :
  filter ≠ ∅ ->
  combine_languages "union" filter (ma :: ms)
  = Ok (taxon_set ma ∪ ⋃ ((fun m => taxon_set m ∩ filter) <$> ma :: ms)).
Proof.
  intros Hf.
  assert (forall (l : list Model) acc,
            for_each (add_languages (fun a b => Ok (a ∪ b)) filter) l acc
            = Ok (acc ∪ ⋃ ((fun m => taxon_set m ∩ filter) <$> l))) as Hloop.
  { induction l as [|m l IH]; intros acc; cbn [for_each].
    - f_equal. symmetry. apply (right_id_L ∅ (∪) acc).
    - unfold add_languages at 1. destruct (decide (filter ≠ ∅)) as [_|Hn]; [|contradiction].
      rewrite IH. f_equal. symmetry. apply (assoc_L (∪)). }
  exact (Hloop (ma :: ms) (taxon_set ma)).
Qed.

Lemma sorted_elements_nonempty (X : gset string) : X ≠ ∅ -> sorted (elements X) ≠ [].
Proof.
  intros HX Hs. apply HX. apply leibniz_equiv, elements_empty_inv.
  unfold sorted in Hs.
  pose proof (merge_sort_Permutation String.le (elements X)) as Hp.
  rewrite Hs in Hp. symmetry in Hp. apply Permutation_nil_r in Hp. rewrite Hp. reflexivity.
Qed.

(** A successful pass leaves a list of languages that is not empty. *)
Lemma process_languages_nonempty (E : Configuration.Env) self self' :
  process E self = Ok self' -> languages self' ≠ [].
Proof.
  intros H. apply process_stages in H as (s1 & s2 & made & ls & _ & _ & Hf & _ & _ & _ & <- & _).
  unfold finalise_languages in Hf. unfold mbind, result_bind in Hf.
  destruct (combine_languages _ _ made) as [X|]; [|discriminate].
  destruct (decide (X = ∅)); [discriminate|]. injection Hf as <-.
  apply sorted_elements_nonempty. assumption.
Qed.

(** C9.  The pass does not fail whenever combining the datasets and then
    applying the family filter leaves no language.  Under [union] with a
    family filter in force the languages of the first dataset are all
    kept, in the filter or not: when no language of any dataset is in the
    filter and the first dataset has a language, the pass succeeds, and
    its languages are those of the first dataset, none of which is in the
    filter.  (The languages of the other datasets are cut down to the
    filter, and so are all of them under [intersection]: "Apply
    family-based filtering", as the source has it.) *)
Theorem filter_leaves_first_dataset (E : Configuration.Env)
    (self self1 self2 : Configuration) (ma : Model) (ms : list Model) :
  prepare E self = Ok self1 ->
  instantiate_models E self1 = Ok (self2, ma :: ms) ->
  overlap (settings self) = "union" ->
  lang_filter self1 ≠ ∅ ->
  taxon_set ma ≠ ∅ ->
  (⋃ (taxon_set <$> ma :: ms)) ∩ lang_filter self1 = ∅ ->
  exists self',
    process E self = Ok self'
    /\ languages self' = sorted (elements (taxon_set ma))
    /\ languages self' ≠ []
    /\ lang_filter self' = lang_filter self1
    /\ Forall (fun l => l ∉ lang_filter self') (languages self').
Proof.
  intros H1 H2 Hunion HF Hma Hnone.
  destruct (prepare_sets E _ _ H1) as (Hs1 & _).
  destruct (instantiate_models_same_options E _ _ _ H2) as (Hs2 & _ & _ & _ & Hf2 & _).
  assert (combine_languages "union" (lang_filter self1) (ma :: ms) = Ok (taxon_set ma)) as Hc.
  { rewrite (combine_union_filtered _ ma ms HF). f_equal.
    apply leibniz_equiv. intros x. rewrite elem_of_union, elem_of_union_list. split.
    - intros [Hx|(Y & HY & Hx)]; [exact Hx|exfalso].
      apply list_elem_of_fmap in HY as (m & -> & Hm).
      apply elem_of_intersection in Hx as [Hx HxF].
      assert (x ∈ (⋃ (taxon_set <$> ma :: ms)) ∩ lang_filter self1) as Hin.
      { apply elem_of_intersection. split; [|exact HxF].
        apply elem_of_union_list. exists (taxon_set m). split; [|exact Hx].
        apply list_elem_of_fmap. exists m. split; [reflexivity|exact Hm]. }
      rewrite Hnone in Hin. exact (not_elem_of_empty x Hin).
    - intros Hx. left. exact Hx. }
  unfold process, mbind, result_bind. rewrite H1, H2.
  rewrite Hs2, Hs1, Hunion, Hf2.
  unfold finalise_languages, mbind, result_bind. rewrite Hc.
  destruct (decide (taxon_set ma = ∅)) as [He|_]; [contradiction|].
  eexists. split; [reflexivity|]. cbn [languages lang_filter].
  split; [reflexivity|]. split; [apply sorted_elements_nonempty, Hma|].
  unfold message, set_messages. cbn [lang_filter].
  split; [exact Hf2|]. rewrite Hf2.
  apply Forall_forall. intros l Hl Hin.
  unfold sorted in Hl. rewrite merge_sort_Permutation in Hl. apply elem_of_elements in Hl.
  assert (l ∈ (⋃ (taxon_set <$> ma :: ms)) ∩ lang_filter self1) as Hboth.
  { apply elem_of_intersection. split; [|exact Hin].
    apply elem_of_union_list. exists (taxon_set ma). split; [|exact Hl].
    apply list_elem_of_fmap. exists ma. split; [reflexivity|apply list_elem_of_here]. }
  rewrite Hnone in Hboth. exact (not_elem_of_empty l Hboth).
Qed.

(** The theorem at a configuration that asks for the family [Zfam], whose
    only language [z] is in neither dataset: the pass succeeds with the
    languages of the first dataset. *)
Lemma filter_leaves_first_dataset_witness :
  exists self',
    process Instances.family_env Instances.other_family = Ok self'
    /\ languages self' = ["a"; "b"]
    /\ elements (lang_filter self') = ["z"]
    /\ processed self' = true.
Proof.
  destruct (prepare Instances.family_env Instances.other_family) as [self1|] eqn:H1;
    [|vm_compute in H1; discriminate].
  destruct (instantiate_models Instances.family_env self1) as [[self2 made]|] eqn:H2;
    [|vm_compute in H1; injection H1 as <-; vm_compute in H2; discriminate].
  assert (made = [Examples.dataset "one" "ab.csv" ["a"; "b"];
                  Examples.dataset "two" "bc.csv" ["b"; "c"]]) as Hmade.
  { vm_compute in H1. injection H1 as <-. vm_compute in H2. injection H2 as _ <-.
    reflexivity. }
  assert (elements (lang_filter self1) = ["z"]) as Hz.
  { vm_compute in H1. injection H1 as <-. vm_compute. reflexivity. }
  subst made.
  destruct (filter_leaves_first_dataset Instances.family_env Instances.other_family
              self1 self2 _ _ H1 H2) as (self' & Hrun & Hl & _ & Hf & _).
  - reflexivity.
  - intros He. rewrite He in Hz. vm_compute in Hz. discriminate.
  - intros He. apply (f_equal elements) in He. vm_compute in He. discriminate.
  - apply leibniz_equiv. intros x. rewrite elem_of_intersection, <- (elem_of_elements (lang_filter self1)), Hz.
    split; [|intros Hx; exfalso; exact (not_elem_of_empty x Hx)].
    intros [Hx Hxz]. apply list_elem_of_singleton in Hxz. subst x.
    assert (bool_decide
              ("z" ∈ ⋃ (taxon_set <$> [Examples.dataset "one" "ab.csv" ["a"; "b"];
                                       Examples.dataset "two" "bc.csv" ["b"; "c"]]))
            = false) as Hno by (vm_compute; reflexivity).
    apply bool_decide_eq_false in Hno. exfalso. exact (Hno Hx).
  - exists self'. split; [exact Hrun|]. split; [rewrite Hl; vm_compute; reflexivity|].
    split; [rewrite Hf; exact Hz|].
    apply process_stages in Hrun as (_ & _ & _ & _ & _ & _ & _ & _ & _ & _ & _ & Hp). exact Hp.
Defined.

(** C6.  A second pass over the configuration a successful pass leaves
    behind does not succeed: [self.families] is then a list, and
    [os.path.exists] of a list raises a [TypeError].  (The tests want a
    second [process()] to be harmless.) *)
Theorem process_twice_fails (E : Configuration.Env) (self self' : Configuration) :
  process E self = Ok self' ->
  exists msg, process E self' = Raise (TypeError msg).
Proof.
  intros H.
  apply process_stages in H as (s1 & s2 & made & ls & H1 & H2 & _ & _ & _ & Hfam & _).
  apply prepare_sets in H1 as (_ & _ & (l & Hl) & _).
  apply instantiate_models_same_options in H2 as (_ & _ & Hf2 & _).
  assert (families self' = FList l) as Hfl by congruence.
  eexists. unfold process, prepare, mbind, result_bind.
  assert (forall c msg, families (message c msg) = families c) as Hm by reflexivity.
  destruct (monophyly (settings self') && negb (truthy (starting_tree self')));
    rewrite ?Hm, Hfl; reflexivity.
Qed.

(** The theorem at the default configuration with one model. *)
Lemma process_twice_fails_witness :
  exists self',
    process Examples.cenv Examples.basic = Ok self'
    /\ exists msg, process Examples.cenv self' = Raise (TypeError msg).
Proof.
  destruct (process Examples.cenv Examples.basic) as [self'|] eqn:H;
    [|vm_compute in H; discriminate].
  exists self'. split; [reflexivity|].
  exact (process_twice_fails Examples.cenv Examples.basic self' H).
Defined.

(** ** The logging interval *)

Lemma derive_log_every_nonzero (log_every chainlength : Z) :
  derive_log_every log_every chainlength <> 0.
Proof.
  unfold derive_log_every.
  destruct (log_every =? 0) eqn:H0.
  - destruct (chainlength / 10000 =? 0) eqn:H1; [discriminate|].
    apply Z.eqb_neq, H1.
  - apply Z.eqb_neq, H0.
Qed.

Lemma derive_log_every_positive (log_every chainlength : Z) :
  1 <= derive_log_every log_every chainlength
  <-> 0 < log_every \/ (log_every = 0 /\ 0 <= chainlength).
Proof.
  unfold derive_log_every.
  destruct (log_every =? 0) eqn:H0.
  - apply Z.eqb_eq in H0. subst log_every.
    destruct (chainlength / 10000 =? 0) eqn:H1.
    + apply Z.eqb_eq in H1. split; [|lia]. intros _. right. split; [reflexivity|].
      destruct (Z.le_gt_cases 0 chainlength) as [|Hneg]; [assumption|].
      assert (chainlength / 10000 < 0) by (apply Z.div_lt_upper_bound; lia). lia.
    + apply Z.eqb_neq in H1. split.
      * intros Hpos. right. split; [reflexivity|].
        destruct (Z.le_gt_cases 0 chainlength) as [|Hneg]; [assumption|].
        assert (chainlength / 10000 < 0) by (apply Z.div_lt_upper_bound; lia). lia.
      * intros [Hl|[_ Hc]]; [lia|].
        assert (0 <= chainlength / 10000) by (apply Z.div_pos; lia). lia.
  - apply Z.eqb_neq in H0. lia.
Qed.

Lemma str_int_zero (n : Z) : n <> 0 -> str_int n <> "0".
Proof.
  intros Hn Hs. apply Hn. apply (inj pretty). exact Hs.
Qed.

(** C10, as amended.  After a successful pass the logging interval is the
    configured one when that is not zero, and otherwise the chain length
    divided by 10000 (rounded down), replaced by 1 when this is zero.  It is
    never zero, so no logger of the document has a zero interval; it is at
    least 1 exactly when the configured interval is positive, or is zero
    and the chain length is not negative. *)
Theorem log_every_after_process (B : Beastxml.Env) (self self' : Configuration) :
  process (cenv B) self = Ok self' ->
  log_every self' = derive_log_every (log_every self) (chainlength (settings self))
  /\ log_every self' <> 0
  /\ (1 <= log_every self'
      <-> 0 < log_every self \/ (log_every self = 0 /\ 0 <= chainlength (settings self)))
  /\ (forall b nodes b',
        config b = self' -> add_loggers B b = Ok (nodes, b') ->
        Forall (fun logger => exists v, get logger "logEvery" = Some v /\ v <> "0") nodes).
Proof.
  intros H.
  apply process_stages in H as (s1 & s2 & made & ls & H1 & H2 & _ & _ & Hlog & _).
  apply prepare_sets in H1 as (_ & Hl1 & _).
  apply instantiate_models_same_options in H2 as (_ & Hl2 & _).
  assert (log_every self' = derive_log_every (log_every self) (chainlength (settings self)))
    as Hd by congruence.
  split; [exact Hd|]. split; [rewrite Hd; apply derive_log_every_nonzero|].
  split; [rewrite Hd; apply derive_log_every_positive|].
  intros b nodes b' Hb Hrun.
  destruct (add_loggers_logs_every B _ _ _ Hrun) as [HF _].
  eapply Forall_impl; [exact HF|].
  intros logger [_ Hget]. eexists. split; [exact Hget|].
  apply str_int_zero. rewrite Hb, Hd. apply derive_log_every_nonzero.
Qed.

(** The theorem at the default configuration with a chain of 5000 steps. *)
Lemma log_every_after_process_witness :
  exists self',
    process Examples.cenv
      (Examples.with_settings (Examples.settings_with 5000 "union") 0
         [Examples.model_section "m" "ab.csv"]) = Ok self'
    /\ log_every self' = 1
    /\ log_every self' <> 0.
Proof.
  destruct (process Examples.cenv
              (Examples.with_settings (Examples.settings_with 5000 "union") 0
                 [Examples.model_section "m" "ab.csv"])) as [self'|] eqn:H;
    [|vm_compute in H; discriminate].
  exists self'. split; [reflexivity|].
  destruct (log_every_after_process Examples.env _ self' H) as (Hd & Hnz & _).
  split; [exact Hd|exact Hnz].
Defined.

(** C10 as stated fails: a configured interval below zero is kept, and a
    chain length below zero gives an interval below zero. *)
Lemma log_every_counterexample :
  match process Examples.cenv
          (Examples.with_settings Examples.default_settings (-5)
             [Examples.model_section "m" "ab.csv"]) with
  | Ok self' => log_every self' = -5 /\ ~ 1 <= log_every self'
  | Raise _ => False
  end
  /\ match process Examples.cenv
             (Examples.with_settings (Examples.settings_with (-1) "union") 0
                [Examples.model_section "m" "ab.csv"]) with
     | Ok self' => log_every self' = -1 /\ ~ 1 <= log_every self'
     | Raise _ => False
     end.
Proof. split; vm_compute; (split; [reflexivity|]); intros H; apply H; reflexivity. Qed.

(** ** Duplicate records *)

Section Duplicates.
Import Datareaders.

Lemma language_column_in_header reader lang_column filename col :
  language_column reader lang_column filename = Ok col -> col ∈ fieldnames reader.
Proof.
  unfold language_column.
  match goal with
  | |- match ?x with _ => _ end = _ -> _ => destruct x as [c0|]; [|discriminate]
  end.
  destruct (negb (truthy c0)); [discriminate|]. simpl.
  destruct (bool_decide (c0 ∈ fieldnames reader)) eqn:Hin; [|discriminate].
  intros [= <-]. apply bool_decide_eq_true in Hin. exact Hin.
Qed.

Lemma language_column_error reader lang_column filename e :
  language_column reader lang_column filename = Raise e -> exists msg, e = ValueError msg.
Proof.
  unfold language_column.
  match goal with
  | |- match ?x with _ => _ end = _ -> _ => destruct x as [c0|]
  end.
  - destruct (_ || _); [|discriminate]. intros [= <-]. eexists. reflexivity.
  - intros [= <-]. eexists. reflexivity.
Qed.

(** A record whose language is already loaded stops the loop. *)
Lemma beastling_rows_seen col filename (rs : list Row) (acc : Data) :
  Forall (fun r : Row => is_Some (r !! col)) rs ->
  (exists r l, r ∈ rs /\ r !! col = Some l /\ is_Some (acc !! l)) ->
  exists msg, for_each (beastling_row col filename) rs acc = Raise (ValueError msg).
Proof.
  revert acc. induction rs as [|r0 rs IH]; intros acc Hwf (r & l & Hin & Hl & Hacc).
  - inversion Hin.
  - apply Forall_cons in Hwf as [[l0 Hl0] Hwf]. cbn [for_each].
    unfold beastling_row at 1, row_item, mbind, result_bind. rewrite Hl0.
    destruct (bool_decide (is_Some (acc !! l0))) eqn:Hseen; [eexists; reflexivity|].
    apply bool_decide_eq_false in Hseen.
    apply IH; [exact Hwf|].
    apply elem_of_cons in Hin as [->|Hin].
    + exfalso. apply Hseen. congruence.
    + exists r, l. split; [exact Hin|]. split; [exact Hl|].
      destruct (decide (l0 = l)) as [->|Hne].
      * rewrite lookup_insert_eq. eexists. reflexivity.
      * rewrite lookup_insert_ne by exact Hne. exact Hacc.
Qed.

Lemma beastling_rows_duplicate col filename (rs : list Row) (acc : Data) :
  Forall (fun r : Row => is_Some (r !! col)) rs ->
  has_duplicate col rs ->
  exists msg, for_each (beastling_row col filename) rs acc = Raise (ValueError msg).
Proof.
  revert acc. induction rs as [|r0 rs IH];
    intros acc Hwf (i & j & ri & rj & l & Hij & Hi & Hj & Hli & Hlj).
  - rewrite lookup_nil in Hi. discriminate.
  - pose proof Hwf as Hwf0. apply Forall_cons in Hwf as [[l0 Hl0] Hwf]. cbn [for_each].
    unfold beastling_row at 1, row_item, mbind, result_bind. rewrite Hl0.
    destruct (bool_decide (is_Some (acc !! l0))) eqn:Hseen; [eexists; reflexivity|].
    destruct j as [|j]; [lia|]. simpl in Hj.
    destruct i as [|i]; simpl in Hi.
    + injection Hi as <-.
      apply beastling_rows_seen; [exact Hwf|].
      exists rj, l. split; [exact (list_elem_of_lookup_2 _ _ _ Hj)|]. split; [exact Hlj|].
      assert (l0 = l) as -> by congruence.
      rewrite lookup_insert_eq. eexists. reflexivity.
    + apply IH; [exact Hwf|]. exists i, j, ri, rj, l.
      repeat split; try assumption. lia.
Qed.

(** The languages of the records a CLDF loop has read. *)
Lemma cldf_rows_merged feature_column (rs : list Row) (acc : Data) :
  Forall (fun r : Row => is_Some (r !! "Language_ID") /\ is_Some (r !! "Value")
                         /\ is_Some (r !! feature_column)) rs ->
  exists data,
    for_each (cldf_row feature_column) rs acc = Ok data
    /\ forall l, is_Some (data !! l)
                 <-> is_Some (acc !! l) \/ exists r, r ∈ rs /\ r !! "Language_ID" = Some l.
Proof.
  revert acc. induction rs as [|r0 rs IH]; intros acc Hwf.
  - exists acc. split; [reflexivity|]. intros l. split; [auto|].
    intros [H|(r & Hin & _)]; [exact H|inversion Hin].
  - apply Forall_cons in Hwf as [([l0 Hl0] & [v Hv] & [f Hf]) Hwf]. cbn [for_each].
    unfold cldf_row at 1, row_item, mbind, result_bind. rewrite Hl0, Hv, Hf.
    match goal with
    | |- context [for_each _ rs ?a] => destruct (IH a Hwf) as (data & Hrun & Hdom)
    end.
    exists data. split; [exact Hrun|]. intros l. rewrite Hdom. split.
    + intros [Hl|(r & Hin & Hr)].
      * destruct (decide (l0 = l)) as [->|Hne].
        -- right. exists r0. split; [apply list_elem_of_here|exact Hl0].
        -- rewrite lookup_insert_ne in Hl by exact Hne.
           destruct (bool_decide (is_Some (acc !! l0))); [left; exact Hl|].
           rewrite lookup_insert_ne in Hl by exact Hne. left. exact Hl.
      * right. exists r. split; [apply list_elem_of_further, Hin|exact Hr].
    + intros [Hl|(r & Hin & Hr)].
      * left. destruct (decide (l0 = l)) as [->|Hne].
        -- rewrite lookup_insert_eq. eexists. reflexivity.
        -- rewrite lookup_insert_ne by exact Hne.
           destruct (bool_decide (is_Some (acc !! l0))); [exact Hl|].
           rewrite lookup_insert_ne by exact Hne. exact Hl.
      * apply elem_of_cons in Hin as [->|Hin].
        -- left. assert (l0 = l) as -> by congruence.
           rewrite lookup_insert_eq. eexists. reflexivity.
        -- right. exists r. split; [exact Hin|exact Hr].
Qed.

(** C7, as amended.  On a dataset whose records all have every column of
    the header: the loader of BEASTling's own format fails with a
    [ValueError] when two records carry the same taxon identifier in the
    language column (and when no language column is found); the CLDF
    loader fails on no such dataset -- the records of one language are
    merged into one entry, and the languages loaded are those of the
    records. *)
Theorem duplicate_languages (reader : Reader) :
  complete reader ->
  (forall lang_column filename,
      (forall col, language_column reader lang_column filename = Ok col ->
                   has_duplicate col (rows reader)) ->
      exists msg, load_beastling_data reader lang_column filename = Raise (ValueError msg))
  /\ (cldf_header reader ->
      exists data,
        load_cldf_data reader = Ok data
        /\ forall l, is_Some (data !! l)
                     <-> exists r, r ∈ rows reader /\ r !! "Language_ID" = Some l).
Proof.
  intros Hc. split.
  - intros lang_column filename Hdup. unfold load_beastling_data, mbind, result_bind.
    destruct (language_column reader lang_column filename) as [col|e] eqn:Hcol.
    + apply beastling_rows_duplicate; [|exact (Hdup col eq_refl)].
      apply Hc. exact (language_column_in_header _ _ _ _ Hcol).
    + destruct (language_column_error _ _ _ _ Hcol) as [msg ->]. exists msg. reflexivity.
  - intros (Hl & Hv & Hf). unfold load_cldf_data.
    match goal with
    | |- context [for_each (cldf_row ?fc)] =>
        destruct (cldf_rows_merged fc (rows reader) ∅) as (data & Hrun & Hdom)
    end.
    + pose proof (Hc _ Hl) as Fl. pose proof (Hc _ Hv) as Fv.
      assert (Forall (fun r : Row =>
                        is_Some (r !! (if bool_decide ("Feature_ID" ∈ fieldnames reader)
                                       then "Feature_ID" else "Parameter_ID")))
                (rows reader)) as Ff.
      { destruct (bool_decide ("Feature_ID" ∈ fieldnames reader)) eqn:Hfe.
        - apply Hc. apply bool_decide_eq_true in Hfe. exact Hfe.
        - apply Hc. apply bool_decide_eq_false in Hfe. destruct Hf; [contradiction|assumption]. }
      rewrite Forall_forall in Fl, Fv, Ff. apply Forall_forall. intros r Hin.
      split; [exact (Fl r Hin)|]. split; [exact (Fv r Hin)|exact (Ff r Hin)].
    + exists data. split; [exact Hrun|]. intros l. rewrite Hdom. split.
      * intros [H|H]; [|exact H]. rewrite lookup_empty in H. destruct H. discriminate.
      * intros H. right. exact H.
Qed.
End Duplicates.

Lemma beastling_reader_complete : complete Examples.beastling_reader.
Proof.
  intros col Hin. simpl in Hin.
  apply elem_of_cons in Hin as [->|Hin]; [|apply list_elem_of_singleton in Hin as ->];
    repeat constructor; eexists; vm_compute; reflexivity.
Qed.

Lemma cldf_reader_complete : complete Examples.cldf_reader.
Proof.
  intros col Hin. simpl in Hin.
  apply elem_of_cons in Hin as [->|Hin];
    [|apply elem_of_cons in Hin as [->|Hin]; [|apply list_elem_of_singleton in Hin as ->]];
    repeat constructor; eexists; vm_compute; reflexivity.
Qed.

(** The theorem at a dataset in BEASTling's format with the language [aaa]
    in its first and third record, and at a CLDF dataset with two records
    for [aaa]. *)
Lemma duplicate_languages_witness :
  (exists msg,
      Datareaders.load_beastling_data Examples.beastling_reader None "basic.csv"
      = Raise (ValueError msg))
  /\ (exists data,
         Datareaders.load_cldf_data Examples.cldf_reader = Ok data
         /\ forall l, is_Some (data !! l)
                      <-> exists r, r ∈ Datareaders.rows Examples.cldf_reader
                                    /\ r !! "Language_ID" = Some l).
Proof.
  split.
  - apply (proj1 (duplicate_languages Examples.beastling_reader beastling_reader_complete)).
    intros col Hcol. vm_compute in Hcol. injection Hcol as <-.
    exists 0%nat, 2%nat, (list_to_map [("iso", "aaa"); ("f1", "1")]),
      (list_to_map [("iso", "aaa"); ("f1", "0")]), "aaa".
    split; [lia|]. repeat split; vm_compute; reflexivity.
  - apply (proj2 (duplicate_languages Examples.cldf_reader cldf_reader_complete)).
    split; [|split; [|left]]; apply (bool_decide_unpack _); vm_compute; exact I.
Defined.

(** C7 as stated fails for the CLDF format: a dataset with two records for
    the language [aaa] is loaded, the two records merged into one entry;
    format detection sends a file with this header to the CLDF loader. *)
Lemma cldf_duplicates_merged :
  has_duplicate "Language_ID" (Datareaders.rows Examples.cldf_reader)
  /\ Datareaders.load_cldf_data Examples.cldf_reader
     = Ok {[ "aaa" := {[ "f1" := "1"; "f2" := "0" ]} ]}
  /\ Datareaders.load_data Examples.reader_env "cldf.csv" None None
     = Ok {[ "aaa" := {[ "f1" := "1"; "f2" := "0" ]} ]}.
Proof.
  split; [|split; vm_compute; reflexivity].
  exists 0%nat, 1%nat,
    (list_to_map [("Language_ID", "aaa"); ("Feature_ID", "f1"); ("Value", "1")]),
    (list_to_map [("Language_ID", "aaa"); ("Feature_ID", "f2"); ("Value", "0")]), "aaa".
  split; [lia|]. repeat split; vm_compute; reflexivity.
Qed.

(** ** Exit statuses *)

Section ExitStatus.
Context {C X : Type}.
Variable E : Cli.Env C X.

Lemma check_configs_missing (files : list string) :
  Exists (fun conf => Cli.exists_ E conf = false) files ->
  for_each (fun (_ : ()) conf =>
              if negb (Cli.exists_ E conf) then
                Cli.exit (Some ("No such configuration file: " +:+ conf)) 1
              else Ok ()) files ()
  = Raise (SystemExit 1).
Proof.
  induction files as [|f files IH]; intros H; [inversion H|]. cbn [for_each].
  destruct (Cli.exists_ E f) eqn:Hf; simpl.
  - apply IH. inversion H; subst; [congruence|assumption].
  - reflexivity.
Qed.

Lemma check_configs_present (files : list string) :
  Forall (fun conf => Cli.exists_ E conf = true) files ->
  for_each (fun (_ : ()) conf =>
              if negb (Cli.exists_ E conf) then
                Cli.exit (Some ("No such configuration file: " +:+ conf)) 1
              else Ok ()) files ()
  = Ok ().
Proof.
  induction 1 as [|f files Hf _ IH]; cbn [for_each]; [reflexivity|].
  rewrite Hf. simpl. exact IH.
Qed.

Lemma try_except_caught {A} (e : exn) (handler : result A) :
  is_Exception e = true -> Cli.try_except (Raise e) handler = handler.
Proof. unfold Cli.try_except, Cli.wrap_errors. intros ->. reflexivity. Qed.

(** C8, as amended.  [generate] ends with status 1 when a named
    configuration file is missing, 2 when the configuration cannot be
    constructed or its resolution pass fails, 4 when the output file
    exists and overwriting was not asked for, 3 when the document cannot
    be built, and 0 when all steps succeed.  [extract] ends with status 1
    when not exactly one file is named, 2 when the named file is missing,
    3 when extraction fails, and 0 when it succeeds. *)
Theorem exit_statuses (args : Cli.Args) :
  (Cli.extract args = false ->
   (Exists (fun conf => Cli.exists_ E conf = false) (Cli.config args) ->
    Cli.main E args = Raise (SystemExit 1))
   /\ (Forall (fun conf => Cli.exists_ E conf = true) (Cli.config args) ->
       (forall e,
           Cli.Configuration E (Cli.config args) (Cli.stdin args) (Cli.prior args)
             (Cli.report args) = Raise e ->
           is_Exception e = true ->
           Cli.main E args = Raise (SystemExit 2))
       /\ (forall c,
             Cli.Configuration E (Cli.config args) (Cli.stdin args) (Cli.prior args)
               (Cli.report args) = Ok c ->
             (Cli.exists_ E (Cli.output_filename E args c) = true ->
              Cli.overwrite args = false ->
              Cli.main E args = Raise (SystemExit 4))
             /\ (Cli.exists_ E (Cli.output_filename E args c) && negb (Cli.overwrite args)
                 = false ->
                 (forall e,
                     Cli.process E c = Raise e -> is_Exception e = true ->
                     Cli.main E args = Raise (SystemExit 2))
                 /\ (forall c',
                       Cli.process E c = Ok c' ->
                       (forall e,
                           Cli.BeastXml E c' = Raise e -> is_Exception e = true ->
                           Cli.main E args = Raise (SystemExit 3))
                       /\ (forall x,
                             Cli.BeastXml E c' = Ok x ->
                             Cli.write_file E x (Cli.output_filename E args c) = Ok () ->
                             (Cli.report args = true ->
                              Cli.write_reports E c' (Cli.output_filename E args c)
                              = Ok ()) ->
                             (Cli.language_list args = true ->
                              Cli.write_language_list E c' = Ok ()) ->
                             Cli.main E args = Raise (SystemExit 0)))))))
  /\ (Cli.extract args = true ->
      (length (Cli.config args) <> 1%nat -> Cli.main E args = Raise (SystemExit 1))
      /\ (forall xml,
            Cli.config args = [xml] ->
            (Cli.exists_ E xml = false -> Cli.main E args = Raise (SystemExit 2))
            /\ (Cli.exists_ E xml = true ->
                (forall e,
                    Cli.extractor_extract E xml (Cli.overwrite args) = Raise e ->
                    is_Exception e = true ->
                    Cli.main E args = Raise (SystemExit 3))
                /\ (forall msgs,
                      Cli.extractor_extract E xml (Cli.overwrite args) = Ok msgs ->
                      Cli.main E args = Raise (SystemExit 0))))).
Proof.
  split.
  - intros Hgen. unfold Cli.main. rewrite Hgen. unfold Cli.do_generate.
    unfold mbind at 1, result_bind. unfold mbind at 1, result_bind.
    split.
    { intros Hmiss. rewrite (check_configs_missing _ Hmiss). reflexivity. }
    intros Hall. rewrite (check_configs_present _ Hall). split.
    { intros e He Hex. rewrite He, (try_except_caught _ _ Hex). reflexivity. }
    intros c Hc. rewrite Hc. cbn [Cli.try_except mbind result_bind]. split.
    { intros Hout Hov. rewrite Hout, Hov. reflexivity. }
    intros Hfree. rewrite Hfree. split.
    { intros e He Hex. rewrite He, (try_except_caught _ _ Hex). reflexivity. }
    intros c' Hc'. rewrite Hc'. cbn [Cli.try_except mbind result_bind]. split.
    { intros e He Hex. rewrite He, (try_except_caught _ _ Hex). reflexivity. }
    intros x Hx Hw Hr Hl. rewrite Hx. cbn [Cli.try_except mbind result_bind].
    rewrite Hw.
    destruct (Cli.report args); [rewrite (Hr eq_refl)|];
      (destruct (Cli.language_list args); [rewrite (Hl eq_refl)|]); reflexivity.
  - intros Hext. unfold Cli.main. rewrite Hext. unfold Cli.do_extract. split.
    { intros Hlen. apply Nat.eqb_neq in Hlen. rewrite Hlen. reflexivity. }
    intros xml Hcfg. rewrite Hcfg. simpl length. simpl negb. cbv iota. split.
    { intros Hmiss. rewrite Hmiss. reflexivity. }
    intros Hthere. rewrite Hthere. simpl negb. cbv iota. split.
    { intros e He Hex. rewrite He. cbn [mbind result_bind].
      rewrite (try_except_caught _ _ Hex). reflexivity. }
    intros msgs Hm. rewrite Hm. reflexivity.
Qed.
End ExitStatus.

(** The theorem at invocations of [generate] and of [extract]. *)
Lemma exit_statuses_witness :
  Cli.main Examples.cli_env (Examples.generate ["basic.conf"; "gone.conf"] None)
  = Raise (SystemExit 1)
  /\ Cli.main Examples.cli_env (Examples.generate ["basic.conf"] (Some "taken.xml"))
     = Raise (SystemExit 4)
  /\ Cli.main Examples.cli_env (Examples.generate ["basic.conf"] None)
     = Raise (SystemExit 0)
  /\ Cli.main Examples.cli_env (Examples.extract ["old.xml"; "taken.xml"])
     = Raise (SystemExit 1)
  /\ Cli.main Examples.cli_env (Examples.extract ["gone.xml"]) = Raise (SystemExit 2)
  /\ Cli.main Examples.cli_env (Examples.extract ["old.xml"]) = Raise (SystemExit 0).
Proof.
  split; [|split; [|split; [|split; [|split]]]].
  - destruct (exit_statuses Examples.cli_env
                (Examples.generate ["basic.conf"; "gone.conf"] None)) as [Hgen _].
    destruct (Hgen eq_refl) as [Hmissing _]. apply Hmissing.
    right. left. reflexivity.
  - destruct (exit_statuses Examples.cli_env
                (Examples.generate ["basic.conf"] (Some "taken.xml"))) as [Hgen _].
    destruct (Hgen eq_refl) as [_ Hpresent].
    destruct Hpresent as [_ Hconfig]; [repeat constructor|].
    destruct (Hconfig ["basic.conf"] eq_refl) as [Htaken _].
    apply Htaken; reflexivity.
  - destruct (exit_statuses Examples.cli_env
                (Examples.generate ["basic.conf"] None)) as [Hgen _].
    destruct (Hgen eq_refl) as [_ Hpresent].
    destruct Hpresent as [_ Hconfig]; [repeat constructor|].
    destruct (Hconfig ["basic.conf"] eq_refl) as [_ Hfree].
    destruct (Hfree eq_refl) as [_ Hprocessed].
    destruct (Hprocessed ["basic.conf"] eq_refl) as [_ Hbuilt].
    apply (Hbuilt "basic.conf"); try reflexivity; discriminate.
  - destruct (exit_statuses Examples.cli_env
                (Examples.extract ["old.xml"; "taken.xml"])) as [_ Hext].
    destruct (Hext eq_refl) as [Hcount _]. apply Hcount. simpl. lia.
  - destruct (exit_statuses Examples.cli_env (Examples.extract ["gone.xml"])) as [_ Hext].
    destruct (Hext eq_refl) as [_ Hone].
    destruct (Hone "gone.xml" eq_refl) as [Hmissing _]. apply Hmissing. reflexivity.
  - destruct (exit_statuses Examples.cli_env (Examples.extract ["old.xml"])) as [_ Hext].
    destruct (Hext eq_refl) as [_ Hone].
    destruct (Hone "old.xml" eq_refl) as [_ Hthere].
    destruct (Hthere eq_refl) as [_ Hdone]. apply (Hdone ["Wrote config"]). reflexivity.
Defined.

(** C8 as stated fails for [extract]: when the one file it names is
    missing, the status is 2, not 1. *)
Lemma extract_missing_file_status :
  Cli.exists_ Examples.cli_env "gone.xml" = false
  /\ Cli.main Examples.cli_env (Examples.extract ["gone.xml"]) = Raise (SystemExit 2)
  /\ Cli.exit_status (Cli.main Examples.cli_env (Examples.extract ["gone.xml"])) <> 1.
Proof. repeat split. discriminate. Qed.

(** * Further properties *)

Import Terms.

(** ** The registry of taxon sets *)

Lemma dict_set_elem {V} (d : dict V) k v x :
  x ∈ dict_set d k v -> x ∈ d \/ x = (k, v).
Proof.
  induction d as [|[k' v'] d IH]; simpl.
  - intros H. apply list_elem_of_singleton in H. right. exact H.
  - destruct (String.eqb k' k) eqn:Heq.
    + apply String.eqb_eq in Heq as ->. intros H.
      apply elem_of_cons in H as [->|H]; [right; reflexivity|].
      left. apply list_elem_of_further, H.
    + intros H. apply elem_of_cons in H as [->|H]; [left; apply list_elem_of_here|].
      destruct (IH H) as [Hin| ->]; [left; apply list_elem_of_further, Hin|right; reflexivity].
Qed.

Lemma dict_set_keys_NoDup {V} (d : dict V) k v :
  NoDup (keys d) -> NoDup (keys (dict_set d k v)).
Proof.
  unfold keys. induction d as [|[k' v'] d IH]; simpl; intros Hnd.
  - apply NoDup_singleton.
  - apply NoDup_cons in Hnd as [Hnot Hnd].
    destruct (String.eqb k' k) eqn:Heq; simpl.
    + apply NoDup_cons. split; assumption.
    + apply NoDup_cons. split; [|exact (IH Hnd)].
      intros Hin. apply list_elem_of_fmap in Hin as ([k2 v2] & Hk & Hin). simpl in Hk. subst k2.
      apply dict_set_elem in Hin as [Hin|Hin].
      * apply Hnot. apply list_elem_of_fmap. exists (k', v2). split; [reflexivity|exact Hin].
      * injection Hin as -> _. rewrite String.eqb_refl in Heq. discriminate.
Qed.

Lemma dict_set_values_NoDup {V} (d : dict V) k v :
  v ∉ values d -> NoDup (values d) -> NoDup (values (dict_set d k v)).
Proof.
  unfold values. induction d as [|[k' v'] d IH]; simpl; intros Hv Hnd.
  - apply NoDup_singleton.
  - apply NoDup_cons in Hnd as [Hnot Hnd].
    apply not_elem_of_cons in Hv as [Hne Hv].
    destruct (String.eqb k' k) eqn:Heq; simpl.
    + apply NoDup_cons. split; assumption.
    + apply NoDup_cons. split; [|exact (IH Hv Hnd)].
      intros Hin. apply list_elem_of_fmap in Hin as ([k2 v2] & Hk & Hin). simpl in Hk. subst v2.
      apply dict_set_elem in Hin as [Hin|Hin].
      * apply Hnot. apply list_elem_of_fmap. exists (k2, v'). split; [reflexivity|exact Hin].
      * injection Hin as _ ->. congruence.
Qed.

Lemma find_taxon_set_None_values t reg :
  find_taxon_set t reg = None -> t ∉ values reg.
Proof.
  intros Hfind Hin. unfold values in Hin.
  apply list_elem_of_fmap in Hin as ([l t'] & Ht & Hin). simpl in Ht. subst t'.
  exact (find_taxon_set_None _ _ l Hfind Hin).
Qed.

Lemma keeps_distinct_refl s : keeps_distinct s s.
Proof. intros H. exact H. Qed.

Lemma keeps_distinct_trans s1 s2 s3 :
  keeps_distinct s1 s2 -> keeps_distinct s2 s3 -> keeps_distinct s1 s3.
Proof. unfold keeps_distinct. auto. Qed.

Lemma add_taxon_set_keeps_distinct label ls define_taxa :
  keeps keeps_distinct (add_taxon_set label ls define_taxa).
Proof.
  intros s a s'. unfold add_taxon_set.
  destruct (find_taxon_set _ _) eqn:Hfind; intros [= _ <-]; [apply keeps_distinct_refl|].
  intros [Hk Hv]. split; simpl.
  - apply dict_set_keys_NoDup, Hk.
  - apply dict_set_values_NoDup; [apply find_taxon_set_None_values, Hfind|exact Hv].
Qed.

Lemma build_xml_keeps_distinct (E : Beastxml.Env) : keeps keeps_distinct (build_xml E).
Proof.
  unfold build_xml, add_run, add_beastling_comment, embed_data_, format_data_file, add_maps,
    add_state, add_tree_state, add_init, add_constrainedrandomtree_init,
    add_simplerandomtree_init, add_randomtree_init, add_distributions, add_prior,
    add_likelihood, add_monophyly_constraints, add_calibrations, add_calibration,
    add_tree_prior, add_operators, add_tree_operators, delta_exchange, add_loggers,
    add_screen_logger, add_tracer_logger, add_tree_loggers, add_tree_logger,
    config_clocks, config_all_models, config_models.
  keeps_with keeps_distinct_refl keeps_distinct_trans
             ltac:(apply add_taxon_set_keeps_distinct).
Qed.

(** X1. In the registry of a builder that has built its document, no
    identifier occurs twice and no two identifiers stand for the same set
    of languages. *)
Theorem taxon_set_registry_distinct (E : Beastxml.Env) (self_ : oid) (c : Configuration)
    (b : BeastXml) (beast : Element) :
  __init__ E self_ c = Ok (b, beast) ->
  NoDup (keys (_taxon_sets b)) /\ NoDup (values (_taxon_sets b)).
Proof.
  unfold __init__. intros H.
  destruct (if negb (processed c) then process (cenv E) c else Ok c) as [c'|];
    [|discriminate].
  unfold mbind, result_bind in H.
  match type of H with
  | context [build_xml E ?s0] => destruct (build_xml E s0) as [[beast' s']|] eqn:Hb
  end; [|discriminate].
  injection H as <- _.
  apply (build_xml_keeps_distinct E _ _ _ Hb).
  split; simpl; apply NoDup_nil_2.
Qed.

Lemma taxon_set_registry_distinct_witness :
  exists b beast,
    __init__ Examples.env 0%nat
      (Examples.calibrated ["x"; "y"; "z"]
         [("a", Examples.cal ["x"; "y"] "normal");
          ("b", Examples.cal ["y"; "x"] "normal");
          ("c", Examples.cal ["z"] "uniform")]) = Ok (b, beast)
    /\ NoDup (keys (_taxon_sets b)) /\ NoDup (values (_taxon_sets b)).
Proof.
  destruct (__init__ Examples.env 0%nat
      (Examples.calibrated ["x"; "y"; "z"]
         [("a", Examples.cal ["x"; "y"] "normal");
          ("b", Examples.cal ["y"; "x"] "normal");
          ("c", Examples.cal ["z"] "uniform")])) as [[b beast]|e] eqn:Hrun.
  - exists b, beast. split; [reflexivity|].
    exact (taxon_set_registry_distinct _ _ _ _ _ Hrun).
  - exfalso. vm_compute in Hrun. discriminate.
Defined.

(** The two answers of [add_taxon_set], node by node. *)
Lemma emit_answers r (s : BeastXml) :
  (exists idref,
      (idref, taxa_of r) ∈ _taxon_sets s
      /\ emit r s = Ok ([reference_to idref], s))
  \/ (exists node s',
         emit r s = Ok ([node], s')
         /\ defined_id node = Some (r_label r)
         /\ referred_id node = None
         /\ forall x, x ∈ _taxon_sets s' -> x ∈ _taxon_sets s \/ fst x = r_label r).
Proof.
  unfold emit, add_taxon_set, taxa_of.
  destruct (find_taxon_set _ _) as [idref|] eqn:Hfind.
  - left. exists idref. split; [apply find_taxon_set_Some, Hfind|reflexivity].
  - right. eexists _, _. split; [reflexivity|]. split; [reflexivity|].
    split; [reflexivity|]. simpl. intros x Hx.
    apply dict_set_elem in Hx as [Hx| ->]; [left; exact Hx|right; reflexivity].
Qed.

(** X2. Whatever taxon sets are requested of a new builder, in whatever
    order and under whatever labels, every reference it answers with
    points to an identifier that an earlier answer defined. *)
Theorem taxon_set_references_resolved (c : Configuration) (reqs : list request) :
  exists outs self',
    for_nodes emit reqs (fresh_builder c) = Ok (outs, self')
    /\ resolved outs.
Proof.
  enough (exists outs s',
            for_nodes emit reqs (fresh_builder c) = Ok (outs, s')
            /\ resolved outs
            /\ forall x, x ∈ _taxon_sets s' ->
                 exists k e, outs !! k = Some e /\ defined_id e = Some (fst x))
    as (outs & s' & Hrun & Hres & _) by (exists outs, s'; auto).
  induction reqs as [|r reqs IH] using rev_ind.
  - exists [], (fresh_builder c). split; [reflexivity|]. split.
    + intros j e idref Hj. rewrite lookup_nil in Hj. discriminate.
    + intros x Hx. inversion Hx.
  - destruct IH as (outs & s1 & Hrun & Hres & Hreg).
    destruct (emit_answers r s1) as [(idref & Hin & Hemit)
                                    |(node & s2 & Hemit & Hid & Href & Hsub)].
    + exists (outs ++ [reference_to idref]), s1.
      split; [exact (for_nodes_snoc _ _ _ _ _ _ _ _ Hrun Hemit)|]. split.
      * intros j e i Hj He.
        destruct (decide (j < length outs)%nat) as [Hlt|Hge].
        -- rewrite lookup_app_l in Hj by exact Hlt.
           destruct (Hres j e i Hj He) as (k & e' & Hk & Hk' & Hd).
           exists k, e'. rewrite lookup_app_l by lia. auto.
        -- pose proof (lookup_lt_Some _ _ _ Hj) as Hjlt.
           rewrite length_app in Hjlt. simpl in Hjlt.
           assert (j = length outs) as -> by lia.
           rewrite list_lookup_middle in Hj by reflexivity. injection Hj as <-.
           injection He as <-.
           destruct (Hreg _ Hin) as (k & e' & Hk & Hd). simpl in Hd.
           exists k, e'. pose proof (lookup_lt_Some _ _ _ Hk) as Hklt.
           rewrite lookup_app_l by exact Hklt. auto.
      * intros x Hx. destruct (Hreg x Hx) as (k & e' & Hk & Hd).
        exists k, e'. pose proof (lookup_lt_Some _ _ _ Hk) as Hklt.
        rewrite lookup_app_l by exact Hklt. auto.
    + exists (outs ++ [node]), s2.
      split; [exact (for_nodes_snoc _ _ _ _ _ _ _ _ Hrun Hemit)|]. split.
      * intros j e i Hj He.
        destruct (decide (j < length outs)%nat) as [Hlt|Hge].
        -- rewrite lookup_app_l in Hj by exact Hlt.
           destruct (Hres j e i Hj He) as (k & e' & Hk & Hk' & Hd).
           exists k, e'. rewrite lookup_app_l by lia. auto.
        -- pose proof (lookup_lt_Some _ _ _ Hj) as Hjlt.
           rewrite length_app in Hjlt. simpl in Hjlt.
           assert (j = length outs) as -> by lia.
           rewrite list_lookup_middle in Hj by reflexivity. injection Hj as <-.
           congruence.
      * intros x Hx. destruct (Hsub x Hx) as [Hold|Hnew].
        -- destruct (Hreg x Hold) as (k & e' & Hk & Hd).
           exists k, e'. pose proof (lookup_lt_Some _ _ _ Hk) as Hklt.
           rewrite lookup_app_l by exact Hklt. auto.
        -- exists (length outs), node.
           rewrite list_lookup_middle by reflexivity. rewrite Hnew. auto.
Qed.

(** ** Cross references of the document *)

(** X3. The tree initializer refers to monophyly constraints only in the
    form [@constraints], and whenever it does, the prior gets the node
    with the identifier [constraints]. *)
Theorem constraints_reference_defined (s : BeastXml) :
  exists init,
    add_init s = Ok ([init], s)
    /\ match get init "constraints" with
       | Some ref =>
           ref = "@constraints"
           /\ exists node,
                add_monophyly_constraints s = Ok ([node], s)
                /\ tag_of node = Some "distribution"
                /\ get node "id" = Some "constraints"
                /\ get node "newick" = Some (monophyly_newick (settings (config s)))
       | None => True
       end.
Proof.
  unfold add_init, add_monophyly_constraints. run_M.
  destruct (truthy (starting_tree (config s))).
  - eexists. split; [reflexivity|]. exact I.
  - run_M. destruct (monophyly (settings (config s))) eqn:Hm; simpl.
    + destruct (2 <? length (languages (config s)))%nat.
      * eexists. split; [reflexivity|]. simpl. split; [reflexivity|].
        eexists. repeat split.
      * destruct (any _); eexists; (split; [reflexivity|exact I]).
    + destruct (any _); eexists; (split; [reflexivity|exact I]).
Qed.

Lemma for_nodes_Ok_Forall2 {A} (body : A -> M (list Element)) (P : A -> Element -> Prop)
    (xs : list A) :
  (forall x s nodes s', body x s = Ok (nodes, s') -> exists n, nodes = [n] /\ P x n) ->
  forall s nodes s', for_nodes body xs s = Ok (nodes, s') -> Forall2 P xs nodes.
Proof.
  intros Hbody. induction xs as [|x xs IH]; simpl; intros s nodes s' H.
  - injection H as <- _. constructor.
  - apply M_bind_Ok in H as (a & s1 & Ha & H).
    apply M_bind_Ok in H as (more & s2 & Hm & H). injection H as <- _.
    destruct (Hbody _ _ _ _ Ha) as (n & -> & HP). simpl.
    constructor; [exact HP|exact (IH _ _ _ Hm)].
Qed.

Lemma add_calibration_id item (s : BeastXml) nodes s' :
  add_calibration item s = Ok (nodes, s') ->
  exists n, nodes = [n] /\ get n "id" = Some (fst item +:+ "MRCA").
Proof.
  destruct item as [clade cal]. unfold add_calibration. intros H.
  apply M_bind_Ok in H as (ts & s1 & _ & H).
  apply M_bind_Ok in H as (distr & s2 & _ & H). injection H as <- _.
  eexists. split; [reflexivity|]. destruct (originate cal); reflexivity.
Qed.

(** X4. The trace log refers to the clade of every calibration under the
    identifier of the node the prior holds for it: when the calibrations
    are added and the trace logger is written, each calibrated clade has a
    prior node [<clade>MRCA] and a log entry that refers to it. *)
Theorem calibration_clades_logged (E : Beastxml.Env) (s t : BeastXml)
    (cals : list Element) (s' : BeastXml) (logger : Element) (t' : BeastXml) :
  config t = config s ->
  add_calibrations s = Ok (cals, s') ->
  add_tracer_logger E t = Ok ([logger], t') ->
  forall clade,
    clade ∈ keys (calibrations (settings (config s))) ->
    (exists n, n ∈ cals /\ get n "id" = Some (clade +:+ "MRCA"))
    /\ Element_ "log" [("idref", clade +:+ "MRCA")] ∈ children_of logger.
Proof.
  intros Hcfg Hcals Hlog clade Hclade. split.
  - unfold add_calibrations in Hcals.
    apply M_bind_Ok in Hcals as (cs & s0 & Hcs & Hcals). injection Hcs as <- <-.
    pose proof (for_nodes_Ok_Forall2 add_calibration
                  (fun item n => get n "id" = Some (fst item +:+ "MRCA")) _
                  add_calibration_id _ _ _ Hcals) as HF.
    unfold keys in Hclade. apply list_elem_of_fmap in Hclade as ([k cal] & Hk & Hin).
    simpl in Hk. subst k.
    assert ((clade, cal) ∈ sorted_items (calibrations (settings (config s)))) as Hin'.
    { unfold sorted_items. rewrite merge_sort_Permutation. exact Hin. }
    apply list_elem_of_lookup in Hin' as (i & Hi).
    destruct (Forall2_lookup_l _ _ _ _ _ HF Hi) as (n & Hn & Hid).
    exists n. split; [apply list_elem_of_lookup; exists i; exact Hn|exact Hid].
  - revert Hlog. unfold add_tracer_logger. run_M.
    destruct (negb _); run_M; [discriminate|].
    match goal with
    | |- context [match ?x with Ok _ => _ | Raise _ => _ end] =>
        destruct x as [[params s1]|]; [|discriminate]
    end.
    intros [= <- _]. simpl. rewrite Hcfg.
    rewrite !elem_of_app. right. right. right. left.
    apply list_elem_of_fmap. exists clade. split; [reflexivity|].
    unfold sorted. rewrite merge_sort_Permutation. exact Hclade.
Qed.

Lemma calibration_clades_logged_witness :
  exists n,
    Element_ "log" [("idref", "bMRCA")]
      ∈ children_of
          (Elem "logger" [("id", "tracelog"); ("fileName", "beastling.log");
                          ("logEvery", "1000"); ("sort", "smart")] None
             [Element_ "log" [("idref", "prior")];
              Element_ "log" [("idref", "likelihood")];
              Element_ "log" [("idref", "posterior")];
              Element_ "log" [("id", "treeHeight");
                              ("spec", "beast.evolution.tree.TreeHeightLogger");
                              ("tree", "@Tree.t:beastlingTree")];
              Element_ "log" [("idref", "aMRCA")];
              Element_ "log" [("idref", "bMRCA")]])
    /\ get n "id" = Some "bMRCA".
Proof.
  pose (c := Examples.calibrated ["x"; "y"; "z"]
               [("b", Examples.cal ["x"; "y"] "uniform");
                ("a", Examples.cal ["y"; "z"] "lognormal")]).
  destruct (add_calibrations (fresh_builder c)) as [[cals s']|e] eqn:Hcals;
    [|exfalso; vm_compute in Hcals; discriminate].
  destruct (calibration_clades_logged Examples.env (fresh_builder c) (fresh_builder c)
              cals s' _ (fresh_builder c) eq_refl Hcals eq_refl "b")
    as [(n & _ & Hid) Hlog].
  - vm_compute. apply list_elem_of_here.
  - exists n. split; [exact Hlog|exact Hid].
Defined.

(** ** Calibrations of an unknown kind *)

Lemma calibration_distr_unknown clade cal :
  ~ known_kind cal -> calibration_distr clade cal = Raise (KeyError (dist cal)).
Proof.
  unfold known_kind, calibration_distr. intros Hk.
  assert (String.eqb "normal" (dist cal) = false) as H1.
  { apply String.eqb_neq. intros H. apply Hk. rewrite <- H. apply list_elem_of_here. }
  assert (String.eqb "lognormal" (dist cal) = false) as H2.
  { apply String.eqb_neq. intros H. apply Hk. rewrite <- H.
    apply list_elem_of_further, list_elem_of_here. }
  assert (String.eqb "uniform" (dist cal) = false) as H3.
  { apply String.eqb_neq. intros H. apply Hk. rewrite <- H.
    do 2 apply list_elem_of_further. apply list_elem_of_here. }
  assert (dict_item dist_types (dist cal) = Raise (KeyError (dist cal))) as ->.
  { unfold dict_item, dist_types. cbn [dict_get]. rewrite H1, H2, H3. reflexivity. }
  reflexivity.
Qed.

Lemma add_calibration_unknown item (s : BeastXml) :
  ~ known_kind (snd item) -> add_calibration item s = Raise (KeyError (dist (snd item))).
Proof.
  destruct item as [clade cal]. simpl. intros Hk. unfold add_calibration.
  match goal with
  | |- context [add_taxon_set ?l ?ls ?d] =>
      destruct (add_taxon_set_total l ls d s) as (ts & s1 & Hts & _ & _)
  end.
  unfold mbind, M_bind, lift. rewrite Hts, (calibration_distr_unknown _ _ Hk). reflexivity.
Qed.

Lemma for_nodes_calibration_unknown (items : list (string * Calibration)) (s : BeastXml) :
  Exists (fun item => ~ known_kind (snd item)) items ->
  exists item,
    item ∈ items /\ ~ known_kind (snd item)
    /\ for_nodes add_calibration items s = Raise (KeyError (dist (snd item))).
Proof.
  revert s. induction items as [|x items IH]; intros s Hex; [inversion Hex|].
  destruct (decide (dist (snd x) ∈ ["normal"; "lognormal"; "uniform"])) as [Hk|Hk].
  - destruct (add_calibration_node x s Hk) as (node & s1 & Hrun & _ & _).
    assert (Exists (fun item => ~ known_kind (snd item)) items) as Hex'.
    { inversion Hex; subst; [contradiction|assumption]. }
    destruct (IH s1 Hex') as (item & Hin & Hu & Hr).
    exists item. split; [apply list_elem_of_further, Hin|]. split; [exact Hu|].
    simpl. unfold mbind, M_bind. rewrite Hrun, Hr. reflexivity.
  - exists x. split; [apply list_elem_of_here|]. split; [exact Hk|].
    simpl. unfold mbind, M_bind. rewrite (add_calibration_unknown _ _ Hk). reflexivity.
Qed.

(** X5. When a calibration has a kind other than normal, lognormal and
    uniform, [add_calibrations] adds no node and raises [KeyError] with
    the kind of such a calibration. *)
Theorem unknown_calibration_kind (s : BeastXml) :
  Exists (fun cal => ~ known_kind cal) (values (calibrations (settings (config s)))) ->
  exists cal,
    cal ∈ values (calibrations (settings (config s)))
    /\ ~ known_kind cal
    /\ add_calibrations s = Raise (KeyError (dist cal)).
Proof.
  intros Hex. unfold add_calibrations. run_M.
  destruct (for_nodes_calibration_unknown
              (sorted_items (calibrations (settings (config s)))) s)
    as (item & Hin & Hu & Hr).
  - unfold sorted_items. rewrite merge_sort_Permutation.
    unfold values in Hex.
    exact (proj1 (Exists_fmap snd (fun cal => ~ known_kind cal) _) Hex).
  - exists (snd item). split; [|split; [exact Hu|]].
    + unfold sorted_items in Hin. rewrite merge_sort_Permutation in Hin.
      unfold values. apply list_elem_of_fmap. exists item. split; [reflexivity|exact Hin].
    + rewrite Hr. reflexivity.
Qed.

Lemma unknown_calibration_kind_witness :
  exists cal,
    ~ known_kind cal
    /\ add_calibrations
         (fresh_builder
            (Examples.calibrated ["x"; "y"]
               [("a", Examples.cal ["x"] "normal");
                ("b", Examples.cal ["y"] "exponential")]))
       = Raise (KeyError (dist cal)).
Proof.
  destruct (unknown_calibration_kind
              (fresh_builder
                 (Examples.calibrated ["x"; "y"]
                    [("a", Examples.cal ["x"] "normal");
                     ("b", Examples.cal ["y"] "exponential")])))
    as (cal & _ & Hu & Hr).
  - simpl. apply Exists_cons_tl, Exists_cons_hd. unfold known_kind. simpl.
    intros H. repeat (apply elem_of_cons in H as [H|H]; [discriminate|]). inversion H.
  - exists cal. split; [exact Hu|exact Hr].
Defined.

(** ** The rate-exchange operator *)

Lemma plates_tags (cm : list Model) :
  map tag_of
    (map (fun model =>
            Elem "plate" [("var", "feature"); ("range", join "," (features model))] None
              [Element_ "parameter"
                 [("idref", "featureClockRate:" +:+ m_name model +:+ ":$(feature)")]]) cm)
  = replicate (length cm) (Some "plate").
Proof. induction cm as [|m cm IH]; simpl; [reflexivity|]. f_equal. exact IH. Qed.

Lemma any_weight_differs (cm : list Model) :
  any (map (fun w => negb (w =? 1)) (flat_map (fun m => values (weights m)) cm)) = true
  <-> Exists (fun m => Exists (fun w => w <> 1) (values (weights m))) cm.
Proof.
  rewrite any_map_Exists. rewrite !List.Exists_exists. split.
  - intros (w & Hin & Hw). apply in_flat_map in Hin as (m & Hm & Hin).
    exists m. split; [exact Hm|]. apply List.Exists_exists. exists w. split; [exact Hin|].
    apply negb_true_iff, Z.eqb_neq in Hw. exact Hw.
  - intros (m & Hm & Hex). apply List.Exists_exists in Hex as (w & Hin & Hw).
    exists w. split; [apply in_flat_map; exists m; split; assumption|].
    apply negb_true_iff, Z.eqb_neq. exact Hw.
Qed.

(** X6. The rate-exchange operator of a clock.  When no model with rate
    variation uses the clock, no operator is added.  Otherwise the
    operator has one plate per such model; it is followed by a weight
    vector exactly when some feature weight of these models differs
    from 1, and without such a weight the operator is added whatever the
    features and weights are. *)
Theorem delta_exchange_weight_vector (ms : list Model) (clock : oid * Clock)
    (s : BeastXml) :
  (clock_models ms (fst clock) = [] -> delta_exchange ms clock s = Ok ([], s))
  /\ (clock_models ms (fst clock) <> [] ->
      Forall (fun m => Forall (fun w => w = 1) (values (weights m)))
             (clock_models ms (fst clock)) ->
      exists op,
        delta_exchange ms clock s = Ok ([op], s)
        /\ tag_of op = Some "operator"
        /\ map tag_of (children_of op)
           = replicate (length (clock_models ms (fst clock))) (Some "plate"))
  /\ (clock_models ms (fst clock) <> [] ->
      Exists (fun m => Exists (fun w => w <> 1) (values (weights m)))
             (clock_models ms (fst clock)) ->
      forall nodes s',
        delta_exchange ms clock s = Ok (nodes, s') ->
        exists op,
          nodes = [op]
          /\ tag_of op = Some "operator"
          /\ map tag_of (children_of op)
             = replicate (length (clock_models ms (fst clock))) (Some "plate")
               ++ [Some "weightvector"]).
Proof.
  unfold delta_exchange. fold (clock_models ms (fst clock)).
  set (cm := clock_models ms (fst clock)).
  split; [|split].
  - intros ->. reflexivity.
  - intros Hne Hall.
    destruct (bool_decide (cm = [])) eqn:Hd; [apply bool_decide_eq_true in Hd; contradiction|].
    destruct (any _) eqn:Hany.
    { exfalso. apply any_weight_differs in Hany.
      apply List.Exists_exists in Hany as (m & Hm & Hex).
      apply List.Exists_exists in Hex as (w & Hw & Hw1).
      apply Hw1. rewrite Forall_forall in Hall. apply list_elem_of_In in Hm.
      specialize (Hall m Hm). rewrite Forall_forall in Hall.
      apply Hall. apply list_elem_of_In. exact Hw. }
    run_M. eexists. split; [reflexivity|]. split; [reflexivity|].
    simpl. rewrite app_nil_r. apply plates_tags.
  - intros Hne Hex nodes s'.
    destruct (bool_decide (cm = [])) eqn:Hd; [apply bool_decide_eq_true in Hd; contradiction|].
    apply any_weight_differs in Hex. rewrite Hex.
    intros H. apply M_bind_Ok in H as (wv & s1 & Hwv & H). injection H as <- _.
    apply M_bind_Ok in Hwv as (texts & s2 & _ & Hwv). injection Hwv as <- _.
    eexists. split; [reflexivity|]. split; [reflexivity|].
    simpl. rewrite map_app. rewrite plates_tags. reflexivity.
Qed.

(** ** The family filter *)

(** X7. The language filter holds exactly the classified languages that
    have a requested family among the names and codes of their
    classification; for the family list [["*"]] it is empty. *)
Theorem lang_filter_members (fams : list string)
    (cls : gmap string (list (string * string))) (l : string) :
  l ∈ compute_lang_filter fams cls
  <-> fams <> ["*"]
      /\ exists cl family t,
           cls !! l = Some cl /\ family ∈ fams /\ t ∈ cl
           /\ (family = fst t \/ family = snd t).
Proof.
  unfold compute_lang_filter. destruct (decide (fams = ["*"])) as [Heq|Hne].
  - split; [intros H; apply not_elem_of_empty in H; contradiction|]. intros [H _]. contradiction.
  - rewrite elem_of_dom. unfold is_Some. split.
    + intros (cl & Hcl). apply map_lookup_filter_Some in Hcl as [Hcl Hany]. simpl in Hany.
      split; [exact Hne|]. apply any_map_Exists in Hany.
      apply List.Exists_exists in Hany as (family & Hin & Hfam).
      apply bool_decide_eq_true in Hfam. unfold flat_names in Hfam.
      apply list_elem_of_In, in_flat_map in Hfam as (t & Ht & Hft).
      exists cl, family, t. split; [exact Hcl|]. split; [apply list_elem_of_In, Hin|].
      split; [apply list_elem_of_In, Ht|].
      destruct Hft as [<-|[<-|[]]]; [left|right]; reflexivity.
    + intros (_ & cl & family & t & Hcl & Hin & Ht & Hft).
      exists cl. apply map_lookup_filter_Some. split; [exact Hcl|]. simpl.
      apply any_map_Exists. apply List.Exists_exists. exists family.
      split; [apply list_elem_of_In, Hin|]. apply bool_decide_eq_true.
      unfold flat_names. apply list_elem_of_In, in_flat_map. exists t.
      split; [apply list_elem_of_In, Ht|].
      destruct Hft as [->| ->]; [left|right; left]; reflexivity.
Qed.

(** X8. Families that no classified language belongs to restrict
    nothing: the filter they give is empty, an empty filter is no filter,
    and under [union] every language of every dataset is kept. *)
Theorem unmatched_families_keep_all (fams : list string)
    (cls : gmap string (list (string * string))) (ma : Model) (ms : list Model) :
  (forall l cl family, cls !! l = Some cl -> family ∈ fams -> family ∉ flat_names cl) ->
  compute_lang_filter fams cls = ∅
  /\ combine_languages "union" (compute_lang_filter fams cls) (ma :: ms)
     = Ok (⋃ (taxon_set <$> ma :: ms)).
Proof.
  intros Hnone.
  assert (compute_lang_filter fams cls = ∅) as ->.
  { unfold compute_lang_filter. destruct (decide (fams = ["*"])); [reflexivity|].
    apply leibniz_equiv, elem_of_equiv_empty. intros l Hl.
    apply elem_of_dom in Hl as (cl & Hcl).
    apply map_lookup_filter_Some in Hcl as [Hcl Hany]. simpl in Hany.
    apply any_map_Exists in Hany. apply List.Exists_exists in Hany as (family & Hin & Hfam).
    apply bool_decide_eq_true in Hfam.
    exact (Hnone l cl family Hcl (proj2 (list_elem_of_In _ _) Hin) Hfam). }
  split; [reflexivity|].
  change (combine_languages "union" ∅ (ma :: ms))
    with (for_each (add_languages (fun a b => Ok (a ∪ b)) ∅) (ma :: ms) (taxon_set ma)).
  rewrite for_each_union. f_equal.
  change (⋃ (taxon_set <$> ma :: ms)) with (taxon_set ma ∪ ⋃ (taxon_set <$> ms)).
  rewrite (assoc_L (∪)), (idemp_L (∪)). reflexivity.
Qed.

Lemma unmatched_families_keep_all_witness :
  compute_lang_filter ["Germanic"] {[ "abcd1234" := [("Romance", "roma1334")] ]} = ∅
  /\ combine_languages "union"
       (compute_lang_filter ["Germanic"] {[ "abcd1234" := [("Romance", "roma1334")] ]})
       [Examples.dataset "one" "ab.csv" ["a"; "b"]; Examples.dataset "two" "bc.csv" ["b"; "c"]]
     = Ok (⋃ (taxon_set <$> [Examples.dataset "one" "ab.csv" ["a"; "b"];
                             Examples.dataset "two" "bc.csv" ["b"; "c"]])).
Proof.
  apply (unmatched_families_keep_all ["Germanic"]
           {[ "abcd1234" := [("Romance", "roma1334")] ]}).
  intros l cl family Hcl Hfam.
  apply list_elem_of_singleton in Hfam as ->.
  apply lookup_singleton_Some in Hcl as [_ <-]. simpl.
  intros H. repeat (apply elem_of_cons in H as [H|H]; [discriminate|]). inversion H.
Defined.

(** ** The overlap policies under a family filter *)

Lemma for_each_intersection_filtered (F : gset string) (ms : list Model) (acc : gset string) :
  F ≠ ∅ ->
  exists X, for_each (add_languages (fun a b => Ok (a ∩ b)) F) ms acc = Ok X
            /\ forall x, x ∈ X <-> x ∈ acc /\ Forall (fun m => x ∈ taxon_set m /\ x ∈ F) ms.
Proof.
  intros HF. revert acc. induction ms as [|m ms IH]; intros acc; cbn [for_each].
  - exists acc. split; [reflexivity|]. intros x. split; [intros H; split; [exact H|constructor]|].
    intros [H _]. exact H.
  - unfold add_languages at 1. destruct (decide (F ≠ ∅)) as [_|Hn]; [|contradiction].
    destruct (IH (acc ∩ (dom (data m) ∩ F))) as (X & -> & HS). exists X.
    split; [reflexivity|]. intros x.
    rewrite HS, !elem_of_intersection, Forall_cons. unfold taxon_set. tauto.
Qed.

Lemma for_each_error_filtered (F : gset string) (ms : list Model) (acc : gset string) :
  F ≠ ∅ ->
  match for_each (add_languages assert_compare_equal F) ms acc with
  | Ok X => X = acc /\ Forall (fun m => taxon_set m ∩ F = acc) ms
  | Raise e => (exists msg, e = ValueError msg)
               /\ ~ Forall (fun m => taxon_set m ∩ F = acc) ms
  end.
Proof.
  intros HF. induction ms as [|m ms IH]; cbn [for_each].
  - split; [reflexivity|constructor].
  - unfold add_languages at 1. destruct (decide (F ≠ ∅)) as [_|Hn]; [|contradiction].
    unfold assert_compare_equal at 1. fold (taxon_set m).
    destruct (decide (acc ≠ taxon_set m ∩ F)) as [Hne|Heq].
    + split; [eexists; reflexivity|]. intros HF'. apply Forall_cons in HF' as [Hm _].
      congruence.
    + assert (taxon_set m ∩ F = acc) as Hm.
      { destruct (decide (acc = taxon_set m ∩ F)) as [->|Hx]; [reflexivity|].
        exfalso. exact (Heq Hx). }
      destruct (for_each _ ms acc) as [X|e].
      * destruct IH as [-> HF']. split; [reflexivity|]. constructor; assumption.
      * destruct IH as [Hmsg HF']. split; [exact Hmsg|]. intros HF''.
        apply Forall_cons in HF'' as [_ HF'']. exact (HF' HF'').
Qed.

(** X9. The overlap policies when a family filter is in force.  Under
    [union] the languages of the first dataset are all kept, filtered or
    not, together with the filtered languages of the other datasets.
    Under [intersection] the result is the languages of the filter that
    every dataset has.  Under the equality policy (overlap [error]) the
    pass succeeds only if the first dataset lies within the filter and
    every other dataset, cut down to the filter, equals it. *)
Theorem overlap_policies_filtered (F : gset string) (ma : Model) (ms : list Model) :
  F ≠ ∅ ->
  (exists X, combine_languages "union" F (ma :: ms) = Ok X
             /\ forall x, x ∈ X <-> x ∈ taxon_set ma
                                    \/ (x ∈ F /\ Exists (fun m => x ∈ taxon_set m) ms))
  /\ (exists X, combine_languages "intersection" F (ma :: ms) = Ok X
                /\ forall x, x ∈ X <-> x ∈ F /\ Forall (fun m => x ∈ taxon_set m) (ma :: ms))
  /\ match combine_languages "error" F (ma :: ms) with
     | Ok X => X = taxon_set ma /\ taxon_set ma ⊆ F
               /\ Forall (fun m => taxon_set m ∩ F = taxon_set ma) ms
     | Raise e => (exists msg, e = ValueError msg)
                  /\ ~ (taxon_set ma ⊆ F
                        /\ Forall (fun m => taxon_set m ∩ F = taxon_set ma) ms)
     end.
Proof.
  intros HF. split; [|split].
  - exists (taxon_set ma ∪ ⋃ ((fun m => taxon_set m ∩ F) <$> ma :: ms)).
    split; [apply combine_union_filtered, HF|].
    intros x. rewrite elem_of_union, elem_of_union_list. split.
    + intros [H|(Y & HY & Hx)]; [left; exact H|].
      apply list_elem_of_fmap in HY as (m & -> & Hm).
      apply elem_of_intersection in Hx as [Hx HxF].
      apply elem_of_cons in Hm as [->|Hm]; [left; exact Hx|].
      right. split; [exact HxF|]. apply Exists_exists. exists m. split; assumption.
    + intros [H|[HxF Hex]]; [left; exact H|].
      apply Exists_exists in Hex as (m & Hm & Hx). right.
      exists (taxon_set m ∩ F). split.
      * apply list_elem_of_fmap. exists m. split; [reflexivity|].
        apply list_elem_of_further, Hm.
      * apply elem_of_intersection. split; assumption.
  - change (combine_languages "intersection" F (ma :: ms))
      with (for_each (add_languages (fun a b => Ok (a ∩ b)) F) (ma :: ms) (taxon_set ma)).
    destruct (for_each_intersection_filtered F (ma :: ms) (taxon_set ma) HF) as (X & HS & Hx).
    exists X. split; [exact HS|]. intros x. rewrite Hx. rewrite !Forall_cons.
    rewrite Forall_and. rewrite (Forall_forall (fun _ => x ∈ F)). split.
    + intros (_ & (Ha & HxF) & Hms & _). tauto.
    + intros (HxF & Ha & Hms). repeat split; auto.
  - change (combine_languages "error" F (ma :: ms))
      with (for_each (add_languages assert_compare_equal F) (ma :: ms) (taxon_set ma)).
    pose proof (for_each_error_filtered F (ma :: ms) (taxon_set ma) HF) as H.
    destruct (for_each _ (ma :: ms) (taxon_set ma)) as [X|e].
    + destruct H as [-> HF']. apply Forall_cons in HF' as [Ha HF'].
      split; [reflexivity|]. split; [|exact HF'].
      intros x Hx. rewrite <- Ha in Hx. apply elem_of_intersection in Hx as [_ Hx]. exact Hx.
    + destruct H as [Hmsg HF']. split; [exact Hmsg|]. intros [Hsub Hms]. apply HF'.
      constructor; [|exact Hms].
      apply leibniz_equiv. intros x. rewrite elem_of_intersection. split; [tauto|].
      intros Hx. split; [exact Hx|exact (Hsub x Hx)].
Qed.

Lemma overlap_policies_filtered_witness :
  (exists X, combine_languages "union" {[ "b" ]}
               [Examples.dataset "one" "ab.csv" ["a"; "b"];
                Examples.dataset "two" "bc.csv" ["b"; "c"]] = Ok X
             /\ "a" ∈ X /\ "c" ∉ X)
  /\ (exists msg, combine_languages "error" {[ "b" ]}
                    [Examples.dataset "one" "ab.csv" ["a"; "b"];
                     Examples.dataset "two" "ab.csv" ["a"; "b"]]
                  = Raise (ValueError msg)).
Proof.
  assert (({[ "b" ]} : gset string) ≠ ∅) as HF.
  { intros H. apply (not_elem_of_empty (C := gset string) "b"). rewrite <- H.
    apply elem_of_singleton. reflexivity. }
  split.
  - destruct (overlap_policies_filtered {[ "b" ]} (Examples.dataset "one" "ab.csv" ["a"; "b"])
                [Examples.dataset "two" "bc.csv" ["b"; "c"]] HF) as [(X & HX & Hx) _].
    exists X. split; [exact HX|]. split.
    + apply Hx. left. vm_compute. reflexivity.
    + intros Hc. apply Hx in Hc as [Hc|[Hc _]].
      * vm_compute in Hc. discriminate.
      * apply elem_of_singleton in Hc. discriminate.
  - destruct (overlap_policies_filtered {[ "b" ]} (Examples.dataset "one" "ab.csv" ["a"; "b"])
                [Examples.dataset "two" "ab.csv" ["a"; "b"]] HF) as (_ & _ & H).
    destruct (combine_languages "error" _ _) as [X|e].
    + exfalso. destruct H as (_ & Hsub & _).
      assert ("a" ∈ ({[ "b" ]} : gset string)) as Ha.
      { apply Hsub. vm_compute. reflexivity. }
      apply elem_of_singleton in Ha. discriminate.
    + destruct H as [(msg & ->) _]. exists msg. reflexivity.
Defined.

(** ** What a successful pass leaves behind *)

Section Pass.
Variable E : Configuration.Env.

(** X10. After a successful pass the languages are in strictly sorted
    order without repetition, and they are the members of the set the
    overlap policy of the configuration arrives at for the models the
    pass made and the family filter it computed. *)
Theorem processed_languages_sorted (self self' : Configuration) :
  process E self = Ok self' ->
  StronglySorted String.le (languages self')
  /\ NoDup (languages self')
  /\ exists self1 self2 made X,
       prepare E self = Ok self1
       /\ instantiate_models E self1 = Ok (self2, made)
       /\ combine_languages (overlap (settings self)) (lang_filter self1) made = Ok X
       /\ lang_filter self' = lang_filter self1
       /\ forall l, l ∈ languages self' <-> l ∈ X.
Proof.
  intros H.
  assert (lang_filter self' = match prepare E self with
                              | Ok self1 => lang_filter self1
                              | Raise _ => ∅
                              end) as Hfilter.
  { revert H. unfold process, mbind, result_bind.
    destruct (prepare E self) as [s1|]; [|discriminate].
    destruct (instantiate_models E s1) as [[s2 made]|] eqn:H2; [|discriminate].
    destruct (finalise_languages _ _ made); [|discriminate].
    intros [= <-]. cbn [lang_filter message set_messages].
    destruct (instantiate_models_same_options E _ _ _ H2) as (_ & _ & _ & _ & Hf & _).
    exact Hf. }
  apply process_stages in H as (s1 & s2 & made & ls & H1 & H2 & Hf & Hs & _ & _ & <- & _).
  rewrite H1 in Hfilter.
  destruct (prepare_sets E _ _ H1) as (Hs1 & _).
  destruct (instantiate_models_same_options E _ _ _ H2) as (Hs2 & _ & _ & _ & Hf2 & _).
  rewrite Hs2, Hs1, Hf2 in Hf.
  unfold finalise_languages in Hf. unfold mbind, result_bind in Hf.
  destruct (combine_languages _ _ made) as [X|] eqn:HX; [|discriminate].
  destruct (decide (X = ∅)); [discriminate|]. injection Hf as <-.
  unfold sorted. split; [apply StronglySorted_merge_sort; apply _|].
  split.
  - rewrite merge_sort_Permutation. apply NoDup_elements.
  - exists s1, s2, made, X. split; [exact H1|]. split; [exact H2|]. split; [exact HX|].
    split; [exact Hfilter|].
    intros l. rewrite merge_sort_Permutation. apply elem_of_elements.
Qed.
Lemma prepare_fields self self1 :
  prepare E self = Ok self1 ->
  models self1 = []
  /\ model_objects self1 = model_objects self
  /\ message_flags self1 = message_flags self
  /\ (exists added, messages self1 = messages self ++ added)
  /\ length (model_configs self1) = length (model_configs self).
Proof.
  unfold prepare. unfold mbind, result_bind.
  destruct (process_families _) as [fam|e]; [|discriminate].
  destruct (glottolog E _) as [cls|e]; [|discriminate].
  destruct (bool_decide _); [discriminate|].
  intros [= <-]. simpl.
  split; [reflexivity|].
  destruct (monophyly (settings self) && negb (truthy (starting_tree self))); simpl.
  - split; [reflexivity|]. split; [reflexivity|]. split; [eexists; reflexivity|].
    destruct (stdin_data (settings self)); [apply length_map|reflexivity].
  - split; [reflexivity|]. split; [reflexivity|].
    split; [exists []; rewrite app_nil_r; reflexivity|].
    destruct (stdin_data (settings self)); [apply length_map|reflexivity].
Qed.

Lemma process_fields self self' :
  process E self = Ok self' ->
  exists self1 self2 made,
    prepare E self = Ok self1
    /\ instantiate_models E self1 = Ok (self2, made)
    /\ models self' = models self2
    /\ model_objects self' = model_objects self2
    /\ model_configs self' = model_configs self2
    /\ message_flags self' = message_flags self2
    /\ messages self'
       = messages self2 ++ ["[INFO] " +:+ str_len (length (languages self'))
                            +:+ " languages included in analysis."].
Proof.
  unfold process. unfold mbind, result_bind.
  destruct (prepare E self) as [self1|e] eqn:H1; [|discriminate].
  destruct (instantiate_models E self1) as [[self2 made]|e] eqn:H2; [|discriminate].
  destruct (finalise_languages _ _ made) as [ls|e] eqn:H3; [|discriminate].
  intros [= <-]. exists self1, self2, made.
  split; [reflexivity|]. split; [exact H2|]. repeat split.
Qed.

Lemma notice_once_grows self flag notice :
  (exists added, messages (notice_once self flag notice) = messages self ++ added)
  /\ (NoDup (message_flags self) -> NoDup (message_flags (notice_once self flag notice)))
  /\ models (notice_once self flag notice) = models self
  /\ model_objects (notice_once self flag notice) = model_objects self
  /\ model_configs (notice_once self flag notice) = model_configs self.
Proof.
  unfold notice_once. destruct (bool_decide (flag ∈ message_flags self)) eqn:Hf; simpl.
  - split; [exists []; rewrite app_nil_r; reflexivity|]. repeat split. auto.
  - split; [eexists; reflexivity|]. split; [|repeat split].
    intros Hnd. apply NoDup_app. split; [exact Hnd|]. split; [|apply NoDup_singleton].
    intros x Hx Hx'. apply list_elem_of_singleton in Hx' as ->.
    apply bool_decide_eq_false in Hf. contradiction.
Qed.

(** One round of the loop that instantiates the models. *)
Lemma instantiate_model_step self made config self' made' :
  instantiate_model E (self, made) config = Ok (self', made') ->
  exists model,
    made' = made ++ [model]
    /\ built_from E config model
    /\ models self' = models self ++ [fresh (dom (model_objects self))]
    /\ model_objects self' = <[fresh (dom (model_objects self)) := model]> (model_objects self)
    /\ model_configs self' = model_configs self
    /\ (exists added, messages self' = messages self ++ added)
    /\ (NoDup (message_flags self) -> NoDup (message_flags self')).
Proof.
  unfold instantiate_model. unfold mbind, result_bind.
  destruct (negb (dict_has config "model"));
    [destruct (dict_item config "name"); discriminate|].
  destruct (negb (dict_has config "data"));
    [destruct (dict_item config "name"); discriminate|].
  destruct (dict_item config "model") as [mv|]; [|discriminate].
  destruct (as_str mv) as [kind|]; [|discriminate].
  match goal with
  | |- context [match ?x with Ok _ => _ | Raise _ => _ end] =>
      destruct x as [[model c]|] eqn:Hmake; [|discriminate]
  end.
  assert (built_from E config model
          /\ (exists added, messages c = messages self ++ added)
          /\ (NoDup (message_flags self) -> NoDup (message_flags c))
          /\ models c = models self
          /\ model_objects c = model_objects self
          /\ model_configs c = model_configs self) as (Hb & Hm & Hf & Hms & Hos & Hcs).
  { destruct (String.eqb (lower kind) "bsvs").
    { destruct (BSVSModel E config self) eqn:Hc; [|discriminate].
      injection Hmake as <- <-. split; [exists self; left; exact Hc|].
      apply notice_once_grows. }
    destruct (String.eqb (lower kind) "covarion").
    { destruct (CovarionModel E config self) eqn:Hc; [|discriminate].
      injection Hmake as <- <-. split; [exists self; right; left; exact Hc|].
      split; [exists []; rewrite app_nil_r; reflexivity|]. repeat split. auto. }
    destruct (String.eqb (lower kind) "mk").
    { destruct (MKModel E config self) eqn:Hc; [|discriminate].
      injection Hmake as <- <-. split; [exists self; right; right; exact Hc|].
      apply notice_once_grows. }
    destruct (dict_item config "name"); discriminate. }
  match goal with
  | |- context [match ?x with Ok _ => _ | Raise _ => _ end] =>
      destruct x as [c'|] eqn:Hdep; [|discriminate]
  end.
  assert ((exists added, messages c' = messages c ++ added)
          /\ message_flags c' = message_flags c
          /\ models c' = models c
          /\ model_objects c' = model_objects c
          /\ model_configs c' = model_configs c) as (Hm' & Hf' & Hms' & Hos' & Hcs').
  { destruct (negb (String.eqb (lower kind) "covarion")).
    - destruct (dict_item config "name"); [|discriminate].
      injection Hdep as <-. split; [eexists; reflexivity|]. repeat split.
    - injection Hdep as <-. split; [exists []; rewrite app_nil_r; reflexivity|]. repeat split. }
  intros [= <- <-]. exists model. simpl.
  split; [reflexivity|]. split; [exact Hb|].
  rewrite Hms', Hms, Hos', Hos, Hcs', Hcs, Hf'.
  split; [reflexivity|]. split; [reflexivity|]. split; [reflexivity|].
  split; [|exact Hf].
  destruct Hm as (a1 & Ha1). destruct Hm' as (a2 & Ha2).
  exists (a1 ++ a2 ++ m_messages model). rewrite Ha2, Ha1, !app_assoc. reflexivity.
Qed.

Lemma list_omap_ext {A B} (f g : A -> option B) (l : list A) :
  (forall x, x ∈ l -> f x = g x) -> omap f l = omap g l.
Proof.
  induction l as [|x l IH]; intros H; [reflexivity|].
  change (omap f (x :: l)) with (match f x with Some y => y :: omap f l | None => omap f l end).
  change (omap g (x :: l)) with (match g x with Some y => y :: omap g l | None => omap g l end).
  rewrite (H x) by apply list_elem_of_here.
  rewrite IH; [reflexivity|]. intros y Hy. apply H, list_elem_of_further, Hy.
Qed.

Lemma length_omap_total {A B} (f : A -> option B) (l : list A) :
  (forall x, x ∈ l -> is_Some (f x)) -> length (omap f l) = length l.
Proof.
  induction l as [|x l IH]; intros H; [reflexivity|].
  change (omap f (x :: l)) with (match f x with Some y => y :: omap f l | None => omap f l end).
  destruct (H x) as (y & ->); [apply list_elem_of_here|]. simpl. f_equal.
  apply IH. intros z Hz. apply H, list_elem_of_further, Hz.
Qed.

Lemma denotes_append self made model :
  denotes self made -> denotes (models_append self model) (made ++ [model]).
Proof.
  intros (Hthe & Hnd & Hin). unfold denotes, models_append. simpl.
  set (o := fresh (dom (model_objects self))).
  assert (o ∉ models self) as Ho.
  { intros Ho. apply Hin in Ho. apply elem_of_dom in Ho.
    exact (is_fresh (dom (model_objects self)) Ho). }
  split; [|split].
  - unfold the_models in *. simpl. rewrite omap_app. simpl.
    rewrite lookup_insert_eq. simpl. f_equal.
    rewrite <- Hthe. apply list_omap_ext. intros o' Ho'.
    rewrite lookup_insert_ne; [reflexivity|]. intros ->. exact (Ho Ho').
  - apply NoDup_app. split; [exact Hnd|]. split; [|apply NoDup_singleton].
    intros x Hx Hx'. apply list_elem_of_singleton in Hx' as ->. exact (Ho Hx).
  - intros o' Ho'. apply elem_of_app in Ho' as [Ho'|Ho'].
    + rewrite lookup_insert_ne; [exact (Hin o' Ho')|]. intros ->. exact (Ho Ho').
    + apply list_elem_of_singleton in Ho' as ->. rewrite lookup_insert_eq. eexists; reflexivity.
Qed.

Lemma instantiate_all (configs : list (dict optval)) self made self' made' :
  for_each (instantiate_model E) configs (self, made) = Ok (self', made') ->
  denotes self made ->
  exists new,
    made' = made ++ new
    /\ Forall2 (built_from E) configs new
    /\ denotes self' made'
    /\ model_configs self' = model_configs self
    /\ model_objects self ⊆ model_objects self'
    /\ (forall o, o ∈ models self' -> o ∈ models self \/ model_objects self !! o = None)
    /\ (exists added, messages self' = messages self ++ added)
    /\ (NoDup (message_flags self) -> NoDup (message_flags self')).
Proof.
  revert self made. induction configs as [|config configs IH]; intros self made;
    cbn [for_each].
  - intros [= <- <-] Hd. exists []. rewrite app_nil_r.
    split; [reflexivity|]. split; [constructor|]. split; [exact Hd|].
    split; [reflexivity|]. split; [reflexivity|]. split; [auto|].
    split; [exists []; rewrite app_nil_r; reflexivity|auto].
  - destruct (instantiate_model E (self, made) config) as [[s1 m1]|e] eqn:Hstep; [|discriminate].
    intros Hrest Hd.
    destruct (instantiate_model_step _ _ _ _ _ Hstep)
      as (model & -> & Hb & Hms & Hos & Hcs & (a1 & Ha1) & Hf1).
    assert (denotes s1 (made ++ [model])) as Hd1.
    { pose proof (denotes_append self made model Hd) as (H1 & H2 & H3).
      unfold denotes, the_models in *. unfold models_append in H1, H2, H3. simpl in H1, H2, H3.
      rewrite Hms, Hos. auto. }
    destruct (IH _ _ Hrest Hd1)
      as (new & -> & HF & Hd' & Hcs' & Hsub & Hnew & (a2 & Ha2) & Hf2).
    assert (model_objects self ⊆ model_objects s1) as Hsub1.
    { rewrite Hos. apply insert_subseteq. apply not_elem_of_dom. apply is_fresh. }
    exists (model :: new). rewrite <- app_assoc. simpl.
    split; [reflexivity|]. split; [constructor; assumption|].
    split; [rewrite <- app_assoc in Hd'; exact Hd'|].
    split; [congruence|]. split; [etransitivity; [exact Hsub1|exact Hsub]|]. split.
    + intros o Ho. destruct (Hnew o Ho) as [Hin|Hnone].
      * rewrite Hms in Hin. apply elem_of_app in Hin as [Hin|Hin]; [left; exact Hin|].
        apply list_elem_of_singleton in Hin as ->. right.
        apply not_elem_of_dom. apply is_fresh.
      * right. exact (lookup_weaken_None _ _ _ Hnone Hsub1).
    + split; [exists (a1 ++ a2); rewrite Ha2, Ha1, app_assoc; reflexivity|auto].
Qed.

(** X11. After a successful pass the configuration refers to one model
    object per model section, in the order of the sections: each is an
    object that a model class built from the options of its section, the
    references are pairwise different and new, and the objects that
    existed before are still there. *)
Theorem one_model_per_section (self self' : Configuration) :
  process E self = Ok self' ->
  Forall2 (built_from E) (model_configs self') (the_models self' (models self'))
  /\ length (models self') = length (model_configs self)
  /\ NoDup (models self')
  /\ Forall (fun o => model_objects self !! o = None) (models self')
  /\ model_objects self ⊆ model_objects self'.
Proof.
  intros H. apply process_fields in H as (s1 & s2 & made & Hp & Hi & Hms & Hos & Hcs & _ & _).
  apply prepare_fields in Hp as (Hm1 & Ho1 & _ & _ & Hlen).
  unfold instantiate_models in Hi.
  apply instantiate_all in Hi
    as (new & -> & HF & (Hthe & Hnd & Hin) & Hcs2 & Hsub & Hnew & _ & _).
  2:{ unfold denotes, the_models. rewrite Hm1. simpl. split; [reflexivity|].
      split; [apply NoDup_nil_2|]. intros o Ho. inversion Ho. }
  simpl in *. unfold the_models in *. rewrite Hms, Hos, Hcs, Hcs2.
  rewrite Hthe. split; [exact HF|].
  assert (length (models s2) = length new) as Hl.
  { rewrite <- Hthe. symmetry. apply length_omap_total. exact Hin. }
  split; [rewrite Hl, <- Hlen; symmetry; exact (Forall2_length _ _ _ HF)|].
  split; [exact Hnd|]. split; [|rewrite <- Ho1; exact Hsub].
  apply Forall_forall. intros o Ho. rewrite <- Ho1.
  destruct (Hnew o Ho) as [Hin'|Hnone]; [|exact Hnone].
  rewrite Hm1 in Hin'. inversion Hin'.
Qed.

(** X12. A pass only adds to the messages of the configuration: the
    messages it had are kept in front, and the last message reports the
    number of languages.  The flags of the package notices stay free of
    repetitions, so that each notice is given once. *)
Theorem messages_only_grow (self self' : Configuration) :
  process E self = Ok self' ->
  (exists added,
      messages self'
      = messages self ++ added
        ++ ["[INFO] " +:+ str_len (length (languages self'))
            +:+ " languages included in analysis."])
  /\ (NoDup (message_flags self) -> NoDup (message_flags self')).
Proof.
  intros H. apply process_fields in H as (s1 & s2 & made & Hp & Hi & _ & _ & _ & Hfl & Hmsg).
  apply prepare_fields in Hp as (Hm1 & _ & Hf1 & (a1 & Ha1) & _).
  unfold instantiate_models in Hi.
  apply instantiate_all in Hi as (new & _ & _ & _ & _ & _ & _ & (a2 & Ha2) & Hf2).
  2:{ unfold denotes, the_models. rewrite Hm1. simpl. split; [reflexivity|].
      split; [apply NoDup_nil_2|]. intros o Ho. inversion Ho. }
  simpl in *. split.
  - exists (a1 ++ a2). rewrite Hmsg, Ha2, Ha1, !app_assoc. reflexivity.
  - rewrite Hfl, <- Hf1. exact Hf2.
Qed.
End Pass.

Lemma processed_languages_sorted_witness :
  exists self',
    process Examples.cenv
      (Examples.with_settings (Examples.settings_with 10000000 "union") 0
         [Examples.model_section "one" "bc.csv"; Examples.model_section "two" "ab.csv"])
    = Ok self'
    /\ languages self' = ["a"; "b"; "c"]
    /\ StronglySorted String.le (languages self') /\ NoDup (languages self').
Proof.
  destruct (process Examples.cenv
      (Examples.with_settings (Examples.settings_with 10000000 "union") 0
         [Examples.model_section "one" "bc.csv"; Examples.model_section "two" "ab.csv"]))
    as [self'|e] eqn:Hrun; [|exfalso; vm_compute in Hrun; discriminate].
  exists self'. split; [reflexivity|].
  destruct (processed_languages_sorted _ _ _ Hrun) as (Hs & Hn & _).
  split; [|split; assumption].
  vm_compute in Hrun. injection Hrun as <-. reflexivity.
Defined.

Lemma one_model_per_section_witness :
  exists self',
    process Examples.cenv
      (Examples.with_settings (Examples.settings_with 10000000 "union") 0
         [Examples.model_section "one" "bc.csv"; Examples.model_section "two" "ab.csv"])
    = Ok self'
    /\ length (models self') = 2%nat /\ NoDup (models self').
Proof.
  destruct (process Examples.cenv
      (Examples.with_settings (Examples.settings_with 10000000 "union") 0
         [Examples.model_section "one" "bc.csv"; Examples.model_section "two" "ab.csv"]))
    as [self'|e] eqn:Hrun; [|exfalso; vm_compute in Hrun; discriminate].
  exists self'. split; [reflexivity|].
  destruct (one_model_per_section _ _ _ Hrun) as (_ & Hl & Hn & _).
  split; assumption.
Defined.

Lemma messages_only_grow_witness :
  exists self' added,
    process Examples.cenv
      (Examples.with_settings (Examples.settings_with 10000000 "union") 0
         [Examples.model_section "one" "bc.csv"; Examples.model_section "two" "ab.csv"])
    = Ok self'
    /\ messages self'
       = [] ++ added ++ ["[INFO] " +:+ str_len (length (languages self'))
                         +:+ " languages included in analysis."].
Proof.
  destruct (process Examples.cenv
      (Examples.with_settings (Examples.settings_with 10000000 "union") 0
         [Examples.model_section "one" "bc.csv"; Examples.model_section "two" "ab.csv"]))
    as [self'|e] eqn:Hrun; [|exfalso; vm_compute in Hrun; discriminate].
  destruct (messages_only_grow _ _ _ Hrun) as ((added & Hm) & _).
  exists self', added. split; [reflexivity|exact Hm].
Defined.

(** ** What a pass requires of the model sections *)

Lemma for_each_Ok_Forall {A S} (body : S -> A -> result S) (P : A -> Prop) xs s s' :
  (forall s x s', body s x = Ok s' -> P x) ->
  for_each body xs s = Ok s' -> Forall P xs.
Proof.
  intros Hbody. revert s. induction xs as [|x xs IH]; intros s; cbn [for_each].
  - intros _. constructor.
  - destruct (body s x) as [s1|e] eqn:Hx; [|discriminate].
    intros H. constructor; [exact (Hbody _ _ _ Hx)|exact (IH _ H)].
Qed.

Lemma dict_get_set_ne {V} (d : dict V) k k' v :
  k <> k' -> dict_get (dict_set d k v) k' = dict_get d k'.
Proof.
  intros Hne. induction d as [|[k0 v0] d IH]; simpl.
  - destruct (String.eqb k k') eqn:Heq; [apply String.eqb_eq in Heq; contradiction|reflexivity].
  - destruct (String.eqb k0 k) eqn:Hk; simpl.
    + apply String.eqb_eq in Hk as ->.
      destruct (String.eqb k k') eqn:Heq; [apply String.eqb_eq in Heq; contradiction|reflexivity].
    + destruct (String.eqb k0 k'); [reflexivity|exact IH].
Qed.

Lemma instantiate_model_requires (E : Configuration.Env) st config st' :
  instantiate_model E st config = Ok st' ->
  (exists kind, dict_get config "model" = Some (OStr kind)
                /\ lower kind ∈ ["bsvs"; "covarion"; "mk"])
  /\ dict_has config "data" = true.
Proof.
  destruct st as [self made]. unfold instantiate_model. unfold mbind, result_bind.
  destruct (negb (dict_has config "model"));
    [destruct (dict_item config "name"); discriminate|].
  destruct (dict_has config "data") eqn:Hdata; simpl negb; cbv iota;
    [|destruct (dict_item config "name"); discriminate].
  unfold dict_item at 1.
  destruct (dict_get config "model") as [mv|] eqn:Hm; [|discriminate].
  destruct mv as [kind| |]; simpl as_str; cbv iota; try discriminate.
  intros H. split; [|reflexivity]. exists kind. split; [reflexivity|].
  destruct (String.eqb (lower kind) "bsvs") eqn:H1.
  { apply String.eqb_eq in H1 as ->. apply list_elem_of_here. }
  destruct (String.eqb (lower kind) "covarion") eqn:H2.
  { apply String.eqb_eq in H2 as ->. apply list_elem_of_further, list_elem_of_here. }
  destruct (String.eqb (lower kind) "mk") eqn:H3.
  { apply String.eqb_eq in H3 as ->. do 2 apply list_elem_of_further. apply list_elem_of_here. }
  destruct (dict_item config "name"); discriminate.
Qed.

Lemma prepare_configs (E : Configuration.Env) self self1 :
  prepare E self = Ok self1 ->
  model_configs self1
  = (if stdin_data (settings self)
     then map (fun config => dict_set config "data" (OStr "stdin")) (model_configs self)
     else model_configs self)
  /\ model_configs self1 <> [].
Proof.
  unfold prepare. unfold mbind, result_bind.
  destruct (process_families _) as [fam|e]; [|discriminate].
  destruct (glottolog E _) as [cls|e]; [|discriminate].
  destruct (bool_decide _) eqn:Hnil; [discriminate|].
  apply bool_decide_eq_false in Hnil. revert Hnil.
  destruct (monophyly (settings self) && negb (truthy (starting_tree self)));
    intros Hnil [= <-]; simpl; simpl in Hnil; split; [reflexivity|exact Hnil|reflexivity|exact Hnil].
Qed.

(** X13. A pass succeeds only on a configuration that has a model
    section, each of whose sections names one of the models [bsvs],
    [covarion] and [mk] (in any case of the letters) and, unless the
    data come from standard input, a data source. *)
Theorem process_requires_sections (E : Configuration.Env) (self self' : Configuration) :
  process E self = Ok self' ->
  model_configs self <> []
  /\ Forall (fun config =>
               (exists kind, dict_get config "model" = Some (OStr kind)
                             /\ lower kind ∈ ["bsvs"; "covarion"; "mk"])
               /\ (stdin_data (settings self) = true \/ dict_has config "data" = true))
            (model_configs self).
Proof.
  unfold process. unfold mbind, result_bind.
  destruct (prepare E self) as [self1|e] eqn:H1; [|discriminate].
  destruct (instantiate_models E self1) as [[self2 made]|e] eqn:H2; [|discriminate].
  intros _. unfold instantiate_models in H2.
  apply (for_each_Ok_Forall _ _ _ _ _ (instantiate_model_requires E)) in H2.
  apply prepare_configs in H1 as [Hcfg Hnil]. rewrite Hcfg in H2, Hnil.
  destruct (stdin_data (settings self)) eqn:Hstdin.
  - split; [intros Hn; apply Hnil; rewrite Hn; reflexivity|].
    apply (proj1 (Forall_fmap _ _ _)) in H2.
    eapply Forall_impl; [exact H2|]. intros config [(kind & Hk & Hin) _]. simpl in Hk.
    rewrite dict_get_set_ne in Hk by discriminate.
    split; [exists kind; split; assumption|left; reflexivity].
  - split; [exact Hnil|].
    eapply Forall_impl; [exact H2|]. intros config [Hk Hd]. split; [exact Hk|right; exact Hd].
Qed.

Lemma process_requires_sections_witness :
  Forall (fun config =>
            (exists kind, dict_get config "model" = Some (OStr kind)
                          /\ lower kind ∈ ["bsvs"; "covarion"; "mk"])
            /\ (false = true \/ dict_has config "data" = true))
         [Examples.model_section "m" "ab.csv"].
Proof.
  destruct (process Examples.cenv Examples.basic) as [self'|e] eqn:Hrun;
    [|exfalso; vm_compute in Hrun; discriminate].
  destruct (process_requires_sections _ _ _ Hrun) as [_ H]. exact H.
Defined.

(** ** The format that is guessed for a data file *)

Section Guess.
Import Datareaders.
Variable E : Datareaders.Env.

(** X14. When no format is given, a file is read as CLDF exactly when
    its header has the columns [Language_ID] and [Value] and one of
    [Feature_ID] and [Parameter_ID], and as BEASTling's own format
    otherwise. *)
Theorem load_data_guesses_format (filename : string) (lang_column : option string)
    (d : dialect) (reader : Reader) :
  (filename = "stdin" /\ d = excel) \/ (filename <> "stdin" /\ sniff E filename = Ok d) ->
  UnicodeDictReader E filename d = Ok reader ->
  (cldf_header reader -> load_data E filename None lang_column = load_cldf_data reader)
  /\ (~ cldf_header reader ->
      load_data E filename None lang_column
      = load_beastling_data reader lang_column filename).
Proof.
  intros Hd Hr.
  assert (load_data E filename None lang_column
          = if forallb (fun f => bool_decide (f ∈ fieldnames reader)) ["Language_ID"; "Value"]
               && existsb (fun f => bool_decide (f ∈ fieldnames reader))
                          ["Feature_ID"; "Parameter_ID"]
            then load_cldf_data reader
            else load_beastling_data reader lang_column filename) as ->.
  { unfold load_data, mbind, result_bind.
    destruct Hd as [[-> ->]|[Hne Hs]].
    - rewrite String.eqb_refl. rewrite Hr. destruct (_ && _); reflexivity.
    - apply String.eqb_neq in Hne. rewrite Hne. cbn [given andb]. rewrite Hs, Hr.
      destruct (_ && _); reflexivity. }
  unfold cldf_header. cbn [forallb existsb].
  destruct (bool_decide ("Language_ID" ∈ fieldnames reader)) eqn:H1;
    destruct (bool_decide ("Value" ∈ fieldnames reader)) eqn:H2;
    destruct (bool_decide ("Feature_ID" ∈ fieldnames reader)) eqn:H3;
    destruct (bool_decide ("Parameter_ID" ∈ fieldnames reader)) eqn:H4;
    cbn [andb orb];
    try apply bool_decide_eq_true in H1; try apply bool_decide_eq_false in H1;
    try apply bool_decide_eq_true in H2; try apply bool_decide_eq_false in H2;
    try apply bool_decide_eq_true in H3; try apply bool_decide_eq_false in H3;
    try apply bool_decide_eq_true in H4; try apply bool_decide_eq_false in H4;
    (split; [intros (Ha & Hb & Hc)|intros Hn]); try reflexivity; try tauto.
Qed.
End Guess.

Lemma load_data_guesses_format_witness :
  Datareaders.load_data Examples.reader_env "cldf.csv" None None
  = Datareaders.load_cldf_data Examples.cldf_reader
  /\ Datareaders.load_data Examples.reader_env "basic.csv" None None
     = Datareaders.load_beastling_data Examples.beastling_reader None "basic.csv".
Proof.
  split.
  - destruct (load_data_guesses_format Examples.reader_env "cldf.csv" None
                Datareaders.excel Examples.cldf_reader) as [H _].
    + right. split; [discriminate|reflexivity].
    + reflexivity.
    + apply H. repeat split.
      * apply list_elem_of_here.
      * do 2 apply list_elem_of_further. apply list_elem_of_here.
      * left. apply list_elem_of_further, list_elem_of_here.
  - destruct (load_data_guesses_format Examples.reader_env "basic.csv" None
                Datareaders.excel Examples.beastling_reader) as [_ H].
    + right. split; [discriminate|reflexivity].
    + reflexivity.
    + apply H. intros (Hx & _). simpl in Hx.
      repeat (apply elem_of_cons in Hx as [Hx|Hx]; [discriminate|]). inversion Hx.
Defined.

(** ** The data readers *)

Section Readers.
Import Datareaders.

Lemma beastling_rows_loaded col filename (rs : list Row) (acc : Data) :
  Forall (fun r : Row => is_Some (r !! col)) rs ->
  NoDup (omap (fun r : Row => r !! col) rs) ->
  (forall l, l ∈ omap (fun r : Row => r !! col) rs -> acc !! l = None) ->
  exists data,
    for_each (beastling_row col filename) rs acc = Ok data
    /\ forall l r, data !! l = Some r
                   <-> acc !! l = Some r \/ (r ∈ rs /\ r !! col = Some l).
Proof.
  revert acc. induction rs as [|r0 rs IH]; intros acc Hwf Hnd Hnew.
  - exists acc. split; [reflexivity|]. intros l r. split; [auto|].
    intros [H|[H _]]; [exact H|inversion H].
  - apply Forall_cons in Hwf as [[l0 Hl0] Hwf].
    change (omap (fun r : Row => r !! col) (r0 :: rs))
      with (match r0 !! col with
            | Some y => y :: omap (fun r : Row => r !! col) rs
            | None => omap (fun r : Row => r !! col) rs
            end) in Hnd, Hnew.
    rewrite Hl0 in Hnd, Hnew. apply NoDup_cons in Hnd as [Hl0' Hnd].
    cbn [for_each]. unfold beastling_row at 1, row_item, mbind, result_bind. rewrite Hl0.
    assert (acc !! l0 = None) as Hnone by (apply Hnew, list_elem_of_here).
    rewrite bool_decide_eq_false_2 by (rewrite Hnone; intros [? ?]; discriminate).
    destruct (IH (<[l0 := r0]> acc) Hwf Hnd) as (data & Hrun & Hdata).
    { intros l Hl. rewrite lookup_insert_ne; [apply Hnew, list_elem_of_further, Hl|].
      intros ->. exact (Hl0' Hl). }
    exists data. split; [exact Hrun|]. intros l r. rewrite Hdata.
    rewrite lookup_insert_Some. split.
    + intros [[[<- <-]|[Hne Hacc]]|[Hin Hr]].
      * right. split; [apply list_elem_of_here|exact Hl0].
      * left. exact Hacc.
      * right. split; [apply list_elem_of_further, Hin|exact Hr].
    + intros [Hacc|[Hin Hr]].
      * left. right. split; [|exact Hacc]. intros <-. congruence.
      * apply elem_of_cons in Hin as [->|Hin].
        -- left. left. split; [congruence|reflexivity].
        -- right. split; assumption.
Qed.

(** X16. A dataset in BEASTling's own format whose records are complete
    and carry pairwise different language identifiers is loaded without
    loss: every record is found under its language, and nothing else is
    in the table. *)
Theorem beastling_data_round_trip (reader : Reader) (lang_column : option string)
    (filename col : string) :
  complete reader ->
  language_column reader lang_column filename = Ok col ->
  NoDup (omap (fun r : Row => r !! col) (rows reader)) ->
  exists data,
    load_beastling_data reader lang_column filename = Ok data
    /\ forall l r, data !! l = Some r <-> r ∈ rows reader /\ r !! col = Some l.
Proof.
  intros Hc Hcol Hnd. unfold load_beastling_data, mbind, result_bind. rewrite Hcol.
  destruct (beastling_rows_loaded col filename (rows reader) ∅) as (data & Hrun & Hdata).
  - apply Hc. exact (language_column_in_header _ _ _ _ Hcol).
  - exact Hnd.
  - intros l _. apply lookup_empty.
  - exists data. split; [exact Hrun|]. intros l r. rewrite Hdata. rewrite lookup_empty.
    split; [intros [H|H]; [discriminate|exact H]|intros H; right; exact H].
Qed.

Lemma cldf_row_value fc (acc : Data) (r0 : Row) l0 f0 v0 :
  r0 !! "Language_ID" = Some l0 -> r0 !! fc = Some f0 -> r0 !! "Value" = Some v0 ->
  exists acc',
    cldf_row fc acc r0 = Ok acc'
    /\ forall l f, value_of acc' l f
                   = if decide (about fc l f r0) then Some v0 else value_of acc l f.
Proof.
  intros Hl0 Hf0 Hv0.
  assert (cldf_row fc acc r0
          = Ok (<[l0 := <[f0 := v0]>
                          (default ∅ ((if bool_decide (is_Some (acc !! l0)) then acc
                                       else <[l0 := ∅]> acc) !! l0))]>
                  (if bool_decide (is_Some (acc !! l0)) then acc else <[l0 := ∅]> acc)))
    as Hrun.
  { unfold cldf_row, row_item, mbind, result_bind. rewrite Hl0, Hv0, Hf0. reflexivity. }
  eexists. split; [exact Hrun|]. clear Hrun.
  intros l f. unfold value_of, about. rewrite Hl0, Hf0.
  destruct (decide (l0 = l)) as [->|Hl].
  - rewrite lookup_insert_eq. simpl.
    destruct (decide (f0 = f)) as [->|Hf].
    + rewrite lookup_insert_eq.
      destruct (decide (Some l = Some l /\ Some f = Some f)) as [_|Hn]; [reflexivity|].
      exfalso. apply Hn. split; reflexivity.
    + rewrite lookup_insert_ne by exact Hf.
      destruct (decide (Some l = Some l /\ Some f0 = Some f)) as [[_ Hx]|_]; [congruence|].
      destruct (bool_decide (is_Some (acc !! l))) eqn:Hb.
      * apply bool_decide_eq_true in Hb as [m Hm]. rewrite Hm. reflexivity.
      * apply bool_decide_eq_false in Hb.
        rewrite lookup_insert_eq. simpl. rewrite lookup_empty.
        destruct (acc !! l) as [m|] eqn:Hm; [exfalso; apply Hb; eexists; reflexivity|].
        reflexivity.
  - rewrite lookup_insert_ne by exact Hl.
    destruct (decide (Some l0 = Some l /\ Some f0 = Some f)) as [[Hx _]|_]; [congruence|].
    destruct (bool_decide (is_Some (acc !! l0))); [reflexivity|].
    rewrite lookup_insert_ne by exact Hl. reflexivity.
Qed.

Lemma cldf_rows_recorded fc (rs : list Row) (acc : Data) :
  Forall (fun r : Row => is_Some (r !! "Language_ID") /\ is_Some (r !! "Value")
                         /\ is_Some (r !! fc)) rs ->
  exists data,
    for_each (cldf_row fc) rs acc = Ok data
    /\ forall l f, value_of data l f = recorded fc l f rs (value_of acc l f).
Proof.
  revert acc. induction rs as [|r0 rs IH]; intros acc Hwf.
  - exists acc. split; reflexivity.
  - apply Forall_cons in Hwf as [([l0 Hl0] & [v0 Hv0] & [f0 Hf0]) Hwf]. cbn [for_each].
    destruct (cldf_row_value fc acc r0 l0 f0 v0 Hl0 Hf0 Hv0) as (acc' & -> & Hacc').
    destruct (IH acc' Hwf) as (data & Hrun & Hdata).
    exists data. split; [exact Hrun|]. intros l f.
    rewrite Hdata, Hacc'. unfold recorded. simpl. rewrite Hv0. reflexivity.
Qed.

Lemma recorded_snoc fc l f (rs : list Row) (r : Row) init :
  recorded fc l f (rs ++ [r]) init
  = if decide (about fc l f r) then r !! "Value" else recorded fc l f rs init.
Proof. unfold recorded. rewrite foldl_snoc. reflexivity. Qed.

Lemma recorded_last fc l f (rs : list Row) v :
  Forall (fun r : Row => is_Some (r !! "Value")) rs ->
  recorded fc l f rs None = Some v
  <-> exists i r,
        rs !! i = Some r /\ about fc l f r /\ r !! "Value" = Some v
        /\ forall j r', (i < j)%nat -> rs !! j = Some r' -> ~ about fc l f r'.
Proof.
  induction rs as [|x rs IH] using rev_ind; intros Hwf.
  - split; [discriminate|]. intros (i & r & Hi & _). rewrite lookup_nil in Hi. discriminate.
  - apply Forall_app in Hwf as [Hwf _]. specialize (IH Hwf).
    rewrite recorded_snoc. destruct (decide (about fc l f x)) as [Hx|Hx].
    + split.
      * intros Hv. exists (length rs), x.
        split; [apply list_lookup_middle; reflexivity|]. split; [exact Hx|]. split; [exact Hv|].
        intros j r' Hj Hr'. apply lookup_lt_Some in Hr'. rewrite length_app in Hr'.
        simpl in Hr'. lia.
      * intros (i & r & Hi & Hr & Hv & Hlast).
        destruct (decide (i = length rs)) as [->|Hne].
        -- rewrite list_lookup_middle in Hi by reflexivity. congruence.
        -- exfalso. pose proof (lookup_lt_Some _ _ _ Hi) as Hlt.
           rewrite length_app in Hlt. simpl in Hlt.
           apply (Hlast (length rs) x); [lia| |exact Hx].
           apply list_lookup_middle. reflexivity.
    + rewrite IH. split.
      * intros (i & r & Hi & Hr & Hv & Hlast). exists i, r.
        pose proof (lookup_lt_Some _ _ _ Hi) as Hlt.
        split; [rewrite lookup_app_l by exact Hlt; exact Hi|].
        split; [exact Hr|]. split; [exact Hv|].
        intros j r' Hj Hr'.
        destruct (decide (j < length rs)%nat) as [Hjl|Hjl].
        -- rewrite lookup_app_l in Hr' by exact Hjl. exact (Hlast j r' Hj Hr').
        -- pose proof (lookup_lt_Some _ _ _ Hr') as Hjlt.
           rewrite length_app in Hjlt. simpl in Hjlt.
           assert (j = length rs) as -> by lia.
           rewrite list_lookup_middle in Hr' by reflexivity. congruence.
      * intros (i & r & Hi & Hr & Hv & Hlast).
        destruct (decide (i = length rs)) as [->|Hne].
        -- rewrite list_lookup_middle in Hi by reflexivity. congruence.
        -- pose proof (lookup_lt_Some _ _ _ Hi) as Hlt.
           rewrite length_app in Hlt. simpl in Hlt.
           rewrite lookup_app_l in Hi by lia.
           exists i, r. split; [exact Hi|]. split; [exact Hr|]. split; [exact Hv|].
           intros j r' Hj Hr'. apply (Hlast j r' Hj).
           rewrite lookup_app_l by (apply lookup_lt_Some in Hr'; exact Hr'). exact Hr'.
Qed.

(** X17. A CLDF dataset with complete records is loaded with one value
    per language and feature: the value of the last record about that
    language and feature.  Earlier records about the same pair are
    overwritten without notice. *)
Theorem cldf_last_record_wins (reader : Reader) :
  complete reader ->
  cldf_header reader ->
  exists data,
    load_cldf_data reader = Ok data
    /\ forall l f v,
         value_of data l f = Some v
         <-> exists i r,
               rows reader !! i = Some r
               /\ about (feature_column reader) l f r
               /\ r !! "Value" = Some v
               /\ forall j r', (i < j)%nat -> rows reader !! j = Some r' ->
                               ~ about (feature_column reader) l f r'.
Proof.
  intros Hc (Hlang & Hval & Hfeat). unfold load_cldf_data.
  fold (feature_column reader).
  assert (feature_column reader ∈ fieldnames reader) as Hfc.
  { unfold feature_column. destruct (bool_decide _) eqn:Hb.
    - apply bool_decide_eq_true in Hb. exact Hb.
    - apply bool_decide_eq_false in Hb. destruct Hfeat; [contradiction|assumption]. }
  pose proof (Hc _ Hlang) as H1. pose proof (Hc _ Hval) as H2. pose proof (Hc _ Hfc) as H3.
  destruct (cldf_rows_recorded (feature_column reader) (rows reader) ∅) as (data & Hrun & Hdata).
  { rewrite Forall_forall in H1, H2, H3. apply Forall_forall. intros r Hr. auto. }
  exists data. split; [exact Hrun|]. intros l f v. rewrite Hdata.
  assert (value_of ∅ l f = None) as -> by (unfold value_of; rewrite lookup_empty; reflexivity).
  apply recorded_last. exact H2.
Qed.

Lemma find_first {A} (p : A -> bool) (l : list A) (x : A) :
  find p l = Some x
  <-> exists i, l !! i = Some x /\ p x = true
                /\ forall j y, (j < i)%nat -> l !! j = Some y -> p y = false.
Proof.
  induction l as [|a l IH]; simpl.
  - split; [discriminate|]. intros (i & Hi & _). rewrite lookup_nil in Hi. discriminate.
  - destruct (p a) eqn:Hpa.
    + split.
      * intros [= <-]. exists 0%nat. split; [reflexivity|]. split; [exact Hpa|].
        intros j y Hj. lia.
      * intros ([|i] & Hi & Hp & Hfirst).
        -- simpl in Hi. exact Hi.
        -- exfalso. specialize (Hfirst 0%nat a (Nat.lt_0_succ i) eq_refl). congruence.
    + rewrite IH. split.
      * intros (i & Hi & Hp & Hfirst). exists (S i). split; [exact Hi|]. split; [exact Hp|].
        intros [|j] y Hj Hy; [simpl in Hy; congruence|].
        apply (Hfirst j y); [lia|exact Hy].
      * intros ([|i] & Hi & Hp & Hfirst).
        -- simpl in Hi. congruence.
        -- exists i. split; [exact Hi|]. split; [exact Hp|].
           intros j y Hj Hy. apply (Hfirst (S j) y); [lia|exact Hy].
Qed.

(** X18. The column of the language identifiers.  A column that is named
    explicitly is used if the header has it and is an error otherwise;
    the header is not searched.  Without an explicit name, the column is
    the first one of the header whose lower-case name is one of the known
    names, and it is an error if there is none. *)
Theorem language_column_choice (reader : Reader) (lang_column : option string)
    (filename : string) :
  (forall c, lang_column = Some c -> c <> "" ->
     language_column reader lang_column filename
     = if bool_decide (c ∈ fieldnames reader) then Ok c
       else Raise (ValueError ("Cold not find language column in data file " +:+ filename)))
  /\ (given lang_column = false ->
      (forall col,
          language_column reader lang_column filename = Ok col
          <-> exists i,
                fieldnames reader !! i = Some col
                /\ lower col ∈ _language_column_names
                /\ forall j c, (j < i)%nat -> fieldnames reader !! j = Some c ->
                               lower c ∉ _language_column_names)
      /\ ((forall c, c ∈ fieldnames reader -> lower c ∉ _language_column_names) ->
          language_column reader lang_column filename
          = Raise (ValueError ("Cold not find language column in data file " +:+ filename)))).
Proof.
  split.
  - intros c -> Hc. unfold language_column, given.
    assert (truthy c = true) as Ht.
    { unfold truthy. apply negb_true_iff, String.eqb_neq. exact Hc. }
    rewrite Ht. cbn [negb]. rewrite Ht. cbn [negb orb].
    destruct (bool_decide (c ∈ fieldnames reader)); reflexivity.
  - intros Hg.
    assert (forall col,
              find (fun candidate => bool_decide (lower candidate ∈ _language_column_names))
                   (fieldnames reader) = Some col
              <-> exists i,
                    fieldnames reader !! i = Some col
                    /\ lower col ∈ _language_column_names
                    /\ forall j c, (j < i)%nat -> fieldnames reader !! j = Some c ->
                                   lower c ∉ _language_column_names) as Hfind.
    { intros col. rewrite find_first. split.
      - intros (i & Hi & Hp & Hfirst). exists i. split; [exact Hi|].
        split; [apply bool_decide_eq_true in Hp; exact Hp|].
        intros j c Hj Hc. specialize (Hfirst j c Hj Hc).
        apply bool_decide_eq_false in Hfirst. exact Hfirst.
      - intros (i & Hi & Hp & Hfirst). exists i. split; [exact Hi|].
        split; [apply bool_decide_eq_true; exact Hp|].
        intros j c Hj Hc. apply bool_decide_eq_false. exact (Hfirst j c Hj Hc). }
    assert (match find (fun candidate =>
                          bool_decide (lower candidate ∈ _language_column_names))
                       (fieldnames reader) with
            | Some col => language_column reader lang_column filename = Ok col
            | None => language_column reader lang_column filename
                      = Raise (ValueError ("Cold not find language column in data file "
                                           +:+ filename))
            end) as Hrun.
    { unfold language_column. rewrite Hg. cbn [negb].
      destruct (find _ (fieldnames reader)) as [col|] eqn:Hf.
      - destruct (proj1 (Hfind col) eq_refl) as (i & Hi & Hp & _).
        assert (truthy col = true) as Ht.
        { destruct col; [exfalso; revert Hp; vm_compute; intros Hp|reflexivity].
          repeat (apply elem_of_cons in Hp as [Hp|Hp]; [discriminate|]). inversion Hp. }
        rewrite Ht. rewrite bool_decide_eq_true_2; [reflexivity|].
        apply list_elem_of_lookup. exists i. exact Hi.
      - destruct lang_column as [c|]; [|reflexivity].
        unfold given in Hg. rewrite Hg. reflexivity. }
    split.
    + intros col. rewrite <- Hfind.
      destruct (find _ (fieldnames reader)) as [col'|]; rewrite Hrun.
      * split; intros [= ->]; reflexivity.
      * split; discriminate.
    + intros Hnone.
      destruct (find _ (fieldnames reader)) as [col'|] eqn:Hf; [|exact Hrun].
      exfalso. destruct (proj1 (Hfind col') eq_refl) as (i & Hi & Hp & _).
      apply (Hnone col'); [apply list_elem_of_lookup; exists i; exact Hi|exact Hp].
Qed.

Lemma language_column_choice_witness :
  language_column Instances.plain_reader (Some "Language") "plain.csv" = Ok "Language"
  /\ language_column Instances.plain_reader None "plain.csv" = Ok "ISO".
Proof.
  split.
  - destruct (language_column_choice Instances.plain_reader (Some "Language") "plain.csv")
      as [H _].
    rewrite (H "Language" eq_refl); [reflexivity|discriminate].
  - destruct (language_column_choice Instances.plain_reader None "plain.csv") as [_ H].
    destruct (H eq_refl) as [H' _]. apply H'. exists 1%nat.
    split; [reflexivity|]. split.
    + vm_compute. apply list_elem_of_here.
    + intros [|j] c Hj Hc; [|lia]. injection Hc as <-. vm_compute.
      intros Hin. repeat (apply elem_of_cons in Hin as [Hin|Hin]; [discriminate|]).
      inversion Hin.
Defined.

(** X19. The format of a data file.  A format other than [cldf] and
    [beastling] (as written: [CLDF] is another one) never yields data,
    whatever the file holds.  A CLDF file that is not standard input must
    have a name that ends in [csv] or [tsv]; otherwise the loader fails
    before the file is opened. *)
Theorem load_data_format_errors (E : Datareaders.Env) (filename fmt : string)
    (lang_column : option string) :
  (fmt <> "cldf" -> fmt <> "beastling" ->
     forall data, load_data E filename (Some fmt) lang_column <> Ok data)
  /\ (fmt <> "" -> lower fmt = "cldf" -> filename <> "stdin" ->
      endswith (lower filename) "csv" = false ->
      endswith (lower filename) "tsv" = false ->
      load_data E filename (Some fmt) lang_column
      = Raise (ValueError "CLDF standard dictates that filenames must end in .csv or .tsv")).
Proof.
  split.
  - intros H1 H2 data. unfold load_data, mbind, result_bind.
    match goal with
    | |- context [match ?x with Ok _ => _ | Raise _ => _ end] =>
        destruct x as [d|]; [|discriminate]
    end.
    destruct (UnicodeDictReader E filename d) as [reader|]; [|discriminate].
    apply String.eqb_neq in H1, H2. rewrite H1, H2. discriminate.
  - intros Hne Hl Hf Hcsv Htsv. unfold load_data, mbind, result_bind.
    apply String.eqb_neq in Hf. rewrite Hf. unfold given, truthy.
    apply String.eqb_neq in Hne. rewrite Hne. simpl default. rewrite Hl.
    rewrite String.eqb_refl. simpl. rewrite Hcsv, Htsv. reflexivity.
Qed.

Lemma load_data_format_errors_witness :
  (forall data, load_data Examples.reader_env "cldf.csv" (Some "CLDF") None <> Ok data)
  /\ load_data Examples.reader_env "cldf.txt" (Some "CLDF") None
     = Raise (ValueError "CLDF standard dictates that filenames must end in .csv or .tsv").
Proof.
  split.
  - destruct (load_data_format_errors Examples.reader_env "cldf.csv" "CLDF" None) as [H _].
    apply H; discriminate.
  - destruct (load_data_format_errors Examples.reader_env "cldf.txt" "CLDF" None) as [_ H].
    apply H; try discriminate; reflexivity.
Defined.

Lemma plain_reader_complete : complete Instances.plain_reader.
Proof.
  intros col Hcol. simpl in Hcol.
  repeat (apply elem_of_cons in Hcol as [->|Hcol]);
    [| | |inversion Hcol];
    repeat constructor; eexists; vm_compute; reflexivity.
Qed.

Lemma revised_reader_complete : complete Instances.revised_reader.
Proof.
  intros col Hcol. simpl in Hcol.
  repeat (apply elem_of_cons in Hcol as [->|Hcol]);
    [| | |inversion Hcol];
    repeat constructor; eexists; vm_compute; reflexivity.
Qed.
End Readers.

Lemma beastling_data_round_trip_witness :
  exists data,
    Datareaders.load_beastling_data Instances.plain_reader None "plain.csv" = Ok data
    /\ data !! "bbb" = Some (list_to_map [("f1", "0"); ("ISO", "bbb"); ("Language", "B")]).
Proof.
  destruct (beastling_data_round_trip Instances.plain_reader None "plain.csv" "ISO")
    as (data & Hrun & Hdata).
  - exact plain_reader_complete.
  - reflexivity.
  - apply (bool_decide_unpack _). vm_compute. exact I.
  - exists data. split; [exact Hrun|]. apply Hdata. split.
    + apply list_elem_of_further, list_elem_of_here.
    + vm_compute. reflexivity.
Defined.

Lemma cldf_last_record_wins_witness :
  exists data,
    Datareaders.load_cldf_data Instances.revised_reader = Ok data
    /\ value_of data "aaa" "f1" = Some "0".
Proof.
  destruct (cldf_last_record_wins Instances.revised_reader revised_reader_complete)
    as (data & Hrun & Hdata).
  - repeat split.
    + apply list_elem_of_here.
    + do 2 apply list_elem_of_further. apply list_elem_of_here.
    + left. apply list_elem_of_further, list_elem_of_here.
  - exists data. split; [exact Hrun|]. apply Hdata.
    exists 1%nat, (list_to_map [("Language_ID", "aaa"); ("Feature_ID", "f1"); ("Value", "0")]).
    split; [reflexivity|]. split; [split; vm_compute; reflexivity|].
    split; [vm_compute; reflexivity|].
    intros [|[|j]] r' Hj Hr'; [lia|lia|]. simpl in Hr'. discriminate.
Defined.

(** ** Strings *)

Lemma append_nil_l (t : string) : "" +:+ t = t.
Proof. reflexivity. Qed.

Lemma append_cons (c : ascii) (s t : string) : String c s +:+ t = String c (s +:+ t).
Proof. reflexivity. Qed.

Lemma append_nil_r (s : string) : s +:+ "" = s.
Proof. induction s as [|c s IH]; [reflexivity|]. rewrite append_cons, IH. reflexivity. Qed.

Lemma append_assoc (s t u : string) : (s +:+ t) +:+ u = s +:+ (t +:+ u).
Proof.
  induction s as [|c s IH]; [reflexivity|]. rewrite !append_cons, IH. reflexivity.
Qed.

Lemma rev_app_append (s t : string) : String.rev_app s t = String.rev s +:+ t.
Proof.
  unfold String.rev. revert t. induction s as [|c s IH]; intros t; simpl; [reflexivity|].
  rewrite (IH (String c t)), (IH (String c "")), append_assoc. reflexivity.
Qed.

Lemma rev_cons (c : ascii) (s : string) : String.rev (String c s) = String.rev s +:+ String c "".
Proof. unfold String.rev at 1. simpl. apply rev_app_append. Qed.

Lemma rev_append (s t : string) : String.rev (s +:+ t) = String.rev t +:+ String.rev s.
Proof.
  induction s as [|c s IH].
  - rewrite append_nil_l. change (String.rev "") with "". rewrite append_nil_r. reflexivity.
  - rewrite append_cons, !rev_cons, IH, append_assoc. reflexivity.
Qed.

Lemma rev_involutive (s : string) : String.rev (String.rev s) = s.
Proof.
  induction s as [|c s IH]; [reflexivity|].
  rewrite rev_cons, rev_append, IH. reflexivity.
Qed.

Lemma lstrip_head (s : string) : starts_with_space (lstrip s) = false.
Proof.
  induction s as [|c s IH]; [reflexivity|]. simpl.
  destruct (is_whitespace c) eqn:Hc; [exact IH|]. simpl. exact Hc.
Qed.

Lemma lstrip_id (s : string) : starts_with_space s = false -> lstrip s = s.
Proof. destruct s as [|c s]; [reflexivity|]. simpl. intros ->. reflexivity. Qed.

Lemma lstrip_suffix (s : string) : exists w, s = w +:+ lstrip s.
Proof.
  induction s as [|c s [w IH]]; [exists ""; reflexivity|]. simpl.
  destruct (is_whitespace c).
  - exists (String c w). rewrite append_cons, <- IH. reflexivity.
  - exists "". reflexivity.
Qed.

Lemma strip_stripped (s : string) : stripped (strip s).
Proof.
  unfold stripped, strip.
  set (a := lstrip s). set (b := lstrip (String.rev a)).
  split; [|rewrite rev_involutive; apply lstrip_head].
  destruct (lstrip_suffix (String.rev a)) as [w Hw]. fold b in Hw.
  assert (a = String.rev b +:+ String.rev w) as Ha.
  { rewrite <- rev_append, <- Hw, rev_involutive. reflexivity. }
  pose proof (lstrip_head s) as Hs. fold a in Hs. rewrite Ha in Hs.
  destruct (String.rev b) as [|c r]; [reflexivity|exact Hs].
Qed.

Lemma strip_idempotent (s : string) : strip (strip s) = strip s.
Proof.
  destruct (strip_stripped s) as [H1 H2]. unfold strip at 1.
  rewrite (lstrip_id _ H1), (lstrip_id _ H2). apply rev_involutive.
Qed.

Lemma split_go_length (sep : ascii) (cur s : string) :
  length (split_go sep cur s) = S (count_char sep s).
Proof.
  revert cur. induction s as [|c s IH]; intros cur; simpl; [reflexivity|].
  destruct (Ascii.eqb c sep); simpl; rewrite IH; reflexivity.
Qed.

(** ** The getters of the sections *)

Lemma str_lstrip_head (s : string) : str_starts_with_space (Sections.str_lstrip s) = false.
Proof.
  induction s as [|c s IH]; [reflexivity|]. cbn [Sections.str_lstrip].
  destruct (Sections.str_is_whitespace c) eqn:Hc; [exact IH|].
  cbn [str_starts_with_space]. exact Hc.
Qed.

Lemma str_lstrip_id (s : string) :
  str_starts_with_space s = false -> Sections.str_lstrip s = s.
Proof.
  destruct s as [|c s]; [reflexivity|]. cbn [str_starts_with_space Sections.str_lstrip].
  intros ->. reflexivity.
Qed.

Lemma str_lstrip_suffix (s : string) : exists w, s = w +:+ Sections.str_lstrip s.
Proof.
  induction s as [|c s [w IH]]; [exists ""; reflexivity|]. cbn [Sections.str_lstrip].
  destruct (Sections.str_is_whitespace c).
  - exists (String c w). rewrite append_cons, <- IH. reflexivity.
  - exists "". reflexivity.
Qed.

Lemma str_strip_stripped (s : string) : str_stripped (Sections.str_strip s).
Proof.
  unfold str_stripped, Sections.str_strip.
  set (a := Sections.str_lstrip s). set (b := Sections.str_lstrip (String.rev a)).
  split; [|rewrite rev_involutive; apply str_lstrip_head].
  destruct (str_lstrip_suffix (String.rev a)) as [w Hw]. change (Sections.str_lstrip (String.rev a)) with b in Hw.
  assert (a = String.rev b +:+ String.rev w) as Ha.
  { rewrite <- rev_append, <- Hw, rev_involutive. reflexivity. }
  pose proof (str_lstrip_head s) as Hs. change (Sections.str_lstrip s) with a in Hs.
  rewrite Ha in Hs.
  destruct (String.rev b) as [|c r]; [reflexivity|exact Hs].
Qed.

Section Getters.
Variable E : Sections.Env.

(** X20. A list-valued option.  A list is passed through.  A string is
    looked up as the path [pathlib] makes of it -- the current directory
    for the empty string.  When no such path exists the string is cut at
    its commas: this gives one item more than there are commas, never an
    empty list, and every item is stripped of white space.  When the path
    exists and can be read the items are the stripped lines, and the path
    is returned with them.  When the path cannot be examined, or exists
    and cannot be opened or read (a directory, say), the error is
    raised. *)
Theorem handle_file_or_list_items :
  (forall l, Sections.handle_file_or_list E (Sections.VList l) = Ok (Sections.Items l))
  /\ (forall s,
        Sections.Path_exists E (Sections.Path s) = Ok false ->
        exists items,
          Sections.handle_file_or_list E (Sections.VStr s) = Ok (Sections.Items items)
          /\ length items = S (count_char "," s)
          /\ Forall str_stripped items)
  /\ (forall s text,
        Sections.Path_exists E (Sections.Path s) = Ok true ->
        Sections.read_text E (Sections.Path s) = Ok text ->
        exists items,
          Sections.handle_file_or_list E (Sections.VStr s)
          = Ok (Sections.ConfigValue items (Sections.Path s))
          /\ length items = length (readlines text)
          /\ Forall str_stripped items)
  /\ (forall s e,
        Sections.Path_exists E (Sections.Path s) = Raise e
        \/ (Sections.Path_exists E (Sections.Path s) = Ok true
            /\ Sections.read_text E (Sections.Path s) = Raise e) ->
        Sections.handle_file_or_list E (Sections.VStr s) = Raise e)
  /\ (forall e,
        Sections.Path_exists E "." = Ok true -> Sections.read_text E "." = Raise e ->
        Sections.handle_file_or_list E (Sections.VStr "") = Raise e).
Proof.
  split; [reflexivity|]. split; [|split; [|split]].
  - intros s Hs. unfold Sections.handle_file_or_list. cbv zeta.
    unfold mbind, result_bind. rewrite Hs.
    eexists. split; [reflexivity|]. split.
    + rewrite length_map. apply split_go_length.
    + apply Forall_forall. intros x Hx. apply list_elem_of_fmap in Hx as (y & -> & _).
      apply str_strip_stripped.
  - intros s text Hs Htext. unfold Sections.handle_file_or_list. cbv zeta.
    unfold mbind, result_bind. rewrite Hs, Htext.
    eexists. split; [reflexivity|]. split; [apply length_map|].
    apply Forall_forall. intros x Hx. apply list_elem_of_fmap in Hx as (y & -> & _).
    apply str_strip_stripped.
  - intros s e [Hs | [Hs Htext]]; unfold Sections.handle_file_or_list; cbv zeta;
      unfold mbind, result_bind; rewrite Hs; [reflexivity|].
    rewrite Htext. reflexivity.
  - intros e Hs Htext. unfold Sections.handle_file_or_list. cbv zeta.
    change (Sections.Path "") with ".".
    unfold mbind, result_bind. rewrite Hs, Htext. reflexivity.
Qed.


End Getters.

Lemma handle_file_or_list_items_witness :
  (exists items,
      Sections.handle_file_or_list Instances.files (Sections.VStr " a, b ,c")
      = Ok (Sections.Items items)
      /\ length items = 3%nat /\ Forall str_stripped items)
  /\ (exists items,
         Sections.handle_file_or_list Instances.files (Sections.VStr "./langs.txt")
         = Ok (Sections.ConfigValue items "langs.txt")
         /\ Forall str_stripped items)
  /\ Sections.handle_file_or_list Instances.files (Sections.VStr "") = Raise (IOError ".").
Proof.
  destruct (handle_file_or_list_items Instances.files) as (_ & Hstr & Hfile & _ & Hempty).
  split; [|split].
  - destruct (Hstr " a, b ,c" eq_refl) as (items & Hrun & Hlen & Hs).
    exists items. split; [exact Hrun|]. split; [exact Hlen|exact Hs].
  - destruct (Hfile "./langs.txt" _ eq_refl eq_refl) as (items & Hrun & _ & Hs).
    exists items. split; [exact Hrun|exact Hs].
  - apply Hempty; reflexivity.
Defined.


(** ** The [admin] and [MCMC] sections *)

(** X23. After its initialisation an [admin] section that asks to log
    everything logs trees, parameters, probabilities and fine-grained
    probabilities, and one that logs fine-grained probabilities logs
    probabilities.  The initialisation only switches logging on, touches
    nothing else, and doing it again changes nothing. *)
Theorem Admin_post_init_logging (a : Sections.Admin) :
  (Sections.log_all a = true ->
     Sections.log_trees (Sections.Admin_post_init a) = true
     /\ Sections.log_params (Sections.Admin_post_init a) = true
     /\ Sections.log_probabilities (Sections.Admin_post_init a) = true
     /\ Sections.log_fine_probs (Sections.Admin_post_init a) = true)
  /\ (Sections.log_fine_probs (Sections.Admin_post_init a) = true ->
      Sections.log_probabilities (Sections.Admin_post_init a) = true)
  /\ (Sections.log_all a = false -> Sections.log_fine_probs a = false ->
      Sections.Admin_post_init a = a)
  /\ Sections.Admin_post_init (Sections.Admin_post_init a) = Sections.Admin_post_init a
  /\ Sections.basename (Sections.Admin_post_init a) = Sections.basename a
  /\ Sections.log_every (Sections.Admin_post_init a) = Sections.log_every a.
Proof.
  destruct a as [b e s la dp le lp lf lpa lt lpt g p].
  unfold Sections.Admin_post_init, Sections.basename. simpl.
  destruct la, lf, lp, lpa, lt; simpl; repeat split; try reflexivity; try discriminate.
Qed.

(** X24. The initialisation of the [MCMC] section fails exactly when
    sampling from the prior is asked for on the command line together
    with path sampling.  Otherwise the chain length is cut down to what
    BEAST can handle, [sample_from_prior] is set when the command line
    asks for it, and doing it again changes nothing. *)
Theorem MCMC_post_init_limits (m : Sections.MCMC) :
  (Sections.m_prior m && Sections.path_sampling m = true ->
     Sections.MCMC_post_init m
     = Raise (ValueError "Cannot sample from the prior during a path sampling analysis."))
  /\ (Sections.m_prior m && Sections.path_sampling m = false ->
      exists m',
        Sections.MCMC_post_init m = Ok m'
        /\ Sections.chainlength m' = Z.min (Sections.chainlength m) Sections._BEAST_MAX_LENGTH
        /\ Sections.chainlength m' <= Sections._BEAST_MAX_LENGTH
        /\ Sections.sample_from_prior m'
           = Sections.m_prior m || Sections.sample_from_prior m
        /\ Sections.path_sampling m' = Sections.path_sampling m
        /\ Sections.MCMC_post_init m' = Ok m').
Proof.
  split.
  - intros H. unfold Sections.MCMC_post_init. rewrite H. reflexivity.
  - intros H. unfold Sections.MCMC_post_init. rewrite H. eexists. split; [reflexivity|].
    simpl. rewrite H.
    destruct (Z.ltb_spec Sections._BEAST_MAX_LENGTH (Sections.chainlength m)) as [Hlt|Hge].
    + split; [rewrite Z.min_r by lia; reflexivity|]. split; [lia|].
      split; [reflexivity|]. split; [reflexivity|].
      rewrite Z.ltb_irrefl. destruct (Sections.m_prior m); reflexivity.
    + split; [rewrite Z.min_l by lia; reflexivity|]. split; [lia|].
      split; [reflexivity|]. split; [reflexivity|].
      destruct (Z.ltb_spec Sections._BEAST_MAX_LENGTH (Sections.chainlength m)); [lia|].
      destruct (Sections.m_prior m); reflexivity.
Qed.

Lemma Admin_post_init_logging_witness :
  Sections.log_probabilities
    (Sections.Admin_post_init
       {| Sections.basename_ := "beastling"; Sections.embed_data := false;
          Sections.screenlog := true; Sections.log_all := false; Sections.log_dp := 4;
          Sections.log_every := 0; Sections.log_probabilities := false;
          Sections.log_fine_probs := true; Sections.log_params := false;
          Sections.log_trees := true; Sections.log_pure_tree := false;
          Sections.glottolog_release := "4.0"; Sections.a_prior := false |}) = true.
Proof.
  destruct (Admin_post_init_logging
       {| Sections.basename_ := "beastling"; Sections.embed_data := false;
          Sections.screenlog := true; Sections.log_all := false; Sections.log_dp := 4;
          Sections.log_every := 0; Sections.log_probabilities := false;
          Sections.log_fine_probs := true; Sections.log_params := false;
          Sections.log_trees := true; Sections.log_pure_tree := false;
          Sections.glottolog_release := "4.0"; Sections.a_prior := false |})
    as (_ & H & _).
  apply H. reflexivity.
Defined.

Lemma MCMC_post_init_limits_witness :
  exists m',
    Sections.MCMC_post_init
      {| Sections.alpha := "0.3"; Sections.chainlength := 5000000000;
         Sections.do_not_run := false; Sections.log_burnin := 50;
         Sections.path_sampling := false; Sections.preburnin := 10;
         Sections.sample_from_prior := false; Sections.steps := 8;
         Sections.m_prior := true |} = Ok m'
    /\ Sections.chainlength m' = 2147483647
    /\ Sections.sample_from_prior m' = true.
Proof.
  destruct (MCMC_post_init_limits
      {| Sections.alpha := "0.3"; Sections.chainlength := 5000000000;
         Sections.do_not_run := false; Sections.log_burnin := 50;
         Sections.path_sampling := false; Sections.preburnin := 10;
         Sections.sample_from_prior := false; Sections.steps := 8;
         Sections.m_prior := true |}) as [_ H].
  destruct (H eq_refl) as (m' & Hrun & Hlen & _ & Hprior & _).
  exists m'. split; [exact Hrun|]. split; [exact Hlen|exact Hprior].
Defined.

(** ** The class of a clock *)

(** X25. The class a clock section is instantiated with has the type of
    the section.  When exactly one class has that type it is chosen
    whatever distribution the section names; otherwise the class chosen
    has the distribution of the section, and there is an error exactly
    when no class of that type has it. *)
Theorem get_clock_choice (classes : list Sections.ClockClass) (type distribution : string) :
  (forall c, Sections.get_clock classes type distribution = Ok c ->
             c ∈ classes /\ Sections.__type__ c = type)
  /\ (forall c, filter (fun c => Sections.__type__ c = type) classes = [c] ->
                Sections.get_clock classes type distribution = Ok c)
  /\ (length (filter (fun c => Sections.__type__ c = type) classes) <> 1%nat ->
      match Sections.get_clock classes type distribution with
      | Ok c => Sections.__distribution__ c = Some distribution
      | Raise e =>
          e = ValueError "no matching clock"
          /\ forall c, c ∈ classes -> Sections.__type__ c = type ->
                       Sections.__distribution__ c <> Some distribution
      end).
Proof.
  set (clocks := filter (fun c => Sections.__type__ c = type) classes).
  assert (forall c, c ∈ clocks <-> Sections.__type__ c = type /\ c ∈ classes) as Hclocks.
  { intros c. unfold clocks.
    apply (list_elem_of_filter (fun c => Sections.__type__ c = type)). }
  assert (match find (fun c => bool_decide (Sections.__distribution__ c = Some distribution))
                     clocks
          with
          | Some c => c ∈ classes /\ Sections.__type__ c = type
                      /\ Sections.__distribution__ c = Some distribution
          | None => forall c, c ∈ classes -> Sections.__type__ c = type ->
                              Sections.__distribution__ c <> Some distribution
          end) as Hfind.
  { destruct (find _ clocks) as [c|] eqn:Hf.
    - apply find_some in Hf as [Hin Hd]. apply list_elem_of_In, Hclocks in Hin as [Ht Hin].
      apply bool_decide_eq_true in Hd. auto.
    - intros c Hin Ht Hd.
      pose proof (find_none _ _ Hf c) as Hn. simpl in Hn.
      rewrite bool_decide_eq_true_2 in Hn by exact Hd.
      assert (true = false) by (apply Hn, list_elem_of_In, Hclocks; auto). discriminate. }
  split; [|split].
  - intros c. unfold Sections.get_clock. cbv zeta.
    change (filter (fun c => Sections.__type__ c = type) classes) with clocks.
    destruct clocks as [|c0 [|c1 rest]] eqn:Hc.
    + simpl. discriminate.
    + intros [= <-]. apply and_comm, Hclocks. apply list_elem_of_here.
    + destruct (find _ (c0 :: c1 :: rest)) as [c'|]; [|discriminate].
      intros [= <-]. destruct Hfind as (H1 & H2 & _). auto.
  - intros c Hc. unfold Sections.get_clock. cbv zeta.
    change (filter (fun c => Sections.__type__ c = type) classes) with clocks. rewrite Hc. reflexivity.
  - intros Hlen. unfold Sections.get_clock. cbv zeta.
    change (filter (fun c => Sections.__type__ c = type) classes) with clocks.
    destruct clocks as [|c0 [|c1 rest]] eqn:Hc.
    + simpl. split; [reflexivity|]. exact Hfind.
    + exfalso. apply Hlen. reflexivity.
    + destruct (find _ (c0 :: c1 :: rest)) as [c'|].
      * destruct Hfind as (_ & _ & H). exact H.
      * split; [reflexivity|exact Hfind].
Qed.

Lemma get_clock_choice_witness :
  Sections.get_clock Instances.clock_classes "strict" "lognormal"
  = Ok {| Sections.class_name := "StrictClock"; Sections.__type__ := "strict";
          Sections.__distribution__ := None |}
  /\ match Sections.get_clock Instances.clock_classes "relaxed" "gamma" with
     | Ok c => Sections.__distribution__ c = Some "gamma"
     | Raise _ => False
     end.
Proof.
  destruct (get_clock_choice Instances.clock_classes "strict" "lognormal") as (_ & H & _).
  split; [apply H; reflexivity|].
  destruct (get_clock_choice Instances.clock_classes "relaxed" "gamma") as (_ & _ & H').
  assert (length (filter (fun c => Sections.__type__ c = "relaxed") Instances.clock_classes)
          <> 1%nat) as Hlen by (vm_compute; discriminate).
  specialize (H' Hlen).
  destruct (Sections.get_clock Instances.clock_classes "relaxed" "gamma") as [c|e] eqn:Hrun.
  - exact H'.
  - vm_compute in Hrun. discriminate.
Defined.

(** ** The Glottolog classification file *)

Lemma length_append (s t : string) :
  String.length (s +:+ t) = (String.length s + String.length t)%nat.
Proof.
  induction s as [|c s IH]; [reflexivity|]. rewrite append_cons. simpl. rewrite IH. reflexivity.
Qed.


Lemma cut_at_last_slash_append (p : string) :
  fst (Glottolog.cut_at_last_slash p) +:+ snd (Glottolog.cut_at_last_slash p) = p.
Proof.
  induction p as [|c p IH]; [reflexivity|]. cbn [Glottolog.cut_at_last_slash].
  destruct (Glottolog.cut_at_last_slash p) as [head tail]. cbn [fst snd] in IH.
  destruct (truthy head) eqn:Hh.
  - cbn [fst snd]. rewrite append_cons, IH. reflexivity.
  - destruct (Ascii.eqb c "/") eqn:Hc; cbn [fst snd].
    + apply Ascii.eqb_eq in Hc. subst c. reflexivity.
    + reflexivity.
Qed.

Lemma rstrip_slashes_prefix (s : string) : exists r, s = Glottolog.rstrip_slashes s +:+ r.
Proof.
  induction s as [|c s [r IH]]; [exists ""; reflexivity|]. cbn [Glottolog.rstrip_slashes].
  destruct (negb (truthy (Glottolog.rstrip_slashes s)) && Ascii.eqb c "/").
  - exists (String c s). reflexivity.
  - exists r. rewrite append_cons, <- IH. reflexivity.
Qed.

(** The head [posixpath.split] gives is an initial part of the path, and
    shorter than the path when there is a tail. *)
Lemma split_path_head (p : string) :
  (exists r, p = fst (Glottolog.split_path p) +:+ r)
  /\ (String.length (fst (Glottolog.split_path p))
      + String.length (snd (Glottolog.split_path p)) <= String.length p)%nat.
Proof.
  unfold Glottolog.split_path.
  pose proof (cut_at_last_slash_append p) as Hcut.
  destruct (Glottolog.cut_at_last_slash p) as [head tail]. cbn [fst snd] in *.
  destruct (truthy (Glottolog.rstrip_slashes head)).
  - destruct (rstrip_slashes_prefix head) as [r Hr]. split.
    + exists (r +:+ tail). rewrite <- append_assoc, <- Hr. symmetry. exact Hcut.
    + rewrite <- Hcut, length_append. apply (f_equal String.length) in Hr.
      rewrite length_append in Hr. lia.
  - split; [exists tail; symmetry; exact Hcut|]. rewrite <- Hcut, length_append. lia.
Qed.

Lemma makedirs_go_files (fuel : nat) (name : string) (w : Glottolog.World) :
  Glottolog.files (Glottolog.makedirs_go fuel name w) = Glottolog.files w
  /\ Glottolog.requests (Glottolog.makedirs_go fuel name w) = Glottolog.requests w.
Proof.
  revert name w. induction fuel as [|fuel IH]; intros name w; [split; reflexivity|].
  cbn [Glottolog.makedirs_go].
  destruct (Glottolog.split_path name) as [head tail].
  destruct (if truthy tail then (head, tail) else Glottolog.split_path head) as [head' tail'].
  cbn [Glottolog.mkdir Glottolog.files Glottolog.requests].
  destruct (truthy head' && truthy tail' && negb (Glottolog.exists_ w head'));
    [apply IH|split; reflexivity].
Qed.

(** The directories [os.makedirs] leaves: those there were, the
    directory asked for, and directories whose path is an initial part of
    its path. *)
Lemma makedirs_go_dirs (fuel : nat) (name : string) (w : Glottolog.World) (d : string) :
  d ∈ Glottolog.dirs (Glottolog.makedirs_go (S fuel) name w) ->
  d ∈ Glottolog.dirs w \/ exists r, name = d +:+ r.
Proof.
  revert name w d. induction fuel as [|fuel IH]; intros name w d.
  - cbn [Glottolog.makedirs_go].
    destruct (Glottolog.split_path name) as [head tail].
    destruct (if truthy tail then (head, tail) else Glottolog.split_path head) as [head' tail'].
    destruct (truthy head' && truthy tail' && negb (Glottolog.exists_ w head'));
      cbn [Glottolog.mkdir Glottolog.dirs]; rewrite elem_of_union, elem_of_singleton;
      (intros [-> | H]; [right; exists ""; rewrite append_nil_r; reflexivity|left; exact H]).
  - change (Glottolog.makedirs_go (S (S fuel)) name w)
      with (let '(head, tail) := Glottolog.split_path name in
            let '(head, tail) :=
              if truthy tail then (head, tail) else Glottolog.split_path head in
            let w :=
              if truthy head && truthy tail && negb (Glottolog.exists_ w head)
              then Glottolog.makedirs_go (S fuel) head w else w in
            Glottolog.mkdir name w).
    destruct (split_path_head name) as [[r Hr] _].
    destruct (Glottolog.split_path name) as [head tail]. cbn [fst] in Hr.
    assert (exists r', name = fst (if truthy tail then (head, tail)
                                   else Glottolog.split_path head) +:+ r') as [r' Hr'].
    { destruct (truthy tail); [exists r; exact Hr|].
      destruct (split_path_head head) as [[r2 Hr2] _].
      exists (r2 +:+ r). rewrite <- append_assoc, <- Hr2. exact Hr. }
    destruct (if truthy tail then (head, tail) else Glottolog.split_path head) as [head' tail'].
    cbn [fst] in Hr'.
    destruct (truthy head' && truthy tail' && negb (Glottolog.exists_ w head'));
      cbn [Glottolog.mkdir Glottolog.dirs]; rewrite elem_of_union, elem_of_singleton.
    + intros [-> | H]; [right; exists ""; rewrite append_nil_r; reflexivity|].
      destruct (IH _ _ _ H) as [Hw | [r2 Hr2]]; [left; exact Hw|].
      right. exists (r2 +:+ r'). rewrite <- append_assoc, <- Hr2. exact Hr'.
    + intros [-> | H]; [right; exists ""; rewrite append_nil_r; reflexivity|left; exact H].
Qed.

Lemma makedirs_go_keeps (fuel : nat) (name : string) (w : Glottolog.World) (d : string) :
  d ∈ Glottolog.dirs w -> d ∈ Glottolog.dirs (Glottolog.makedirs_go fuel name w).
Proof.
  revert name w. induction fuel as [|fuel IH]; intros name w Hd; [exact Hd|].
  cbn [Glottolog.makedirs_go].
  destruct (Glottolog.split_path name) as [head tail].
  destruct (if truthy tail then (head, tail) else Glottolog.split_path head) as [head' tail'].
  cbn [Glottolog.mkdir Glottolog.dirs]. apply elem_of_union. right.
  destruct (truthy head' && truthy tail' && negb (Glottolog.exists_ w head'));
    [apply IH; exact Hd|exact Hd].
Qed.

Lemma makedirs_go_made (fuel : nat) (name : string) (w : Glottolog.World) :
  name ∈ Glottolog.dirs (Glottolog.makedirs_go (S fuel) name w).
Proof.
  cbn [Glottolog.makedirs_go].
  destruct (Glottolog.split_path name) as [head tail].
  destruct (if truthy tail then (head, tail) else Glottolog.split_path head) as [head' tail'].
  cbn [Glottolog.mkdir Glottolog.dirs]. apply elem_of_union. left. apply elem_of_singleton.
  reflexivity.
Qed.

(** More fuel than the length of the path changes nothing: the path
    [os.makedirs] goes on with is shorter. *)
Lemma makedirs_go_fuel (fuel fuel' : nat) (name : string) (w : Glottolog.World) :
  (String.length name < fuel)%nat -> (String.length name < fuel')%nat ->
  Glottolog.makedirs_go fuel name w = Glottolog.makedirs_go fuel' name w.
Proof.
  revert fuel' name w. induction fuel as [|fuel IH]; intros fuel' name w Hf Hf'; [lia|].
  destruct fuel' as [|fuel']; [lia|].
  cbn [Glottolog.makedirs_go].
  pose proof (split_path_head name) as [_ Hlen].
  destruct (Glottolog.split_path name) as [head tail]. cbn [fst snd] in Hlen.
  assert (forall h t, (if truthy tail then (head, tail) else Glottolog.split_path head) = (h, t) ->
                      truthy t = true -> (String.length h < String.length name)%nat) as Hshort.
  { intros h t Heq Ht.
    assert (String.length t <> 0)%nat as Hne.
    { destruct t; [discriminate|simpl; lia]. }
    destruct (truthy tail).
    - injection Heq as <- <-. lia.
    - pose proof (split_path_head head) as [_ Hlen2]. rewrite Heq in Hlen2.
      cbn [fst snd] in Hlen2. lia. }
  destruct (if truthy tail then (head, tail) else Glottolog.split_path head) as [head' tail'].
  destruct (truthy tail') eqn:Ht; [|rewrite !andb_false_r; reflexivity].
  specialize (Hshort _ _ eq_refl Ht).
  destruct (truthy head' && true && negb (Glottolog.exists_ w head')); [|reflexivity].
  rewrite (IH fuel' head' w); [reflexivity|lia|lia].
Qed.

Section GlottologFile.
Context {T : Type}.
Variable E : Glottolog.Env T.

Lemma fname_relative release : String.prefix "/" (Glottolog.fname release) = false.
Proof. reflexivity. Qed.


Lemma exists_makedirs_self (w : Glottolog.World) dir :
  Glottolog.exists_ (Glottolog.makedirs dir w) dir = true.
Proof.
  unfold Glottolog.exists_, Glottolog.makedirs.
  rewrite (bool_decide_eq_true_2 _ (makedirs_go_made _ dir w)). apply orb_true_r.
Qed.

(** [os.makedirs] changes the existence of the paths only that are an
    initial part of the path of the directory it makes. *)
Lemma exists_makedirs_other (w : Glottolog.World) dir path :
  ~ (exists r, dir = path +:+ r) ->
  Glottolog.exists_ (Glottolog.makedirs dir w) path = Glottolog.exists_ w path.
Proof.
  intros Hpath. unfold Glottolog.exists_, Glottolog.makedirs.
  rewrite (proj1 (makedirs_go_files _ dir w)). f_equal. apply bool_decide_ext. split.
  - intros H. apply makedirs_go_dirs in H as [H|H]; [exact H|contradiction].
  - apply makedirs_go_keeps.
Qed.

Lemma cached_not_above_data_dir release :
  ~ (exists r, Glottolog.user_data_dir E = Glottolog.cached E release +:+ r).
Proof.
  intros [r Hr]. apply (f_equal String.length) in Hr. revert Hr.
  unfold Glottolog.cached, Glottolog.path_join. rewrite fname_relative.
  destruct (_ || _); rewrite !length_append; unfold Glottolog.fname;
    rewrite ?length_append; simpl; lia.
Qed.

(** The world in which the data directory of the user exists. *)
Lemma exists_cached_after_makedirs (w : Glottolog.World) release :
  Glottolog.exists_
    (if negb (Glottolog.exists_ w (Glottolog.user_data_dir E))
     then Glottolog.makedirs (Glottolog.user_data_dir E) w else w)
    (Glottolog.cached E release)
  = Glottolog.exists_ w (Glottolog.cached E release).
Proof.
  destruct (negb _); [|reflexivity].
  apply exists_makedirs_other, cached_not_above_data_dir.
Qed.

(** Making the data directory leaves the files and the requests. *)
Lemma data_dir_made (w : Glottolog.World) :
  Glottolog.files
    (if negb (Glottolog.exists_ w (Glottolog.user_data_dir E))
     then Glottolog.makedirs (Glottolog.user_data_dir E) w else w)
  = Glottolog.files w
  /\ Glottolog.requests
       (if negb (Glottolog.exists_ w (Glottolog.user_data_dir E))
        then Glottolog.makedirs (Glottolog.user_data_dir E) w else w)
     = Glottolog.requests w.
Proof. destruct (negb _); [apply makedirs_go_files|split; reflexivity]. Qed.

(** X26. The classification is requested from the network exactly when
    neither the file that comes with the package nor the file in the data
    directory of the user exists, and then once, under the address of the
    release; the data directory is created when it is missing and the
    packaged file is. *)
Theorem glottolog_requests (release : string) (w : Glottolog.World) :
  Glottolog.requests (snd (Glottolog.get_glottolog_newick E release w))
  = Glottolog.requests w
    ++ (if Glottolog.exists_ w (Glottolog.packaged E release)
           || Glottolog.exists_ w (Glottolog.cached E release)
        then [] else [Glottolog.url release])
  /\ (Glottolog.exists_ w (Glottolog.packaged E release) = true ->
      snd (Glottolog.get_glottolog_newick E release w) = w)
  /\ (Glottolog.exists_ w (Glottolog.packaged E release) = false ->
      Glottolog.exists_ (snd (Glottolog.get_glottolog_newick E release w))
        (Glottolog.user_data_dir E) = true).
Proof.
  unfold Glottolog.get_glottolog_newick.
  destruct (Glottolog.exists_ w (Glottolog.packaged E release)) eqn:Hp; cbn [negb fst snd Glottolog.requests Glottolog.files Glottolog.dirs].
  - rewrite app_nil_r. split; [reflexivity|]. split; [reflexivity|discriminate].
  - fold (Glottolog.cached E release).
    rewrite (exists_cached_after_makedirs w release).
    assert (Glottolog.exists_
              (if negb (Glottolog.exists_ w (Glottolog.user_data_dir E))
               then Glottolog.makedirs (Glottolog.user_data_dir E) w else w)
              (Glottolog.user_data_dir E) = true) as Hdir.
    { destruct (Glottolog.exists_ w (Glottolog.user_data_dir E)) eqn:Hd; cbn [negb fst snd Glottolog.requests Glottolog.files Glottolog.dirs]; [exact Hd|].
      apply exists_makedirs_self. }
    destruct (Glottolog.exists_ w (Glottolog.cached E release)) eqn:Hc; cbn [negb fst snd Glottolog.requests Glottolog.files Glottolog.dirs].
    + rewrite app_nil_r. split; [|split; [discriminate|intros _; exact Hdir]].
      apply data_dir_made.
    + unfold Glottolog.retrieve.
      destruct (Glottolog.download E (Glottolog.url release)) as [content|e]; cbn [negb fst snd Glottolog.requests Glottolog.files Glottolog.dirs].
      * split; [rewrite (proj2 (data_dir_made w)); reflexivity|]. split; [discriminate|].
        intros _.
        revert Hdir. unfold Glottolog.exists_. cbn [negb fst snd Glottolog.requests Glottolog.files Glottolog.dirs]. intros Hdir.
        apply orb_true_iff in Hdir as [Hdir|Hdir]; [|rewrite Hdir; apply orb_true_r].
        apply bool_decide_eq_true in Hdir.
        rewrite bool_decide_eq_true_2; [reflexivity|].
        destruct (decide (Glottolog.cached E release = Glottolog.user_data_dir E)) as [->|Hne].
        -- rewrite lookup_insert_eq. eexists; reflexivity.
        -- rewrite lookup_insert_ne by exact Hne. exact Hdir.
      * assert (forall r : result T * Glottolog.World,
                  snd r = {| Glottolog.files :=
                               Glottolog.files
                                 (if negb (Glottolog.exists_ w (Glottolog.user_data_dir E))
                                  then Glottolog.makedirs (Glottolog.user_data_dir E) w else w);
                             Glottolog.dirs :=
                               Glottolog.dirs
                                 (if negb (Glottolog.exists_ w (Glottolog.user_data_dir E))
                                  then Glottolog.makedirs (Glottolog.user_data_dir E) w else w);
                             Glottolog.requests :=
                               Glottolog.requests
                                 (if negb (Glottolog.exists_ w (Glottolog.user_data_dir E))
                                  then Glottolog.makedirs (Glottolog.user_data_dir E) w else w)
                               ++ [Glottolog.url release] |} ->
                  Glottolog.requests (snd r) = Glottolog.requests w ++ [Glottolog.url release]
                  /\ (false = true -> snd r = w)
                  /\ (false = false ->
                      Glottolog.exists_ (snd r) (Glottolog.user_data_dir E) = true)) as Hany.
        { intros r ->. split; [cbn [Glottolog.requests]; rewrite (proj2 (data_dir_made w)); reflexivity|].
          split; [discriminate|].
          intros _. exact Hdir. }
        destruct e; apply Hany; reflexivity.
Qed.

(** X27. When the classification has to be requested and the request
    fails with an [IOError] or a [ValueError], the error is a
    [ValueError] that names the release; when the request succeeds, what
    was served is stored in the data directory of the user and read from
    there. *)
Theorem glottolog_download (release : string) (w : Glottolog.World) :
  Glottolog.exists_ w (Glottolog.packaged E release) = false ->
  Glottolog.exists_ w (Glottolog.cached E release) = false ->
  (forall msg,
      Glottolog.download E (Glottolog.url release) = Raise (IOError msg)
      \/ Glottolog.download E (Glottolog.url release) = Raise (ValueError msg) ->
      fst (Glottolog.get_glottolog_newick E release w)
      = Raise (ValueError ("Could not retrieve classification for Glottolog " +:+ release)))
  /\ (forall content,
        Glottolog.download E (Glottolog.url release) = Ok content ->
        fst (Glottolog.get_glottolog_newick E release w) = Glottolog.newick_read E content
        /\ Glottolog.files (snd (Glottolog.get_glottolog_newick E release w))
           = <[Glottolog.cached E release := content]> (Glottolog.files w)).
Proof.
  intros Hp Hc. unfold Glottolog.get_glottolog_newick. rewrite Hp. cbn [negb fst snd Glottolog.requests Glottolog.files Glottolog.dirs].
  fold (Glottolog.cached E release).
  rewrite (exists_cached_after_makedirs w release), Hc. cbn [negb fst snd Glottolog.requests Glottolog.files Glottolog.dirs].
  unfold Glottolog.retrieve. split.
  - intros msg [-> | ->]; reflexivity.
  - intros content ->. cbn [negb fst snd Glottolog.requests Glottolog.files Glottolog.dirs]. unfold Glottolog.read. cbn [negb fst snd Glottolog.requests Glottolog.files Glottolog.dirs]. rewrite lookup_insert_eq.
    split; [reflexivity|]. rewrite (proj1 (data_dir_made w)). reflexivity.
Qed.

End GlottologFile.

Lemma glottolog_requests_witness :
  Glottolog.requests
    (snd (Glottolog.get_glottolog_newick Instances.glottolog_env "2.7" Instances.empty_world))
  = ["http://glottolog.org/static/download/2.7/tree-glottolog-newick.txt"]
  /\ Glottolog.exists_
       (snd (Glottolog.get_glottolog_newick Instances.glottolog_env "2.7"
               Instances.empty_world))
       "/home/user/.local/share/beastling" = true.
Proof.
  destruct (glottolog_requests Instances.glottolog_env "2.7" Instances.empty_world)
    as (Hreq & _ & Hdir).
  split; [exact Hreq|]. apply Hdir. reflexivity.
Defined.

Lemma glottolog_download_witness :
  fst (Glottolog.get_glottolog_newick Instances.glottolog_env "9.9" Instances.empty_world)
  = Raise (ValueError "Could not retrieve classification for Glottolog 9.9")
  /\ fst (Glottolog.get_glottolog_newick Instances.glottolog_env "2.7" Instances.empty_world)
     = Ok ["(a,b);"].
Proof.
  split.
  - destruct (glottolog_download Instances.glottolog_env "9.9" Instances.empty_world
                eq_refl eq_refl) as [H _].
    apply (H "HTTP 404"). left. reflexivity.
  - destruct (glottolog_download Instances.glottolog_env "2.7" Instances.empty_world
                eq_refl eq_refl) as [_ H].
    destruct (H "(a,b);" eq_refl) as [Hr _]. exact Hr.
Defined.


Lemma delta_exchange_weight_vector_witness :
  (exists op,
      delta_exchange [Instances.rated "m" ["f1"; "f2"] [("f1", 1); ("f2", 1)]]
        (0%nat, Examples.strict_clock) (fresh_builder Examples.processed_basic)
      = Ok ([op], fresh_builder Examples.processed_basic)
      /\ map tag_of (children_of op) = [Some "plate"])
  /\ (exists op,
         delta_exchange [Instances.rated "m" ["f1"; "f2"] [("f1", 1); ("f2", 3)]]
           (0%nat, Examples.strict_clock) (fresh_builder Examples.processed_basic)
         = Ok ([op], fresh_builder Examples.processed_basic)
         /\ map tag_of (children_of op) = [Some "plate"; Some "weightvector"]).
Proof.
  split.
  - destruct (delta_exchange_weight_vector
                [Instances.rated "m" ["f1"; "f2"] [("f1", 1); ("f2", 1)]]
                (0%nat, Examples.strict_clock) (fresh_builder Examples.processed_basic))
      as (_ & H & _).
    destruct H as (op & Hrun & _ & Htags).
    + vm_compute. discriminate.
    + vm_compute. repeat constructor.
    + exists op. split; [exact Hrun|exact Htags].
  - destruct (delta_exchange_weight_vector
                [Instances.rated "m" ["f1"; "f2"] [("f1", 1); ("f2", 3)]]
                (0%nat, Examples.strict_clock) (fresh_builder Examples.processed_basic))
      as (_ & _ & H).
    destruct (delta_exchange
                [Instances.rated "m" ["f1"; "f2"] [("f1", 1); ("f2", 3)]]
                (0%nat, Examples.strict_clock) (fresh_builder Examples.processed_basic))
      as [[nodes s']|e] eqn:Hrun; [|exfalso; vm_compute in Hrun; discriminate].
    destruct (H ltac:(vm_compute; discriminate)
                ltac:(vm_compute; apply Exists_cons_hd, Exists_cons_tl, Exists_cons_hd;
                      discriminate)
                nodes s' eq_refl) as (op & -> & _ & Htags).
    exists op. split; [|exact Htags].
    vm_compute in Hrun. injection Hrun as <- <-. reflexivity.
Defined.

(** ** Errors the command line does not wrap *)

Section Unwrapped.
Context {C X : Type}.
Variable E : Cli.Env C X.

(** X29. What the [try] blocks of [do_generate] do not catch.  A
    [SystemExit] raised while the configuration is processed or the
    document is built ends the run with its own status; and an error
    while the document is written is not reported as a builder error
    (status 3): it leaves [main] as it is, and the run ends with status 1. *)
Theorem generate_unwrapped_errors (args : Cli.Args) (c : C) :
  Cli.extract args = false ->
  Forall (fun conf => Cli.exists_ E conf = true) (Cli.config args) ->
  Cli.Configuration E (Cli.config args) (Cli.stdin args) (Cli.prior args) (Cli.report args)
  = Ok c ->
  Cli.exists_ E (Cli.output_filename E args c) && negb (Cli.overwrite args) = false ->
  (forall status,
      Cli.process E c = Raise (SystemExit status) ->
      Cli.main E args = Raise (SystemExit status))
  /\ (forall c' status,
        Cli.process E c = Ok c' ->
        Cli.BeastXml E c' = Raise (SystemExit status) ->
        Cli.main E args = Raise (SystemExit status))
  /\ (forall c' x e,
        Cli.process E c = Ok c' ->
        Cli.BeastXml E c' = Ok x ->
        Cli.write_file E x (Cli.output_filename E args c) = Raise e ->
        Cli.main E args = Raise e
        /\ (is_Exception e = true -> Cli.exit_status (Cli.main E args) = 1)).
Proof.
  intros Hx Hfiles Hc Hout. unfold Cli.main. rewrite Hx. unfold Cli.do_generate.
  unfold mbind at 1, result_bind. unfold mbind at 1, result_bind.
  rewrite (check_configs_present E _ Hfiles). rewrite Hc.
  cbn [Cli.try_except mbind result_bind]. rewrite Hout.
  split; [|split].
  - intros status Hp. rewrite Hp. reflexivity.
  - intros c' status Hp Hb. rewrite Hp. cbn [Cli.try_except mbind result_bind].
    rewrite Hb. reflexivity.
  - intros c' x e Hp Hb Hw. rewrite Hp. cbn [Cli.try_except mbind result_bind].
    rewrite Hb. cbn [Cli.try_except mbind result_bind]. rewrite Hw.
    split; [reflexivity|]. intros He. destruct e; try reflexivity. discriminate.
Qed.
End Unwrapped.

Lemma generate_unwrapped_errors_witness :
  Cli.main Instances.read_only_env (Examples.generate ["basic.conf"] None)
  = Raise (IOError "beastling.xml")
  /\ Cli.exit_status (Cli.main Instances.read_only_env (Examples.generate ["basic.conf"] None))
     = 1.
Proof.
  destruct (generate_unwrapped_errors Instances.read_only_env
              (Examples.generate ["basic.conf"] None) ["basic.conf"]) as (_ & _ & H).
  - reflexivity.
  - repeat constructor.
  - reflexivity.
  - reflexivity.
  - destruct (H ["basic.conf"] "basic.conf" (IOError "beastling.xml") eq_refl eq_refl eq_refl)
      as [Hm Hs].
    split; [exact Hm|apply Hs; reflexivity].
Defined.

(** ** Embedded data files *)

Section Embedding.
Variable E : Beastxml.Env.

Lemma format_data_file_comment filename (s : BeastXml) nodes s' :
  format_data_file E filename s = Ok (nodes, s') ->
  exists n, nodes = [n]
            /\ exists text,
                 read E filename = Ok text
                 /\ n = Comment ("BEASTling embedded data file: " +:+ filename
                                 +:+ String "010" "" +:+ text).
Proof.
  unfold format_data_file. run_M.
  destruct (read E filename) as [text|]; [|discriminate].
  intros [= <- _]. eexists. split; [reflexivity|]. exists text. split; reflexivity.
Qed.

Lemma for_nodes_unreadable {A} (file : A -> string) (xs : list A) (s : BeastXml) x e :
  x ∈ xs -> read E (file x) = Raise e ->
  exists e', for_nodes (fun y => format_data_file E (file y)) xs s = Raise e'.
Proof.
  intros Hin Hx. revert s. induction xs as [|y xs IH]; intros s; [inversion Hin|].
  cbn [for_nodes]. unfold mbind at 1, M_bind at 1.
  destruct (format_data_file E (file y) s) as [[nodes s1]|e1] eqn:Hy; [|eexists; reflexivity].
  apply elem_of_cons in Hin as [->|Hin].
  - exfalso. apply format_data_file_comment in Hy as (_ & _ & text & Hr & _). congruence.
  - destruct (IH Hin s1) as (e' & He'). exists e'.
    unfold mbind, M_bind. rewrite He'. reflexivity.
Qed.

(** X30. Embedding of data files.  With embedding switched off, nothing
    is added and no file is read.  With embedding switched on, the
    document gets one comment for each file to embed and then one for the
    data file of each model, in this order, each with a header line that
    names the file, followed by the text of the file; and if one of these
    files cannot be read, no document is built. *)
Theorem embed_data_comments (s : BeastXml) :
  (embed_data (settings (Beastxml.config s)) = false -> embed_data_ E s = Ok ([], s))
  /\ (embed_data (settings (Beastxml.config s)) = true ->
      (forall nodes s',
          embed_data_ E s = Ok (nodes, s') ->
          Forall2 (fun filename n =>
                     exists text,
                       read E filename = Ok text
                       /\ n = Comment ("BEASTling embedded data file: " +:+ filename
                                       +:+ String "010" "" +:+ text))
                  (files_to_embed (settings (Beastxml.config s))
                   ++ map data_filename
                        (the_models (Beastxml.config s) (models (Beastxml.config s))))
                  nodes)
      /\ (forall filename e,
            filename ∈ files_to_embed (settings (Beastxml.config s))
                       ++ map data_filename
                            (the_models (Beastxml.config s) (models (Beastxml.config s))) ->
            read E filename = Raise e ->
            exists e', embed_data_ E s = Raise e')).
Proof.
  unfold embed_data_. split.
  - intros Hoff. run_M. rewrite Hoff. reflexivity.
  - intros Hon. split.
    + intros nodes s' H.
      apply M_bind_Ok in H as (b & s0 & Hb & H). injection Hb as <- <-.
      rewrite Hon in H. cbn [negb] in H. cbv iota in H.
      apply M_bind_Ok in H as (files & s1 & Hf & H). injection Hf as <- <-.
      apply M_bind_Ok in H as (a & s2 & Ha & H).
      apply M_bind_Ok in H as (ms & s3 & Hms & H). injection Hms as <- <-.
      apply M_bind_Ok in H as (c & s4 & Hc & H). injection H as <- _.
      assert (config s2 = config s) as Hcfg.
      { apply (keeps_for_nodes same_config same_config_refl same_config_trans
                 (format_data_file E) _) in Ha; [exact Ha|].
        intros f. unfold format_data_file.
        keeps_with same_config_refl same_config_trans fail. }
      rewrite Hcfg in Hc.
      apply Forall2_app.
      * revert Ha. apply for_nodes_Ok_Forall2. intros x s5 nodes s6 Hx.
        apply format_data_file_comment in Hx as (n & -> & Hn). exists n. split; [reflexivity|exact Hn].
      * apply Forall2_fmap_l. revert Hc.
        apply (for_nodes_Ok_Forall2 (fun model => format_data_file E (data_filename model))
                 (fun model n =>
                    exists text,
                      read E (data_filename model) = Ok text
                      /\ n = Comment ("BEASTling embedded data file: " +:+ data_filename model
                                      +:+ String "010" "" +:+ text))).
        intros x s5 nodes s6 Hx.
        apply format_data_file_comment in Hx as (n & -> & Hn). exists n. split; [reflexivity|exact Hn].
    + intros filename e Hin Hr. run_M. rewrite Hon. cbn [negb]. cbv iota. run_M.
      apply elem_of_app in Hin as [Hin|Hin].
      * destruct (for_nodes_unreadable (fun f => f) _ s filename e Hin Hr) as (e' & He').
        change (for_nodes (format_data_file E) (files_to_embed (settings (config s))) s
                = Raise e') in He'.
        exists e'. rewrite He'. reflexivity.
      * destruct (for_nodes (format_data_file E) (files_to_embed (settings (config s))) s)
          as [[a s2]|e1] eqn:Ha; [|eexists; reflexivity].
        assert (config s2 = config s) as Hcfg.
        { apply (keeps_for_nodes same_config same_config_refl same_config_trans
                   (format_data_file E) _) in Ha; [exact Ha|].
          intros f. unfold format_data_file.
          keeps_with same_config_refl same_config_trans fail. }
        unfold config_models, cfg. rewrite Hcfg.
        apply list_elem_of_fmap in Hin as (m & -> & Hm).
        destruct (for_nodes_unreadable data_filename _ s2 m e Hm Hr) as (e' & He').
        exists e'. rewrite He'. reflexivity.
Qed.
End Embedding.

Lemma embed_data_comments_witness :
  embed_data_ Examples.env (fresh_builder Examples.processed_basic)
  = Ok ([], fresh_builder Examples.processed_basic)
  /\ exists e', embed_data_ Examples.env (fresh_builder Instances.embedding) = Raise e'.
Proof.
  destruct (embed_data_comments Examples.env (fresh_builder Examples.processed_basic))
    as [Hoff _].
  split; [apply Hoff; reflexivity|].
  destruct (embed_data_comments Examples.env (fresh_builder Instances.embedding))
    as [_ Hon].
  destruct (Hon eq_refl) as [_ Hfail].
  apply (Hfail "ab.csv" (IOError "ab.csv")); [|reflexivity].
  vm_compute. apply list_elem_of_here.
Defined.
